(** * AgriWater optimizer: the scheduling engine of [scripts/optimizer.py]

    A shallow embedding of [IrrigationScheduleOptimizer]: the MILP that
    [build_optimization_problem] formulates, the pipeline of
    [optimize_schedule] around the external solver, and the comparison
    of [compare_baseline_vs_optimized].

    Conventions of the model.
    - Numbers are exact rationals ([Q]); rounding of machine floats is
      outside the model.  What Python and numpy do on a division by
      zero is kept, because it decides control flow: Python's [/]
      raises [ZeroDivisionError], numpy's [/] yields [inf], [-inf] or
      [nan].
    - Hours are Python ints ([Z]); [range] is empty on a non-positive
      bound.
    - The dicts used as records ([pump_configs] entries, [tariff_config],
      [hour_data], the solution and the comparison) are records.
    - The MILP solver (PuLP with CBC) is an oracle handed to the
      pipeline; every call to it is recorded in the trace of the run,
      next to the one warning the pipeline prints on its own account.
      Constraint names are carried as labels.  PuLP refuses a second
      constraint of the same name; the model has no such failure, and
      the statements that conclude that a problem is formulated assume
      a fleet whose names do not clash ([distinct_names]).
    - The answer of the solver gives a value to every variable.  PuLP
      leaves a variable without value when it occurs with coefficient
      zero only (a pump with neither capacity nor power, over a single
      hour), and reading it fails; such fleets are outside the model,
      and [every_pump_counts] describes the others.
    - The baseline frame is the list of its rows, each with the three
      columns the comparison reads.  A frame without any row, which in
      pandas may have no column to sum, is outside the model. *)

From Stdlib Require Import List Ascii String ZArith QArith Lia Lqa Bool FinFun.
Import ListNotations.

Local Open Scope Q_scope.

(* ------------------------------------------------------------------ *)
(** * Python values *)

Inductive exn : Type :=
| ZeroDivisionError
| IndexError.

Inductive result (A : Type) : Type :=
| Return (a : A)
| Raise  (e : exn).
Arguments Return {A} a.
Arguments Raise {A} e.

Definition rbind {A B} (m : result A) (f : A -> result B) : result B :=
  match m with
  | Return a => f a
  | Raise e  => Raise e
  end.

Declare Scope result_scope.
Delimit Scope result_scope with result.
Notation "x <- m ;; k" := (rbind m (fun x => k))
  (at level 61, m at next level, right associativity) : result_scope.

(** [[f(x) for x in xs]] where [f] may raise. *)
Fixpoint mapM {A B} (f : A -> result B) (xs : list A) : result (list B) :=
  match xs with
  | [] => Return []
  | x :: xs' =>
      (y  <- f x ;;
       ys <- mapM f xs' ;;
       Return (y :: ys))%result
  end.

(** [for x in xs: acc = body(acc, x)] where [body] may raise. *)
Fixpoint foldM {A S} (body : S -> A -> result S) (xs : list A) (acc : S)
  : result S :=
  match xs with
  | [] => Return acc
  | x :: xs' => (acc' <- body acc x ;; foldM body xs' acc')%result
  end.

(** [range(n)] and [range(a, b)]. *)
Definition range (n : Z) : list Z :=
  map Z.of_nat (seq 0 (Z.to_nat n)).

Definition range_from (a b : Z) : list Z :=
  map (fun i => (a + Z.of_nat i)%Z) (seq 0 (Z.to_nat (b - a))).

(** [xs[t]] on a list, with Python's negative indices. *)
Definition getitem {A} (xs : list A) (t : Z) : result A :=
  let n := Z.of_nat (List.length xs) in
  let i := if (t <? 0)%Z then (t + n)%Z else t in
  if ((0 <=? i) && (i <? n))%Z
  then match nth_error xs (Z.to_nat i) with
       | Some x => Return x
       | None => Raise IndexError
       end
  else Raise IndexError.

(** Python's [x / y] on its own numbers. *)
Definition py_truediv (x y : Q) : result Q :=
  if Qeq_bool y 0 then Raise ZeroDivisionError else Return (x / y).

(** Truth value of a number: [x if x else 0]. *)
Definition truthy (x : Q) : bool := negb (Qeq_bool x 0).

(** numpy scalars: a finite value or one of the IEEE specials. *)
Inductive np_float : Type :=
| finite (q : Q)
| inf
| neg_inf
| nan.

(** [x / y] on numpy scalars: a warning, never an exception. *)
Definition np_truediv (x y : Q) : np_float :=
  if Qeq_bool y 0 then
    match x ?= 0 with
    | Gt => inf
    | Lt => neg_inf
    | Eq => nan
    end
  else finite (x / y).

(** [x * c] for a numpy scalar [x] and a Python constant [c]. *)
Definition np_mul (x : np_float) (c : Q) : np_float :=
  match x with
  | finite q => finite (q * c)
  | nan => nan
  | inf => match c ?= 0 with Gt => inf | Lt => neg_inf | Eq => nan end
  | neg_inf => match c ?= 0 with Gt => neg_inf | Lt => inf | Eq => nan end
  end.

Definition is_finite (x : np_float) : bool :=
  match x with finite _ => true | _ => false end.

(** [sum] of a column. *)
Fixpoint Qsum (xs : list Q) : Q :=
  match xs with
  | [] => 0
  | x :: xs' => x + Qsum xs'
  end.

(* ------------------------------------------------------------------ *)
(** * Fleet and tariff *)

(** An entry of [pump_configs]: [{id, capacity_m3h, power_kw}]. *)
Record pump : Type := {
  id : string;
  capacity_m3h : Q;
  power_kw : Q
}.

(** [tariff_config]: [{peak, offpeak, subscribed_power, penalty_rate}]. *)
Record tariff_config : Type := {
  peak : Q;
  offpeak : Q;
  subscribed_power : Q;
  penalty_rate : Q
}.

(** The rate the optimizer applies at hour index [t]:
    [tariff['peak'] if (7 <= t < 23) else tariff['offpeak']]. *)
Definition tariff_at (tc : tariff_config) (t : Z) : Q :=
  if ((7 <=? t) && (t <? 23))%Z then peak tc else offpeak tc.

(* ------------------------------------------------------------------ *)
(** * Linear programs (the part of PuLP the optimizer uses) *)

(** The four dicts of decision variables, by key. *)
Inductive LpVariable : Type :=
| pump_status (p : string) (t : Z)   (* cat='Binary' *)
| total_power (t : Z)                (* lowBound=0 *)
| penalty (t : Z)                    (* lowBound=0 *)
| startup (p : string) (t : Z).      (* cat='Binary' *)

Definition LpVariable_eq_dec (v w : LpVariable) : {v = w} + {v <> w}.
Proof. decide equality; auto using Z.eq_dec, string_dec. Defined.

Inductive category : Type := Binary | Continuous_lowBound_0.

Definition cat (v : LpVariable) : category :=
  match v with
  | pump_status _ _ | startup _ _ => Binary
  | total_power _ | penalty _ => Continuous_lowBound_0
  end.

(** An affine expression: [sum coef * var + constant]. *)
Record LpAffineExpression : Type := {
  terms : list (LpVariable * Q);
  constant : Q
}.

Definition of_var (v : LpVariable) : LpAffineExpression :=
  {| terms := [(v, 1)]; constant := 0 |}.

(** A variable stands for the expression [1 * v]. *)
Coercion of_var : LpVariable >-> LpAffineExpression.

Definition of_const (c : Q) : LpAffineExpression :=
  {| terms := []; constant := c |}.

Definition expr_add (e1 e2 : LpAffineExpression) : LpAffineExpression :=
  {| terms := terms e1 ++ terms e2; constant := constant e1 + constant e2 |}.

Definition expr_scale (c : Q) (e : LpAffineExpression) : LpAffineExpression :=
  {| terms := map (fun vk => (fst vk, c * snd vk)) (terms e);
     constant := c * constant e |}.

Definition expr_sub (e1 e2 : LpAffineExpression) : LpAffineExpression :=
  expr_add e1 (expr_scale (-1) e2).

Definition lpSum (es : list LpAffineExpression) : LpAffineExpression :=
  fold_right expr_add (of_const 0) es.

Declare Scope lp_scope.
Delimit Scope lp_scope with lp.
Notation "e1 + e2" := (expr_add e1 e2) : lp_scope.
Notation "e1 - e2" := (expr_sub e1 e2) : lp_scope.
Notation "c *: e" := (expr_scale c e) (at level 40, left associativity) : lp_scope.

Inductive sense : Type := LE | GE | EQ.

(** The label given to a constraint when it is added to the problem. *)
Inductive constraint_name : Type :=
| demand_satisfaction_h (t : Z)
| total_power_calc_h (t : Z)
| penalty_calc_h (t : Z)
| startup_detect (p : string) (t : Z)
| max_startups (p : string).

Record LpConstraint : Type := {
  lhs : LpAffineExpression;
  rel : sense;
  rhs : LpAffineExpression;
  name : constraint_name
}.

Record LpProblem : Type := {
  objective : LpAffineExpression;
  constraints : list LpConstraint;
  variables : list LpVariable
}.

(** ** Semantics under an assignment *)

Definition assignment : Type := LpVariable -> Q.

Definition value (a : assignment) (e : LpAffineExpression) : Q :=
  Qsum (map (fun vk => snd vk * a (fst vk)) (terms e)) + constant e.

Definition satisfied (a : assignment) (c : LpConstraint) : Prop :=
  match rel c with
  | LE => value a (lhs c) <= value a (rhs c)
  | GE => value a (rhs c) <= value a (lhs c)
  | EQ => value a (lhs c) == value a (rhs c)
  end.

Definition in_domain (v : LpVariable) (x : Q) : Prop :=
  match cat v with
  | Binary => x == 0 \/ x == 1
  | Continuous_lowBound_0 => 0 <= x
  end.

Definition feasible (prob : LpProblem) (a : assignment) : Prop :=
  Forall (fun v => in_domain v (a v)) (variables prob) /\
  Forall (satisfied a) (constraints prob).

(** Executable versions, for concrete assignments. *)
Definition satisfiedb (a : assignment) (c : LpConstraint) : bool :=
  match rel c with
  | LE => Qle_bool (value a (lhs c)) (value a (rhs c))
  | GE => Qle_bool (value a (rhs c)) (value a (lhs c))
  | EQ => Qeq_bool (value a (lhs c)) (value a (rhs c))
  end.

Definition in_domainb (v : LpVariable) (x : Q) : bool :=
  match cat v with
  | Binary => Qeq_bool x 0 || Qeq_bool x 1
  | Continuous_lowBound_0 => Qle_bool 0 x
  end.

Definition feasibleb (prob : LpProblem) (a : assignment) : bool :=
  forallb (fun v => in_domainb v (a v)) (variables prob) &&
  forallb (satisfiedb a) (constraints prob).

(** The coefficient a variable carries in an expression. *)
Definition coefficient (e : LpAffineExpression) (v : LpVariable) : Q :=
  Qsum (map (fun vk => if LpVariable_eq_dec (fst vk) v then snd vk else 0)
            (terms e)).

(* ------------------------------------------------------------------ *)
(** * The optimizer object *)

Inductive on_off : Type := ON | OFF.

(** One row of the schedule ([hour_data]). *)
Record hour_data : Type := {
  hour : Z;
  demand_m3h : Q;
  total_power_kw : Q;
  penalty_fcfa : Q;
  tariff_fcfa_kwh : Q;
  pumps_active : list string;
  pumps_status : list (string * on_off);
  energy_cost_fcfa : Q;
  total_cost_fcfa : Q
}.

(** [self.solution]. *)
Record Solution : Type := {
  schedule : list hour_data;
  total_cost : Q;
  total_energy : Q;
  total_penalties : Q;
  status : string;
  solve_time : Q
}.

Record IrrigationScheduleOptimizer : Type := {
  demand : list Q;
  pumps : list pump;
  tariff : tariff_config;
  solution : option Solution
}.

(** [__init__]. *)
Definition init (demand_forecast : list Q) (pump_configs : list pump)
    (tariff_config : tariff_config) : IrrigationScheduleOptimizer :=
  {| demand := demand_forecast; pumps := pump_configs;
     tariff := tariff_config; solution := None |}.

(* ------------------------------------------------------------------ *)
(** * [build_optimization_problem] *)

Section Formulation.

Variable self : IrrigationScheduleOptimizer.
Variable horizon_hours : Z.

Local Open Scope lp_scope.

(** One summand of the objective, for hour [t]. *)
Definition objective_term (t : Z) : LpAffineExpression :=
  tariff_at (tariff self) t *: (total_power t)
  + (penalty t)
  + lpSum (map (fun p => 5000 *: (startup (id p) t)) (pumps self)).

(** 1. demand coverage; reads [self.demand[t]]. *)
Definition demand_constraint (t : Z) : result LpConstraint :=
  (d <- getitem (demand self) t ;;
   Return {| lhs := lpSum (map (fun p => capacity_m3h p *: (pump_status (id p) t))
                               (pumps self));
             rel := GE;
             rhs := of_const d;
             name := demand_satisfaction_h t |})%result.

(** 2. power accounting. *)
Definition power_constraint (t : Z) : LpConstraint :=
  {| lhs := (total_power t);
     rel := EQ;
     rhs := lpSum (map (fun p => power_kw p *: (pump_status (id p) t))
                       (pumps self));
     name := total_power_calc_h t |}.

(** 3. penalty over the subscribed power. *)
Definition penalty_constraint (t : Z) : LpConstraint :=
  {| lhs := (penalty t);
     rel := GE;
     rhs := penalty_rate (tariff self)
            *: ((total_power t) - of_const (subscribed_power (tariff self)));
     name := penalty_calc_h t |}.

(** 4. start-up detection, for [t] in [range(1, horizon_hours)]. *)
Definition startup_constraint (p : pump) (t : Z) : LpConstraint :=
  {| lhs := (startup (id p) t);
     rel := GE;
     rhs := (pump_status (id p) t) - (pump_status (id p) (t - 1));
     name := startup_detect (id p) t |}.

(** 7. start-up budget, over [range(min(24, horizon_hours))]. *)
Definition max_startups_constraint (p : pump) : LpConstraint :=
  {| lhs := lpSum (map (fun t => of_var (startup (id p) t))
                       (range (Z.min 24 horizon_hours)));
     rel := LE;
     rhs := of_const 8;
     name := max_startups (id p) |}.

Definition declared_variables : list LpVariable :=
  flat_map (fun p => map (pump_status (id p)) (range horizon_hours)) (pumps self)
  ++ map total_power (range horizon_hours)
  ++ map penalty (range horizon_hours)
  ++ flat_map (fun p => map (startup (id p)) (range horizon_hours)) (pumps self).

Definition build_optimization_problem : result LpProblem :=
  (let hours := range horizon_hours in
   let obj := lpSum (map objective_term hours) in
   demand_cs <- mapM demand_constraint hours ;;
   let power_cs := map power_constraint hours in
   let penalty_cs := map penalty_constraint hours in
   let startup_cs :=
     flat_map (fun p => map (startup_constraint p) (range_from 1 horizon_hours))
              (pumps self) in
   let budget_cs := map max_startups_constraint (pumps self) in
   Return {| objective := obj;
             constraints := demand_cs ++ power_cs ++ penalty_cs
                            ++ startup_cs ++ budget_cs;
             variables := declared_variables |})%result.

End Formulation.

(* ------------------------------------------------------------------ *)
(** * The pipeline monad: trace, object state, exceptions *)

Inductive event : Type :=
| warn_short_demand (n : nat)        (* "Demande sur {n}h seulement" *)
| solve_call (prob : LpProblem).     (* prob.solve(solver) *)

(** What the solver leaves behind: [LpStatus[prob.status]], the
    [varValue] of every variable, and the wall-clock time it took. *)
Record SolverAnswer : Type := {
  lp_status : string;
  varValue : LpVariable -> Q;
  elapsed : Q
}.

Definition M (A : Type) : Type :=
  IrrigationScheduleOptimizer ->
  list event * IrrigationScheduleOptimizer * result A.

Definition ret {A} (a : A) : M A := fun s => ([], s, Return a).

Definition bind {A B} (m : M A) (f : A -> M B) : M B :=
  fun s =>
    match m s with
    | (tr, s', Return a) =>
        match f a s' with
        | (tr', s'', r) => (tr ++ tr', s'', r)
        end
    | (tr, s', Raise e) => (tr, s', Raise e)
    end.

Definition get_self : M IrrigationScheduleOptimizer :=
  fun s => ([], s, Return s).

(** [self.solution = sol] *)
Definition with_solution (s : IrrigationScheduleOptimizer) (sol : Solution)
  : IrrigationScheduleOptimizer :=
  {| demand := demand s; pumps := pumps s; tariff := tariff s;
     solution := Some sol |}.

Definition set_solution (sol : Solution) : M unit :=
  fun s => ([], with_solution s sol, Return tt).

Definition emit (e : event) : M unit := fun s => ([e], s, Return tt).

Definition lift {A} (r : result A) : M A := fun s => ([], s, r).

Declare Scope pipeline_scope.
Delimit Scope pipeline_scope with M.
Notation "x <- m ;; k" := (bind m (fun x => k))
  (at level 61, m at next level, right associativity) : pipeline_scope.
Notation "m ;; k" := (bind m (fun _ => k))
  (at level 61, right associativity) : pipeline_scope.

(* ------------------------------------------------------------------ *)
(** * [optimize_schedule] *)

Definition Qgt_bool (x y : Q) : bool := negb (Qle_bool x y).

(** [d[k] = v] on a dict kept in insertion order. *)
Fixpoint dict_set {V} (k : string) (v : V) (d : list (string * V))
  : list (string * V) :=
  match d with
  | [] => [(k, v)]
  | (k', v') :: d' =>
      if String.eqb k k' then (k, v) :: d' else (k', v') :: dict_set k v d'
  end.

(** The accumulators of the extraction loop. *)
Record extraction : Type := {
  rows : list hour_data;
  total_cost_optimized : Q;
  energy_sum : Q;
  penalties_sum : Q
}.

Definition extraction_start : extraction :=
  {| rows := []; total_cost_optimized := 0; energy_sum := 0; penalties_sum := 0 |}.

Section Extraction.

Variable self : IrrigationScheduleOptimizer.
Variable ans : SolverAnswer.

(** The inner loop over the pumps at hour [t]. *)
Definition pump_states (t : Z) : list string * list (string * on_off) :=
  fold_left
    (fun acc p =>
       let status_val := varValue ans (pump_status (id p) t) in
       let on := Qgt_bool status_val (1 # 2) in
       (if on then fst acc ++ [id p] else fst acc,
        dict_set (id p) (if on then ON else OFF) (snd acc)))
    (pumps self) ([], []).

(** [hour_data] for hour [t], once [self.demand[t]] has been read. *)
Definition hour_row (t : Z) (d : Q) : hour_data :=
  let power := varValue ans (total_power t) in
  let pen := if truthy (varValue ans (penalty t))
             then varValue ans (penalty t) else 0 in
  let rate := tariff_at (tariff self) t in
  let states := pump_states t in
  let energy_cost := power * rate in
  {| hour := t;
     demand_m3h := d;
     total_power_kw := power;
     penalty_fcfa := pen;
     tariff_fcfa_kwh := rate;
     pumps_active := fst states;
     pumps_status := snd states;
     energy_cost_fcfa := energy_cost;
     total_cost_fcfa := energy_cost + pen |}.

(** The body of [for t in range(horizon_hours)]. *)
Definition extract_hour (acc : extraction) (t : Z) : result extraction :=
  (d <- getitem (demand self) t ;;
   let row := hour_row t d in
   Return {| rows := rows acc ++ [row];
             total_cost_optimized := total_cost_optimized acc + total_cost_fcfa row;
             energy_sum := energy_sum acc + total_power_kw row;
             penalties_sum := penalties_sum acc + penalty_fcfa row |})%result.

End Extraction.

(** The dict stored in [self.solution] after the loop. *)
Definition solution_of (acc : extraction) (status : string) (solve_time : Q)
  : Solution :=
  {| schedule := rows acc;
     total_cost := total_cost_optimized acc;
     total_energy := energy_sum acc;
     total_penalties := penalties_sum acc;
     status := status;
     solve_time := solve_time |}.

Section Pipeline.

(** The external MILP solver. *)
Variable solve : LpProblem -> SolverAnswer.

Definition call_solver (prob : LpProblem) : M SolverAnswer :=
  (emit (solve_call prob) ;; ret (solve prob))%M.

Definition optimize_schedule (horizon_hours : Z) : M (option Solution) :=
  (self <- get_self ;;
   horizon_hours <-
     (if (Z.of_nat (List.length (demand self)) <? horizon_hours)%Z
      then emit (warn_short_demand (List.length (demand self))) ;;
           ret (Z.of_nat (List.length (demand self)))
      else ret horizon_hours) ;;
   prob <- lift (build_optimization_problem self horizon_hours) ;;
   ans <- call_solver prob ;;
   let status := lp_status ans in
   if negb (String.eqb status "Optimal") then ret None
   else
     acc <- lift (foldM (extract_hour self ans) (range horizon_hours)
                        extraction_start) ;;
     let sol := solution_of acc status (elapsed ans) in
     set_solution sol ;;
     (* the summary line: total_penalties/total_cost_optimized*100 *)
     _ <- lift (pct <- py_truediv (penalties_sum acc) (total_cost_optimized acc) ;;
                Return (pct * 100))%result ;;
     ret (Some sol))%M.

End Pipeline.

(* ------------------------------------------------------------------ *)
(** * [compare_baseline_vs_optimized] *)

Module Baseline.
(** The columns of the baseline frame the comparison reads.  The
    generator writes one row per pump and per hour; the columns are
    numeric, so their sums are numpy scalars. *)
Record row : Type := {
  total_cost_fcfa : Q;
  power_kw : Q;
  penalty_fcfa : Q
}.
End Baseline.

Module Comparison.
Record t : Type := {
  baseline_cost : Q;
  optimized_cost : Q;
  savings_fcfa : Q;
  savings_percent : np_float;
  energy_savings_kwh : Q;
  penalty_reduction : Q;
  monthly_savings_projection : np_float;
  annual_savings_projection : np_float;
  schedule : list hour_data
}.
End Comparison.

(** [(cost_savings / baseline_cost) * 100] *)
Definition cost_savings_pct (cost_savings baseline_cost : Q) : np_float :=
  np_mul (np_truediv cost_savings baseline_cost) 100.

(** [(energy_savings / baseline_energy) * 100] *)
Definition energy_savings_pct (energy_savings baseline_energy : Q) : np_float :=
  np_mul (np_truediv energy_savings baseline_energy) 100.

(** [(penalty_savings / baseline_penalties) * 100 if baseline_penalties > 0 else 0] *)
Definition penalty_savings_pct (penalty_savings baseline_penalties : Q) : np_float :=
  if Qgt_bool baseline_penalties 0
  then np_mul (np_truediv penalty_savings baseline_penalties) 100
  else finite 0.

Definition hours_per_month : Q := 720.

Definition compare_baseline_vs_optimized (self : IrrigationScheduleOptimizer)
    (baseline_data : list Baseline.row) : option Comparison.t :=
  match solution self with
  | None => None
  | Some sol =>
      let horizon := List.length (schedule sol) in
      let baseline_subset :=
        firstn (horizon * List.length (pumps self)) baseline_data in
      let baseline_cost := Qsum (map Baseline.total_cost_fcfa baseline_subset) in
      let baseline_energy := Qsum (map Baseline.power_kw baseline_subset) in
      let baseline_penalties := Qsum (map Baseline.penalty_fcfa baseline_subset) in
      let optimized_cost := total_cost sol in
      let optimized_energy := total_energy sol in
      let optimized_penalties := total_penalties sol in
      let cost_savings := baseline_cost - optimized_cost in
      let energy_savings := baseline_energy - optimized_energy in
      let penalty_savings := baseline_penalties - optimized_penalties in
      let monthly_savings :=
        np_mul (np_truediv cost_savings (inject_Z (Z.of_nat horizon)))
               hours_per_month in
      let annual_savings := np_mul monthly_savings 12 in
      Some {| Comparison.baseline_cost := baseline_cost;
              Comparison.optimized_cost := optimized_cost;
              Comparison.savings_fcfa := cost_savings;
              Comparison.savings_percent := cost_savings_pct cost_savings baseline_cost;
              Comparison.energy_savings_kwh := energy_savings;
              Comparison.penalty_reduction := penalty_savings;
              Comparison.monthly_savings_projection := monthly_savings;
              Comparison.annual_savings_projection := annual_savings;
              Comparison.schedule := schedule sol |}
  end.

(* ------------------------------------------------------------------ *)
(** * Notions the statements are written with *)

(** The horizon the pipeline formulates for: the requested one, cut to
    the length of the forecast. *)
Definition effective_horizon (self : IrrigationScheduleOptimizer) (h : Z) : Z :=
  if (Z.of_nat (List.length (demand self)) <? h)%Z
  then Z.of_nat (List.length (demand self)) else h.

(** The warning printed when the forecast is shorter than the request. *)
Definition truncation_warning (self : IrrigationScheduleOptimizer) (h : Z)
  : list event :=
  if (Z.of_nat (List.length (demand self)) <? h)%Z
  then [warn_short_demand (List.length (demand self))] else [].

(** The extraction loop as a whole. *)
Definition extract_schedule (self : IrrigationScheduleOptimizer)
    (ans : SolverAnswer) (h : Z) : result extraction :=
  foldM (extract_hour self ans) (range h) extraction_start.

(** Projections of a run. *)
Definition trace_of {A} (run : list event * IrrigationScheduleOptimizer * result A)
  : list event := fst (fst run).
Definition state_of {A} (run : list event * IrrigationScheduleOptimizer * result A)
  : IrrigationScheduleOptimizer := snd (fst run).
Definition result_of {A} (run : list event * IrrigationScheduleOptimizer * result A)
  : result A := snd run.

(** What the formulation is meant to enforce at hour [t]: demand
    coverage, power accounting, the two penalty bounds and, after hour
    0, start-up detection for every pump. *)
Definition hourly_invariants (self : IrrigationScheduleOptimizer)
    (a : assignment) (t : Z) : Prop :=
  (exists d, getitem (demand self) t = Return d /\
     d <= Qsum (map (fun p => a (pump_status (id p) t) * capacity_m3h p)
                    (pumps self)))
  /\ a (total_power t)
     == Qsum (map (fun p => a (pump_status (id p) t) * power_kw p) (pumps self))
  /\ penalty_rate (tariff self) * (a (total_power t) - subscribed_power (tariff self))
     <= a (penalty t)
  /\ 0 <= a (penalty t)
  /\ ((0 < t)%Z -> forall p, In p (pumps self) ->
        a (pump_status (id p) t) - a (pump_status (id p) (t - 1))
        <= a (startup (id p) t)).

(** Every variable at zero: no pump runs. *)
Definition idle : assignment := fun _ => 0.

(** A feasible assignment that no feasible assignment beats. *)
Definition optimal (prob : LpProblem) (a : assignment) : Prop :=
  feasible prob a /\
  forall a', feasible prob a' ->
    value a (objective prob) <= value a' (objective prob).

(** The cost the extraction books for hour [t]. *)
Definition hour_cost (tc : tariff_config) (a : assignment) (t : Z) : Q :=
  a (total_power t) * tariff_at tc t
  + (if truthy (a (penalty t)) then a (penalty t) else 0).

(** Start-ups of pump [p] in the 24 hours from [start]. *)
Definition window_startups (a : assignment) (p : string) (start : Z) : Q :=
  Qsum (map (fun t => a (startup p t)) (range_from start (start + 24))).

(** [sum_t (total_power[t]*tariff(t) + penalty[t] + sum_p startup[p,t]*c)]. *)
Definition objective_formula (tc : tariff_config) (c : Q) (ps : list pump)
    (h : Z) (a : assignment) : Q :=
  Qsum (map (fun t => a (total_power t) * tariff_at tc t
                      + a (penalty t)
                      + Qsum (map (fun p => a (startup (id p) t) * c) ps))
            (range h)).

(** The tariff schedule as the specification describes it: the rates of
    [tariff_config] and, in addition, a per-start cost. *)
Module Spec.
Record TariffSchedule : Type := {
  peak_rate : Q;
  offpeak_rate : Q;
  subscribed : Q;
  overage_rate : Q;
  startup_cost : Q
}.

(** The keys of it the optimizer has a place for. *)
Definition to_config (ts : TariffSchedule) : tariff_config :=
  {| peak := peak_rate ts; offpeak := offpeak_rate ts;
     subscribed_power := subscribed ts; penalty_rate := overage_rate ts |}.

(** The objective with the configured per-start cost. *)
Definition objective_value (ts : TariffSchedule) (ps : list pump) (h : Z)
    (a : assignment) : Q :=
  objective_formula (to_config ts) (startup_cost ts) ps h a.
End Spec.

(** The baseline frame laid out as the generator writes it: for each
    hour in turn, one row per pump. *)
Definition frame_of_hours (hours : list (list Baseline.row)) : list Baseline.row :=
  List.concat hours.

(* ------------------------------------------------------------------ *)
(** * Scenarios *)

Module Demo.

Definition P1 : pump := {| id := "P1"; capacity_m3h := 60; power_kw := 45 |}.
Definition P2 : pump := {| id := "P2"; capacity_m3h := 50; power_kw := 38 |}.

Definition tariffs : tariff_config :=
  {| peak := 110; offpeak := 75; subscribed_power := 150; penalty_rate := 200 |}.

(** Three hours of demand served by two pumps. *)
Definition optimizer : IrrigationScheduleOptimizer :=
  init [40; 0; 100] [P1; P2] tariffs.

(** P1 runs at hours 0 and 2, P2 joins at hour 2. *)
Definition plan : assignment := fun v =>
  match v with
  | pump_status p t =>
      if String.eqb p "P1" then (if (t =? 1)%Z then 0 else 1)
      else (if (t =? 2)%Z then 1 else 0)
  | total_power t => if (t =? 0)%Z then 45 else if (t =? 1)%Z then 0 else 83
  | penalty _ => 0
  | startup _ t => if (t =? 2)%Z then 1 else 0
  end.

Definition solver_with (st : string) : LpProblem -> SolverAnswer :=
  fun _ => {| lp_status := st; varValue := plan; elapsed := 1 |}.

Definition idle_solver : LpProblem -> SolverAnswer :=
  fun _ => {| lp_status := "Optimal"; varValue := idle; elapsed := 1 |}.

(** A forecast that is zero at every hour. *)
Definition idle_optimizer : IrrigationScheduleOptimizer :=
  init [0; 0; 0] [P1; P2] tariffs.

(** A fleet with no pump. *)
Definition no_pumps : IrrigationScheduleOptimizer :=
  init [10] [] tariffs.

(** The optimizer after a successful run over the three hours. *)
Definition solved : IrrigationScheduleOptimizer :=
  state_of (optimize_schedule (solver_with "Optimal") 3 optimizer).

(** A baseline in which both pumps are off for three hours. *)
Definition off_row : Baseline.row :=
  {| Baseline.total_cost_fcfa := 0; Baseline.power_kw := 0;
     Baseline.penalty_fcfa := 0 |}.
Definition idle_baseline : list Baseline.row := repeat off_row 6.

(** A baseline of four hours, two rows an hour. *)
Definition on_row (c e : Q) : Baseline.row :=
  {| Baseline.total_cost_fcfa := c; Baseline.power_kw := e;
     Baseline.penalty_fcfa := 0 |}.
Definition baseline_hours : list (list Baseline.row) :=
  [ [on_row 3375 45; off_row];
    [on_row 3375 45; off_row];
    [on_row 3375 45; on_row 2850 38];
    [on_row 4950 45; on_row 4180 38] ].

(** Two days for one large pump: nothing to do on the first day, a
    demand on every odd hour of the second. *)
Definition big : pump := {| id := "P1"; capacity_m3h := 10; power_kw := 100 |}.

Definition two_days_demand : list Q :=
  map (fun t => if ((24 <=? t) && Z.odd t)%Z then 10 else 0) (range 48).

Definition two_days : IrrigationScheduleOptimizer :=
  init two_days_demand [big] tariffs.

(** The pump runs exactly when there is demand. *)
Definition toggling : assignment := fun v =>
  let on (t : Z) : Q := if ((24 <=? t) && Z.odd t)%Z then 1 else 0 in
  match v with
  | pump_status _ t => on t
  | total_power t => 100 * on t
  | penalty _ => 0
  | startup _ t => on t
  end.

(** A tariff schedule that prices a start at 100. *)
Definition cheap_starts : Spec.TariffSchedule :=
  {| Spec.peak_rate := 110; Spec.offpeak_rate := 75; Spec.subscribed := 150;
     Spec.overage_rate := 200; Spec.startup_cost := 100 |}.

(** One start of P1 at hour 0 and nothing else. *)
Definition one_start : assignment := fun v =>
  match v with
  | startup _ t => if (t =? 0)%Z then 1 else 0
  | _ => 0
  end.

End Demo.

(* ------------------------------------------------------------------ *)
(** * Fleets and plans *)

(** Python's [max(x, y)]. *)
Definition py_max (x y : Q) : Q := if Qgt_bool y x then y else x.

(** Python's [min(x, y)]. *)
Definition py_min (x y : Q) : Q := if Qgt_bool x y then y else x.

(** What the whole fleet can pump, and what it then draws. *)
Definition fleet_capacity (ps : list pump) : Q := Qsum (map capacity_m3h ps).
Definition fleet_power (ps : list pump) : Q := Qsum (map power_kw ps).

(** The test of the extraction: [status_val > 0.5]. *)
Definition running (a : assignment) (t : Z) (p : pump) : bool :=
  Qgt_bool (a (pump_status (id p) t)) (1 # 2).

(** The pumps a plan runs at hour [t], in fleet order. *)
Definition active_pumps (self : IrrigationScheduleOptimizer) (a : assignment)
    (t : Z) : list pump :=
  filter (running a t) (pumps self).

(** The plan that runs every pump at every hour. *)
Definition all_on (self : IrrigationScheduleOptimizer) : assignment := fun v =>
  match v with
  | pump_status _ _ => 1
  | total_power _ => fleet_power (pumps self)
  | penalty _ =>
      py_max 0 (penalty_rate (tariff self)
                * (fleet_power (pumps self) - subscribed_power (tariff self)))
  | startup _ _ => 0
  end.

(** The starts a plan books over the horizon, all pumps together. *)
Definition startups_booked (a : assignment) (ps : list pump) (h : Z) : Q :=
  Qsum (map (fun t => Qsum (map (fun p => a (startup (id p) t)) ps)) (range h)).

(** A plan changed at one variable. *)
Definition update (a : assignment) (v : LpVariable) (x : Q) : assignment :=
  fun w => if LpVariable_eq_dec w v then x else a w.


(* ------------------------------------------------------------------ *)
(** * [data_generator.py]: the baseline generator

    The generator draws random numbers and reads calendar fields of
    pandas timestamps.  Both libraries are interfaces here: a calendar
    gives the fields of a timestamp and adds hours to it, a random
    source threads its state through every draw.  Numbers are Python
    numbers, as the generator produces them. *)

Class Calendar (T : Type) : Type := {
  ts_hour : T -> Z;                 (* ts.hour *)
  ts_weekday : T -> Z;              (* ts.weekday() *)
  ts_day : T -> Z;                  (* ts.day *)
  ts_month : T -> Z;                (* ts.month *)
  add_hours : T -> Z -> T           (* ts + timedelta(hours=h) *)
}.

Class Random (R : Type) : Type := {
  normal : Q -> Q -> R -> Q * R;    (* np.random.normal(loc, scale) *)
  uniform : Q -> Q -> R -> Q * R;   (* np.random.uniform(low, high) *)
  random : R -> Q * R               (* np.random.random() *)
}.

(** Computations that draw random numbers and may raise. *)
Definition G (R A : Type) : Type := R -> result (A * R).

Definition gret {R A} (a : A) : G R A := fun r => Return (a, r).

Definition gbind {R A B} (m : G R A) (f : A -> G R B) : G R B :=
  fun r => match m r with
           | Return (a, r') => f a r'
           | Raise e => Raise e
           end.

Definition draw {R A} (d : R -> A * R) : G R A := fun r => Return (d r).

Definition glift {R A} (x : result A) : G R A :=
  fun r => match x with Return a => Return (a, r) | Raise e => Raise e end.

Declare Scope gen_scope.
Delimit Scope gen_scope with G.
Notation "x <- m ;; k" := (gbind m (fun x => k))
  (at level 61, m at next level, right associativity) : gen_scope.

(** [for x in xs: st = body(st, x)] with random draws. *)
Fixpoint gfold {R A S} (body : S -> A -> G R S) (xs : list A) (st : S) : G R S :=
  match xs with
  | [] => gret st
  | x :: xs' => (st' <- body st x ;; gfold body xs' st')%G
  end.

(** An entry of [self.pump_configs]. *)
Module PumpConfig.
Record t : Type := {
  id : string;
  capacity_m3h : Q;
  power_kw : Q;
  efficiency : Q;
  age_years : Q;
  type : string
}.
End PumpConfig.

(** An entry of [active_pumps], for one pump at one hour. *)
Module Activation.
Record t : Type := {
  pump_id : string;
  flow_m3h : Q;
  power_kw : Q;
  status : on_off;
  leak_detected : bool
}.
End Activation.

(** The running totals of the loop over the pumps. *)
Module HourState.
Record t : Type := {
  active_pumps : list Activation.t;
  remaining_demand : Q;
  total_power : Q;
  total_flow : Q
}.
End HourState.

Inductive tariff_type : Type := offpeak_hours | peak_hours.

(** A row of the frame [generate_pump_data] returns. *)
Module DataRow.
Record t (T : Type) : Type := {
  timestamp : T;
  hour : Z;
  day_of_week : Z;
  pump_id : string;
  demand_m3h : Q;
  flow_m3h : Q;
  power_kw : Q;
  status : on_off;
  tariff_fcfa_kwh : Q;
  tariff_type : tariff_type;
  energy_cost_fcfa : Q;
  penalty_fcfa : Q;
  total_cost_fcfa : Q;
  total_power_kw : Q;
  subscribed_power_kw : Q;
  power_exceeded : bool;
  leak_detected : bool
}.
Arguments timestamp {T} _.
Arguments hour {T} _.
Arguments day_of_week {T} _.
Arguments pump_id {T} _.
Arguments demand_m3h {T} _.
Arguments flow_m3h {T} _.
Arguments power_kw {T} _.
Arguments status {T} _.
Arguments tariff_fcfa_kwh {T} _.
Arguments tariff_type {T} _.
Arguments energy_cost_fcfa {T} _.
Arguments penalty_fcfa {T} _.
Arguments total_cost_fcfa {T} _.
Arguments total_power_kw {T} _.
Arguments subscribed_power_kw {T} _.
Arguments power_exceeded {T} _.
Arguments leak_detected {T} _.
End DataRow.

(** The attributes of [AgriIrrigationDataGenerator]. *)
Module Gen.
Record t (T : Type) : Type := {
  start_date : T;
  days : Z;
  num_pumps : Z;
  hours_per_day : Z;
  tariff_peak : Q;
  tariff_offpeak : Q;
  subscribed_power : Q;
  penalty_rate : Q;
  solar_contribution : Q;
  pump_configs : list PumpConfig.t
}.
Arguments start_date {T} _.
Arguments days {T} _.
Arguments num_pumps {T} _.
Arguments hours_per_day {T} _.
Arguments tariff_peak {T} _.
Arguments tariff_offpeak {T} _.
Arguments subscribed_power {T} _.
Arguments penalty_rate {T} _.
Arguments solar_contribution {T} _.
Arguments pump_configs {T} _.
End Gen.

Section Generator.

Context {T R : Type} `{Calendar T} `{Random R}.

(** [__init__]: the tariff and the three pumps are fixed. *)
Definition generator_init (start_date : T) (days num_pumps : Z) : Gen.t T :=
  {| Gen.start_date := start_date;
     Gen.days := days;
     Gen.num_pumps := num_pumps;
     Gen.hours_per_day := 24;
     Gen.tariff_peak := 110;
     Gen.tariff_offpeak := 75;
     Gen.subscribed_power := 150;
     Gen.penalty_rate := 200;
     Gen.solar_contribution := 3 # 10;
     Gen.pump_configs :=
       [ {| PumpConfig.id := "P1"; PumpConfig.capacity_m3h := 60;
            PumpConfig.power_kw := 45; PumpConfig.efficiency := 75 # 100;
            PumpConfig.age_years := 5; PumpConfig.type := "principale" |};
         {| PumpConfig.id := "P2"; PumpConfig.capacity_m3h := 50;
            PumpConfig.power_kw := 38; PumpConfig.efficiency := 72 # 100;
            PumpConfig.age_years := 8; PumpConfig.type := "secondaire" |};
         {| PumpConfig.id := "P3"; PumpConfig.capacity_m3h := 55;
            PumpConfig.power_kw := 42; PumpConfig.efficiency := 73 # 100;
            PumpConfig.age_years := 3; PumpConfig.type := "appoint" |} ] |}.

Variable self : Gen.t T.

(** The demand of one hour before noise: the daily pattern, then the
    Sunday, season and crop-cycle factors. *)
Definition base_demand (ts : T) : Q :=
  let hour := ts_hour ts in
  let day_of_week := ts_weekday ts in
  let day_of_month := ts_day ts in
  let month := ts_month ts in
  let b0 : Q :=
    if ((5 <=? hour) && (hour <=? 8))%Z then 120
    else if ((18 <=? hour) && (hour <=? 21))%Z then 100
    else if ((11 <=? hour) && (hour <=? 15))%Z then 30
    else if ((22 <=? hour) || (hour <=? 4))%Z then 20
    else 50 in
  let b1 := if (day_of_week =? 6)%Z then b0 * (70 # 100) else b0 in
  let b2 :=
    if existsb (Z.eqb month) [11; 12; 1; 2; 3; 4]%Z then b1 * (135 # 100)
    else if existsb (Z.eqb month) [6; 7; 8; 9]%Z then b1 * (60 # 100)
    else if existsb (Z.eqb month) [5; 10]%Z then b1 * (85 # 100)
    else b1 in
  if existsb (Z.eqb (day_of_month mod 7)) [1; 2]%Z then b2 * (120 # 100) else b2.

(** One pass of the loop of [generate_demand_pattern]. *)
Definition demand_at (ts : T) : G R Q :=
  (let b := base_demand ts in
   noise <- draw (normal 0 (b * (12 # 100))) ;;
   gret (py_max 15 (b + noise)))%G.

Fixpoint gmap {A B} (f : A -> G R B) (xs : list A) : G R (list B) :=
  match xs with
  | [] => gret []
  | x :: xs' => (y <- f x ;; ys <- gmap f xs' ;; gret (y :: ys))%G
  end.

Definition generate_demand_pattern : G R (list T * list Q) :=
  (let hours := (Gen.days self * Gen.hours_per_day self)%Z in
   let timestamps := map (add_hours (Gen.start_date self)) (range hours) in
   demand <- gmap demand_at timestamps ;;
   gret (timestamps, demand))%G.

(** [calculate_pump_energy(flow, pump_config, hour_running)] *)
Definition calculate_pump_energy (flow : Q) (pump_config : PumpConfig.t)
    (hour_running : Z) : G R Q :=
  (ratio <- glift (py_truediv flow (PumpConfig.capacity_m3h pump_config)) ;;
   let theoretical_power := ratio * PumpConfig.power_kw pump_config in
   let efficiency := PumpConfig.efficiency pump_config in
   let age_factor := 1 + PumpConfig.age_years pump_config * (2 # 100) in
   operational_variance <- draw (uniform (95 # 100) (105 # 100)) ;;
   per_efficiency <- glift (py_truediv theoretical_power efficiency) ;;
   gret (per_efficiency * age_factor * operational_variance))%G.

Definition hour_start (dem : Q) : HourState.t :=
  {| HourState.active_pumps := [];
     HourState.remaining_demand := dem;
     HourState.total_power := 0;
     HourState.total_flow := 0 |}.

(** The body of [for pump in self.pump_configs]. *)
Definition activate (i : Z) (st : HourState.t) (pump : PumpConfig.t)
  : G R HourState.t :=
  if Qgt_bool (HourState.remaining_demand st) 0 then
    (let flow := py_min (PumpConfig.capacity_m3h pump)
                        (HourState.remaining_demand st) in
     power_used <- calculate_pump_energy flow pump (i mod 24) ;;
     u <- draw random ;;
     leak <- (if Qgt_bool (10 # 100) u
              then (leak_factor <- draw (uniform (108 # 100) (120 # 100)) ;;
                    gret (true, power_used * leak_factor))
              else gret (false, power_used)) ;;
     let power_used := snd leak in
     gret {| HourState.active_pumps :=
               HourState.active_pumps st ++
               [ {| Activation.pump_id := PumpConfig.id pump;
                    Activation.flow_m3h := flow;
                    Activation.power_kw := power_used;
                    Activation.status := ON;
                    Activation.leak_detected := fst leak |} ];
             HourState.remaining_demand := HourState.remaining_demand st - flow;
             HourState.total_power := HourState.total_power st + power_used;
             HourState.total_flow := HourState.total_flow st + flow |})%G
  else
    gret {| HourState.active_pumps :=
              HourState.active_pumps st ++
              [ {| Activation.pump_id := PumpConfig.id pump;
                   Activation.flow_m3h := 0;
                   Activation.power_kw := 0;
                   Activation.status := OFF;
                   Activation.leak_detected := false |} ];
            HourState.remaining_demand := HourState.remaining_demand st;
            HourState.total_power := HourState.total_power st;
            HourState.total_flow := HourState.total_flow st |}.

(** The rate of the generator: by hour of the day. *)
Definition baseline_tariff (hour : Z) : Q :=
  if ((hour <? 7) || (23 <=? hour))%Z
  then Gen.tariff_offpeak self else Gen.tariff_peak self.

(** The penalty of an hour that draws [total_power]. *)
Definition baseline_penalty (total_power : Q) : Q :=
  if Qgt_bool total_power (Gen.subscribed_power self)
  then (total_power - Gen.subscribed_power self) * Gen.penalty_rate self
  else 0.

Definition is_on (p : Activation.t) : bool :=
  match Activation.status p with ON => true | OFF => false end.

(** The row written for one pump of an hour. *)
Definition data_row (ts : T) (dem : Q) (st : HourState.t) (pump_data : Activation.t)
  : DataRow.t T :=
  let hour := ts_hour ts in
  let total_power := HourState.total_power st in
  let tariff := baseline_tariff hour in
  let penalty := baseline_penalty total_power in
  let num_active := List.length (filter is_on (HourState.active_pumps st)) in
  let share := penalty / inject_Z (Z.of_nat num_active) in
  let off_peak := ((hour <? 7) || (23 <=? hour))%Z in
  {| DataRow.timestamp := ts;
     DataRow.hour := hour;
     DataRow.day_of_week := ts_weekday ts;
     DataRow.pump_id := Activation.pump_id pump_data;
     DataRow.demand_m3h := dem;
     DataRow.flow_m3h := Activation.flow_m3h pump_data;
     DataRow.power_kw := Activation.power_kw pump_data;
     DataRow.status := Activation.status pump_data;
     DataRow.tariff_fcfa_kwh := tariff;
     DataRow.tariff_type := if off_peak then offpeak_hours else peak_hours;
     DataRow.energy_cost_fcfa := Activation.power_kw pump_data * tariff;
     DataRow.penalty_fcfa :=
       if (0 <? num_active)%nat && Qgt_bool penalty 0 then share else 0;
     DataRow.total_cost_fcfa :=
       Activation.power_kw pump_data * tariff
       + (if (0 <? num_active)%nat then share else 0);
     DataRow.total_power_kw := total_power;
     DataRow.subscribed_power_kw := Gen.subscribed_power self;
     DataRow.power_exceeded := Qgt_bool total_power (Gen.subscribed_power self);
     DataRow.leak_detected := Activation.leak_detected pump_data |}.

(** The body of the loop over the hours: the rows of hour [i]. *)
Definition hour_rows (i : Z) (ts : T) (dem : Q) : G R (list (DataRow.t T)) :=
  (st <- gfold (activate i) (Gen.pump_configs self) (hour_start dem) ;;
   gret (map (data_row ts dem st) (HourState.active_pumps st)))%G.

(** [for i, (ts, dem) in enumerate(zip(timestamps, demand))], from
    index [i]. *)
Fixpoint hours_from (i : Z) (tds : list (T * Q)) : G R (list (list (DataRow.t T))) :=
  match tds with
  | [] => gret []
  | (ts, dem) :: rest =>
      (rows <- hour_rows i ts dem ;;
       more <- hours_from (i + 1) rest ;;
       gret (rows :: more))%G
  end.

Definition generate_pump_data (timestamps : list T) (demand : list Q)
  : G R (list (DataRow.t T)) :=
  (blocks <- hours_from 0 (combine timestamps demand) ;;
   gret (List.concat blocks))%G.

End Generator.


(** A calendar and a random source for the examples: thirty-day months
    from a Monday at midnight, and draws that sit in the middle of
    their range. *)
#[local] Instance flat_calendar : Calendar Z := {|
  ts_hour := fun t => (t mod 24)%Z;
  ts_weekday := fun t => ((t / 24) mod 7)%Z;
  ts_day := fun t => (1 + (t / 24) mod 30)%Z;
  ts_month := fun t => (1 + (t / 720) mod 12)%Z;
  add_hours := Z.add
|}.

#[local] Instance steady : Random unit := {|
  normal := fun loc _ r => (loc, r);
  uniform := fun low high r => ((low + high) / 2, r);
  random := fun r => (1 # 2, r)
|}.

(** Notions for the statements about the generator. *)
Definition row_is_on {T} (row : DataRow.t T) : bool :=
  match DataRow.status row with ON => true | OFF => false end.

(** The tariff of the generator, as the optimizer takes it. *)
Definition tariff_of_generator {T} (g : Gen.t T) : tariff_config :=
  {| peak := Gen.tariff_peak g; offpeak := Gen.tariff_offpeak g;
     subscribed_power := Gen.subscribed_power g;
     penalty_rate := Gen.penalty_rate g |}.


(* ------------------------------------------------------------------ *)
(** * Names as PuLP keeps them

    PuLP rewrites the characters [-+[] ->/] of a name to [_] and refuses
    to add a second constraint under a name it already holds.  The
    constraints of a pump are named after its id, so the formulation
    goes through only for a fleet whose ids stay distinct once
    rewritten. *)

Definition pulp_char (c : ascii) : ascii :=
  if existsb (Ascii.eqb c) ["-"; "+"; "["; "]"; " "; ">"; "/"]%char
  then "_"%char else c.

Fixpoint pulp_name (s : string) : string :=
  match s with
  | EmptyString => EmptyString
  | String c s' => String (pulp_char c) (pulp_name s')
  end.

Definition distinct_names (self : IrrigationScheduleOptimizer) : Prop :=
  NoDup (map (fun p => pulp_name (id p)) (pumps self)).

(** Every pump leaves a trace in the problem of a one-hour horizon: a
    pump with neither capacity nor power would leave its variable out
    of every constraint, and the solver would return no value for it. *)
Definition every_pump_counts (self : IrrigationScheduleOptimizer) : Prop :=
  forall p, In p (pumps self) -> ~ capacity_m3h p == 0 \/ ~ power_kw p == 0.

(* ------------------------------------------------------------------ *)
(** * Further scenarios *)

Module Cases.

(** The three demo hours with P1 kept running through the idle hour:
    cheaper than restarting it. *)
Definition kept_running : assignment := fun v =>
  match v with
  | pump_status p t =>
      if String.eqb p "P1" then 1 else (if (t =? 2)%Z then 1 else 0)
  | total_power t => if (t =? 2)%Z then 83 else 45
  | penalty _ => 0
  | startup p t =>
      if String.eqb p "P1" then 0 else (if (t =? 2)%Z then 1 else 0)
  end.

(** One hour that needs both pumps and overruns the subscribed power. *)
Definition Q1 : pump := {| id := "P1"; capacity_m3h := 60; power_kw := 100 |}.
Definition Q2 : pump := {| id := "P2"; capacity_m3h := 50; power_kw := 90 |}.

Definition overrun : IrrigationScheduleOptimizer :=
  init [100] [Q1; Q2] Demo.tariffs.

Definition overrun_plan : assignment := fun v =>
  match v with
  | pump_status _ _ => 1
  | total_power _ => 190
  | penalty _ => 8000
  | startup _ _ => 0
  end.

(** Two hours for one large pump: nothing at hour 0, a demand at
    hour 1. *)
Definition late_start : IrrigationScheduleOptimizer :=
  init [0; 10] [Demo.big] Demo.tariffs.

Definition late_start_plan : assignment := fun v =>
  match v with
  | pump_status _ t => if (t =? 1)%Z then 1 else 0
  | total_power t => if (t =? 1)%Z then 100 else 0
  | penalty _ => 0
  | startup _ t => if (t =? 1)%Z then 1 else 0
  end.

(** A baseline that holds one record per hour, eight hours at a cost
    of 100 each. *)
Definition hourly_record : Baseline.row :=
  {| Baseline.total_cost_fcfa := 100; Baseline.power_kw := 10;
     Baseline.penalty_fcfa := 0 |}.
Definition hourly_baseline : list Baseline.row := repeat hourly_record 8.

(** Two pumps whose ids differ only by a character PuLP rewrites. *)
Definition clashing : IrrigationScheduleOptimizer :=
  init [0] [ {| id := "P 1"; capacity_m3h := 60; power_kw := 45 |};
             {| id := "P_1"; capacity_m3h := 50; power_kw := 38 |} ]
       Demo.tariffs.

End Cases.

(* ------------------------------------------------------------------ *)
(** * Ranges, indexing and loops *)

Lemma in_range (n t : Z) : In t (range n) <-> (0 <= t < n)%Z.
Proof.
  unfold range. rewrite in_map_iff. split.
  - intros (i & <- & Hi). apply in_seq in Hi. lia.
  - intros Ht. exists (Z.to_nat t). split; [lia |]. apply in_seq. lia.
Qed.

Lemma in_range_from (a b t : Z) : In t (range_from a b) <-> (a <= t < b)%Z.
Proof.
  unfold range_from. rewrite in_map_iff. split.
  - intros (i & <- & Hi). apply in_seq in Hi. lia.
  - intros Ht. exists (Z.to_nat (t - a)). split; [lia |]. apply in_seq. lia.
Qed.

Lemma length_range (n : Z) : List.length (range n) = Z.to_nat n.
Proof. unfold range. now rewrite length_map, length_seq. Qed.

Lemma NoDup_range (n : Z) : NoDup (range n).
Proof.
  unfold range. apply Injective_map_NoDup.
  - intros x y Hxy. lia.
  - apply seq_NoDup.
Qed.

Lemma nth_error_range (n : Z) (i : nat) (t : Z) :
  nth_error (range n) i = Some t -> t = Z.of_nat i.
Proof.
  unfold range. intros H.
  rewrite nth_error_map in H.
  destruct (nth_error (seq 0 (Z.to_nat n)) i) as [k |] eqn:E; [| discriminate].
  injection H as <-.
  assert (Hi : (i < List.length (seq 0 (Z.to_nat n)))%nat).
  { apply nth_error_Some. rewrite E. discriminate. }
  rewrite nth_error_nth' with (d := 0%nat) in E by exact Hi.
  rewrite length_seq in Hi.
  rewrite seq_nth in E by exact Hi. injection E as <-. reflexivity.
Qed.

Lemma getitem_in_bounds {A} (xs : list A) (t : Z) :
  (0 <= t < Z.of_nat (List.length xs))%Z ->
  exists x, getitem xs t = Return x /\ nth_error xs (Z.to_nat t) = Some x.
Proof.
  intros Ht. unfold getitem.
  destruct (Z.ltb_spec t 0); [lia |].
  destruct (Z.leb_spec 0 t); [| lia].
  destruct (Z.ltb_spec t (Z.of_nat (List.length xs))); [| lia]. cbn.
  destruct (nth_error xs (Z.to_nat t)) as [x |] eqn:E.
  - now exists x.
  - apply nth_error_None in E. lia.
Qed.

Lemma getitem_out_of_bounds {A} (xs : list A) (t : Z) :
  (Z.of_nat (List.length xs) <= t)%Z -> getitem xs t = Raise IndexError.
Proof.
  intros Ht. unfold getitem.
  destruct (Z.ltb_spec t 0); [lia |].
  destruct (Z.leb_spec 0 t); [| lia].
  destruct (Z.ltb_spec t (Z.of_nat (List.length xs))); [lia |]. reflexivity.
Qed.

Lemma getitem_exn {A} (xs : list A) (t : Z) (e : exn) :
  getitem xs t = Raise e -> e = IndexError.
Proof.
  unfold getitem.
  destruct ((0 <=? _) && _)%Z; [| congruence].
  destruct (nth_error _ _); congruence.
Qed.

Lemma mapM_Return {A B} (f : A -> result B) (xs : list A) (ys : list B) :
  mapM f xs = Return ys -> Forall2 (fun x y => f x = Return y) xs ys.
Proof.
  revert ys. induction xs as [| x xs IH]; cbn; intros ys H.
  - injection H as <-. constructor.
  - destruct (f x) as [y |] eqn:Ex; cbn in H; [| discriminate].
    destruct (mapM f xs) as [ys' |]; cbn in H; [| discriminate].
    injection H as <-. constructor; auto.
Qed.

Lemma mapM_total {A B} (f : A -> result B) (xs : list A) :
  (forall x, In x xs -> exists y, f x = Return y) ->
  exists ys, mapM f xs = Return ys.
Proof.
  induction xs as [| x xs IH]; cbn; intros H.
  - now exists [].
  - destruct (H x (or_introl eq_refl)) as (y & ->).
    destruct IH as (ys & ->); [intros; apply H; now right |].
    now exists (y :: ys).
Qed.

Lemma mapM_Raise {A B} (f : A -> result B) (xs : list A) (e : exn) :
  mapM f xs = Raise e -> exists x, In x xs /\ f x = Raise e.
Proof.
  induction xs as [| x xs IH]; cbn; [discriminate |].
  destruct (f x) as [y |] eqn:Ex; cbn.
  - destruct (mapM f xs) as [ys |]; cbn; [discriminate |].
    intros H. injection H as <-.
    destruct IH as (x' & Hin & Hx'); [reflexivity |]. exists x'. auto.
  - intros H. injection H as <-. exists x. auto.
Qed.

Lemma Forall2_In_l {A B} (R : A -> B -> Prop) (xs : list A) (ys : list B) (x : A) :
  Forall2 R xs ys -> In x xs -> exists y, In y ys /\ R x y.
Proof.
  induction 1 as [| x0 y0 xs ys Hxy _ IH]; cbn; [tauto |].
  intros [-> | Hin].
  - exists y0. auto.
  - destruct (IH Hin) as (y & ? & ?). exists y. auto.
Qed.

(* ------------------------------------------------------------------ *)
(** * Sums of rationals *)

Lemma Qsum_app (xs ys : list Q) : Qsum (xs ++ ys) == Qsum xs + Qsum ys.
Proof.
  induction xs as [| x xs IH]; cbn [Qsum map app].
  - ring.
  - rewrite IH. ring.
Qed.

Lemma Qsum_map_ext {A} (f g : A -> Q) (xs : list A) :
  (forall x, In x xs -> f x == g x) ->
  Qsum (map f xs) == Qsum (map g xs).
Proof.
  induction xs as [| x xs IH]; cbn [Qsum map]; intros H.
  - reflexivity.
  - rewrite (H x (or_introl eq_refl)), IH; [reflexivity |].
    intros; apply H; now right.
Qed.

Lemma Qsum_map_zero {A} (f : A -> Q) (xs : list A) :
  (forall x, In x xs -> f x == 0) -> Qsum (map f xs) == 0.
Proof.
  induction xs as [| x xs IH]; cbn [Qsum map]; intros H.
  - reflexivity.
  - rewrite (H x (or_introl eq_refl)), IH; [ring |].
    intros; apply H; now right.
Qed.

Lemma Qsum_map_plus {A} (f g : A -> Q) (xs : list A) :
  Qsum (map (fun x => f x + g x) xs) == Qsum (map f xs) + Qsum (map g xs).
Proof.
  induction xs as [| x xs IH]; cbn [Qsum map app].
  - ring.
  - rewrite IH. ring.
Qed.

(** A sum that picks one entry of a duplicate-free list. *)
Lemma Qsum_pick {A} (eq_dec : forall x y : A, {x = y} + {x <> y})
    (f : A -> Q) (xs : list A) (x0 : A) :
  NoDup xs -> In x0 xs ->
  Qsum (map (fun x => if eq_dec x x0 then f x else 0) xs) == f x0.
Proof.
  induction 1 as [| x xs Hnotin Hnd IH]; cbn [Qsum map In]; [tauto |].
  intros [-> | Hin].
  - destruct (eq_dec x0 x0); [| congruence].
    rewrite Qsum_map_zero; [ring |].
    intros y Hy. destruct (eq_dec y x0); [subst; tauto | reflexivity].
  - destruct (eq_dec x x0); [subst; tauto |].
    rewrite IH by exact Hin. ring.
Qed.

(* ------------------------------------------------------------------ *)
(** * Value and coefficients of expressions *)

Lemma value_of_var (a : assignment) (v : LpVariable) : value a (of_var v) == a v.
Proof. unfold value; cbn [Qsum map terms constant of_var of_const fst snd]. ring. Qed.

Lemma value_of_const (a : assignment) (c : Q) : value a (of_const c) == c.
Proof. unfold value; cbn [Qsum map terms constant of_var of_const fst snd]. ring. Qed.

Lemma value_add (a : assignment) (e1 e2 : LpAffineExpression) :
  value a (expr_add e1 e2) == value a e1 + value a e2.
Proof.
  unfold value; cbn [terms constant expr_add].
  rewrite map_app, Qsum_app. ring.
Qed.

Lemma value_scale (a : assignment) (c : Q) (e : LpAffineExpression) :
  value a (expr_scale c e) == c * value a e.
Proof.
  destruct e as [ts k]. unfold value; cbn [terms constant expr_scale].
  assert (H : Qsum (map (fun vk => snd vk * a (fst vk))
                        (map (fun vk => (fst vk, c * snd vk)) ts))
              == c * Qsum (map (fun vk => snd vk * a (fst vk)) ts)).
  { induction ts as [| [v q] ts IH]; cbn [Qsum map fst snd].
    - ring.
    - rewrite IH. ring. }
  rewrite H. ring.
Qed.

Lemma value_sub (a : assignment) (e1 e2 : LpAffineExpression) :
  value a (expr_sub e1 e2) == value a e1 - value a e2.
Proof. unfold expr_sub. rewrite value_add, value_scale. ring. Qed.

Lemma value_lpSum (a : assignment) (es : list LpAffineExpression) :
  value a (lpSum es) == Qsum (map (value a) es).
Proof.
  induction es as [| e es IH]; cbn [lpSum fold_right Qsum map].
  - apply value_of_const.
  - fold (lpSum es). rewrite value_add, IH. reflexivity.
Qed.

Lemma value_lpSum_map {A} (a : assignment) (f : A -> LpAffineExpression)
    (xs : list A) :
  value a (lpSum (map f xs)) == Qsum (map (fun x => value a (f x)) xs).
Proof. rewrite value_lpSum, map_map. reflexivity. Qed.

(** [lpSum([x[p] * w[p] for p in ps])] under an assignment. *)
Lemma value_weighted_sum {A} (a : assignment) (w : A -> Q) (x : A -> LpVariable)
    (xs : list A) :
  value a (lpSum (map (fun p => expr_scale (w p) (of_var (x p))) xs))
  == Qsum (map (fun p => a (x p) * w p) xs).
Proof.
  rewrite value_lpSum_map. apply Qsum_map_ext. intros p _.
  rewrite value_scale, value_of_var. ring.
Qed.

Lemma coefficient_add (e1 e2 : LpAffineExpression) (v : LpVariable) :
  coefficient (expr_add e1 e2) v == coefficient e1 v + coefficient e2 v.
Proof.
  unfold coefficient; cbn [terms expr_add].
  rewrite map_app, Qsum_app. reflexivity.
Qed.

Lemma coefficient_scale_var (c : Q) (w v : LpVariable) :
  coefficient (expr_scale c (of_var w)) v
  == if LpVariable_eq_dec w v then c else 0.
Proof.
  unfold coefficient; cbn [Qsum map terms expr_scale of_var fst snd].
  destruct (LpVariable_eq_dec w v); ring.
Qed.

Lemma coefficient_of_var (w v : LpVariable) :
  coefficient (of_var w) v == if LpVariable_eq_dec w v then 1 else 0.
Proof.
  unfold coefficient; cbn [Qsum map terms expr_scale of_var fst snd].
  destruct (LpVariable_eq_dec w v); ring.
Qed.

Lemma coefficient_lpSum (es : list LpAffineExpression) (v : LpVariable) :
  coefficient (lpSum es) v == Qsum (map (fun e => coefficient e v) es).
Proof.
  induction es as [| e es IH]; cbn [lpSum fold_right Qsum map].
  - reflexivity.
  - fold (lpSum es). rewrite coefficient_add, IH. reflexivity.
Qed.

(** Rewriting the value of a compound expression into arithmetic. *)
Create Rewrite HintDb lp_value.
#[local] Hint Rewrite value_add value_sub value_scale value_of_var value_of_const
  : lp_value.

(* ------------------------------------------------------------------ *)
(** * The formulated problem *)

Lemma satisfiedb_true (a : assignment) (c : LpConstraint) :
  satisfiedb a c = true <-> satisfied a c.
Proof.
  unfold satisfiedb, satisfied. destruct (rel c).
  - apply Qle_bool_iff.
  - apply Qle_bool_iff.
  - apply Qeq_bool_iff.
Qed.

Lemma in_domainb_true (v : LpVariable) (x : Q) :
  in_domainb v x = true <-> in_domain v x.
Proof.
  unfold in_domainb, in_domain. destruct (cat v).
  - rewrite orb_true_iff, !Qeq_bool_iff. reflexivity.
  - apply Qle_bool_iff.
Qed.

Lemma feasibleb_true (prob : LpProblem) (a : assignment) :
  feasibleb prob a = true <-> feasible prob a.
Proof.
  unfold feasibleb, feasible.
  rewrite andb_true_iff, !forallb_forall, !Forall_forall.
  split; intros [Hv Hc]; split; intros x Hx.
  - apply in_domainb_true; auto.
  - apply satisfiedb_true; auto.
  - apply in_domainb_true; auto.
  - apply satisfiedb_true; auto.
Qed.

Section FormulationFacts.

Variable self : IrrigationScheduleOptimizer.
Variable h : Z.

Lemma build_inv (prob : LpProblem) :
  build_optimization_problem self h = Return prob ->
  exists demand_cs,
    mapM (demand_constraint self) (range h) = Return demand_cs /\
    objective prob = lpSum (map (objective_term self) (range h)) /\
    constraints prob =
      demand_cs
      ++ map (power_constraint self) (range h)
      ++ map (penalty_constraint self) (range h)
      ++ flat_map (fun p => map (startup_constraint p) (range_from 1 h))
                  (pumps self)
      ++ map (max_startups_constraint h) (pumps self) /\
    variables prob = declared_variables self h.
Proof.
  unfold build_optimization_problem.
  destruct (mapM (demand_constraint self) (range h)) as [cs |]; cbn [rbind];
    [| discriminate].
  intros H. injection H as <-. exists cs. cbn. auto.
Qed.

Lemma build_total :
  (h <= Z.of_nat (List.length (demand self)))%Z ->
  exists prob, build_optimization_problem self h = Return prob.
Proof.
  intros Hh. unfold build_optimization_problem.
  destruct (mapM_total (demand_constraint self) (range h)) as (cs & ->).
  - intros t Ht. apply in_range in Ht. unfold demand_constraint.
    destruct (getitem_in_bounds (demand self) t) as (d & -> & _); [lia |].
    cbn [rbind]. eauto.
  - cbn [rbind]. eauto.
Qed.

Lemma build_Raise (e : exn) :
  build_optimization_problem self h = Raise e ->
  e = IndexError /\ (Z.of_nat (List.length (demand self)) < h)%Z.
Proof.
  intros H. split.
  - unfold build_optimization_problem in H.
    destruct (mapM (demand_constraint self) (range h)) as [cs |] eqn:E;
      cbn [rbind] in H; [discriminate |].
    injection H as <-. apply mapM_Raise in E as (t & _ & Ht).
    unfold demand_constraint in Ht.
    destruct (getitem (demand self) t) eqn:G; cbn [rbind] in Ht; [discriminate |].
    injection Ht as <-. eapply getitem_exn; eauto.
  - destruct (Z.ltb_spec (Z.of_nat (List.length (demand self))) h); [assumption |].
    destruct build_total as (prob & Hp); [assumption | congruence].
Qed.

(** Membership of each family of constraints. *)
Lemma demand_constraint_in (prob : LpProblem) (t : Z) :
  build_optimization_problem self h = Return prob ->
  (0 <= t < h)%Z ->
  exists c, demand_constraint self t = Return c /\ In c (constraints prob).
Proof.
  intros Hb Ht. destruct (build_inv _ Hb) as (cs & Hcs & _ & -> & _).
  apply mapM_Return in Hcs.
  destruct (Forall2_In_l _ _ _ t Hcs) as (c & Hin & Hc).
  - now apply in_range.
  - exists c. split; [assumption |]. apply in_or_app. now left.
Qed.

Lemma power_constraint_in (prob : LpProblem) (t : Z) :
  build_optimization_problem self h = Return prob ->
  (0 <= t < h)%Z ->
  In (power_constraint self t) (constraints prob).
Proof.
  intros Hb Ht. destruct (build_inv _ Hb) as (cs & _ & _ & -> & _).
  apply in_or_app; right. apply in_or_app; left.
  apply in_map. now apply in_range.
Qed.

Lemma penalty_constraint_in (prob : LpProblem) (t : Z) :
  build_optimization_problem self h = Return prob ->
  (0 <= t < h)%Z ->
  In (penalty_constraint self t) (constraints prob).
Proof.
  intros Hb Ht. destruct (build_inv _ Hb) as (cs & _ & _ & -> & _).
  apply in_or_app; right. apply in_or_app; right. apply in_or_app; left.
  apply in_map. now apply in_range.
Qed.

Lemma startup_constraint_in (prob : LpProblem) (p : pump) (t : Z) :
  build_optimization_problem self h = Return prob ->
  In p (pumps self) -> (1 <= t < h)%Z ->
  In (startup_constraint p t) (constraints prob).
Proof.
  intros Hb Hp Ht. destruct (build_inv _ Hb) as (cs & _ & _ & -> & _).
  do 3 (apply in_or_app; right). apply in_or_app; left.
  apply in_flat_map. exists p. split; [assumption |].
  apply in_map. now apply in_range_from.
Qed.

Lemma max_startups_constraint_in (prob : LpProblem) (p : pump) :
  build_optimization_problem self h = Return prob ->
  In p (pumps self) ->
  In (max_startups_constraint h p) (constraints prob).
Proof.
  intros Hb Hp. destruct (build_inv _ Hb) as (cs & _ & _ & -> & _).
  do 4 (apply in_or_app; right). now apply in_map.
Qed.

Lemma penalty_declared (prob : LpProblem) (t : Z) :
  build_optimization_problem self h = Return prob ->
  (0 <= t < h)%Z ->
  In (penalty t) (variables prob).
Proof.
  intros Hb Ht. destruct (build_inv _ Hb) as (cs & _ & _ & _ & ->).
  unfold declared_variables.
  apply in_or_app; right. apply in_or_app; right. apply in_or_app; left.
  apply in_map. now apply in_range.
Qed.

(** The value of the objective under an assignment. *)
Lemma objective_value (prob : LpProblem) (a : assignment) :
  build_optimization_problem self h = Return prob ->
  value a (objective prob)
  == objective_formula (tariff self) 5000 (pumps self) h a.
Proof.
  intros Hb. destruct (build_inv _ Hb) as (cs & _ & -> & _).
  unfold objective_formula. rewrite value_lpSum_map.
  apply Qsum_map_ext. intros t _. unfold objective_term.
  rewrite !value_add, value_scale, !value_of_var.
  rewrite (value_weighted_sum a (fun _ => 5000) (fun p => startup (id p) t)).
  ring.
Qed.

End FormulationFacts.

Lemma feasible_satisfied (prob : LpProblem) (a : assignment) (c : LpConstraint) :
  feasible prob a -> In c (constraints prob) -> satisfied a c.
Proof. intros [_ H] Hin. rewrite Forall_forall in H. auto. Qed.

Lemma feasible_in_domain (prob : LpProblem) (a : assignment) (v : LpVariable) :
  feasible prob a -> In v (variables prob) -> in_domain v (a v).
Proof. intros [H _] Hin. rewrite Forall_forall in H. auto. Qed.

(** What a feasible assignment says about a constraint of the problem:
    the constraint is unfolded into an inequality between values. *)
Ltac constraint_holds Hf Hin Hs :=
  pose proof (feasible_satisfied _ _ _ Hf Hin) as Hs;
  unfold satisfied in Hs;
  cbn [rel lhs rhs power_constraint penalty_constraint startup_constraint
       max_startups_constraint] in Hs;
  autorewrite with lp_value in Hs.

(** C1. Every assignment that satisfies the problem built for a horizon
    satisfies, at every hour [t] of that horizon: demand coverage
    [sum_p active[p,t]*capacity[p] >= demand[t]]; power accounting
    [total_power[t] = sum_p active[p,t]*power_draw[p]]; the two penalty
    bounds [penalty[t] >= penalty_rate*(total_power[t] - subscribed_power)]
    and [penalty[t] >= 0]; and, for [t > 0], start-up detection
    [startup[p,t] >= active[p,t] - active[p,t-1]] for every pump. *)
Theorem constraints_imply_invariants
    (self : IrrigationScheduleOptimizer) (h : Z) (prob : LpProblem)
    (a : assignment) :
  build_optimization_problem self h = Return prob ->
  feasible prob a ->
  forall t, (0 <= t < h)%Z -> hourly_invariants self a t.
Proof.
  intros Hb Hf t Ht. unfold hourly_invariants. repeat split.
  - destruct (demand_constraint_in self h prob t Hb Ht) as (c & Hc & Hin).
    unfold demand_constraint in Hc.
    destruct (getitem (demand self) t) as [d |]; cbn [rbind] in Hc; [| discriminate].
    injection Hc as <-. exists d. split; [reflexivity |].
    constraint_holds Hf Hin Hs.
    rewrite (value_weighted_sum a capacity_m3h (fun p => pump_status (id p) t)) in Hs.
    exact Hs.
  - constraint_holds Hf (power_constraint_in self h prob t Hb Ht) Hs.
    rewrite (value_weighted_sum a power_kw (fun p => pump_status (id p) t)) in Hs.
    exact Hs.
  - constraint_holds Hf (penalty_constraint_in self h prob t Hb Ht) Hs.
    exact Hs.
  - exact (feasible_in_domain _ _ _ Hf (penalty_declared self h prob t Hb Ht)).
  - intros Ht0 p Hp.
    assert (Hin : In (startup_constraint p t) (constraints prob)).
    { apply (startup_constraint_in self h); [assumption | assumption | lia]. }
    constraint_holds Hf Hin Hs.
    exact Hs.
Qed.

Lemma constraints_imply_invariants_witness :
  exists prob,
    build_optimization_problem Demo.optimizer 3 = Return prob /\
    feasible prob Demo.plan /\
    (0 <= 2 < 3)%Z /\
    hourly_invariants Demo.optimizer Demo.plan 2.
Proof.
  eexists. split; [vm_compute; reflexivity |].
  split; [apply feasibleb_true; vm_compute; reflexivity |].
  split; [lia |].
  eapply (constraints_imply_invariants Demo.optimizer 3 _ Demo.plan).
  - vm_compute; reflexivity.
  - apply feasibleb_true; vm_compute; reflexivity.
  - lia.
Defined.

(* ------------------------------------------------------------------ *)
(** * The pipeline, step by step *)

Lemma Forall2_nth_error_r {A B} (R : A -> B -> Prop) (xs : list A) (ys : list B)
    (i : nat) (y : B) :
  Forall2 R xs ys -> nth_error ys i = Some y ->
  exists x, nth_error xs i = Some x /\ R x y.
Proof.
  intros H. revert i. induction H as [| x0 y0 xs ys Hxy _ IH]; intros [| i]; cbn;
    try discriminate.
  - intros E. injection E as <-. eauto.
  - apply IH.
Qed.

Section PipelineFacts.

Variable solve : LpProblem -> SolverAnswer.
Variable self : IrrigationScheduleOptimizer.

Lemma effective_horizon_le (h : Z) :
  (effective_horizon self h <= Z.of_nat (List.length (demand self)))%Z.
Proof.
  unfold effective_horizon.
  destruct (Z.ltb_spec (Z.of_nat (List.length (demand self))) h); lia.
Qed.

Lemma build_effective (h : Z) :
  exists prob,
    build_optimization_problem self (effective_horizon self h) = Return prob.
Proof. apply build_total, effective_horizon_le. Qed.

(** The loop never fails on hours the forecast covers, and appends
    one row per hour. *)
Lemma foldM_extract (ans : SolverAnswer) (ts : list Z) (acc0 : extraction) :
  (forall t, In t ts -> (0 <= t < Z.of_nat (List.length (demand self)))%Z) ->
  exists acc rows',
    foldM (extract_hour self ans) ts acc0 = Return acc /\
    rows acc = rows acc0 ++ rows' /\
    Forall2 (fun t row => exists d, row = hour_row self ans t d) ts rows'.
Proof.
  revert acc0. induction ts as [| t ts IH]; intros acc0 Hts; cbn [foldM].
  - exists acc0, []. rewrite app_nil_r. repeat split; constructor.
  - unfold extract_hour at 1.
    destruct (getitem_in_bounds (demand self) t) as (d & -> & _).
    { apply Hts. now left. }
    cbn [rbind].
    edestruct IH as (acc & rows' & -> & Hrows & HF).
    { intros; apply Hts; now right. }
    exists acc, (hour_row self ans t d :: rows'). split; [reflexivity |].
    split.
    + rewrite Hrows. cbn [rows]. now rewrite <- app_assoc.
    + constructor; eauto.
Qed.

Lemma extract_total (ans : SolverAnswer) (H : Z) :
  (H <= Z.of_nat (List.length (demand self)))%Z ->
  exists acc,
    extract_schedule self ans H = Return acc /\
    List.length (rows acc) = Z.to_nat H /\
    forall i row, nth_error (rows acc) i = Some row ->
      hour row = Z.of_nat i /\
      tariff_fcfa_kwh row = tariff_at (tariff self) (Z.of_nat i).
Proof.
  intros HH. unfold extract_schedule.
  destruct (foldM_extract ans (range H) extraction_start)
    as (acc & rows' & -> & Hrows & HF).
  { intros t Ht. apply in_range in Ht. lia. }
  cbn [rows extraction_start app] in Hrows.
  exists acc. split; [reflexivity |]. rewrite Hrows. split.
  - rewrite <- (Forall2_length HF). apply length_range.
  - intros i row Hi.
    destruct (Forall2_nth_error_r _ _ _ _ _ HF Hi) as (t & Ht & d & ->).
    apply nth_error_range in Ht. subst t. split; reflexivity.
Qed.

(** The whole of [optimize_schedule], case by case. *)
Lemma optimize_schedule_run (h : Z) :
  optimize_schedule solve h self =
  let H := effective_horizon self h in
  let w := truncation_warning self h in
  match build_optimization_problem self H with
  | Raise e => (w, self, Raise e)
  | Return prob =>
      let ans := solve prob in
      if String.eqb (lp_status ans) "Optimal" then
        match extract_schedule self ans H with
        | Raise e => (w ++ [solve_call prob], self, Raise e)
        | Return acc =>
            let sol := solution_of acc (lp_status ans) (elapsed ans) in
            (w ++ [solve_call prob], with_solution self sol,
             if Qeq_bool (total_cost_optimized acc) 0
             then Raise ZeroDivisionError else Return (Some sol))
        end
      else (w ++ [solve_call prob], self, Return None)
  end.
Proof.
  unfold optimize_schedule, effective_horizon, truncation_warning,
    extract_schedule, call_solver, bind, get_self, lift, emit, ret,
    set_solution, py_truediv.
  destruct (Z.of_nat (List.length (demand self)) <? h)%Z;
    cbn [fst snd app];
    (destruct (build_optimization_problem self _) as [prob |]; [| reflexivity]);
    cbn [fst snd app];
    (destruct (String.eqb (lp_status (solve prob)) "Optimal");
       cbn [negb fst snd app]; [| reflexivity]);
    (destruct (foldM _ _ _) as [acc |]; [| reflexivity]);
    cbn [fst snd app];
    destruct (Qeq_bool (total_cost_optimized acc) 0); reflexivity.
Qed.

End PipelineFacts.

(* ------------------------------------------------------------------ *)
(** * Names that do not clash *)

(** Ids that stay distinct once rewritten were distinct to begin with. *)
Lemma distinct_names_ids (self : IrrigationScheduleOptimizer) :
  distinct_names self -> NoDup (map id (pumps self)).
Proof.
  unfold distinct_names. rewrite <- (map_map id pulp_name).
  apply NoDup_map_inv.
Qed.

Lemma no_pump_no_clash (self : IrrigationScheduleOptimizer) :
  pumps self = [] -> distinct_names self.
Proof. intros Hp. unfold distinct_names. rewrite Hp. constructor. Qed.

Lemma demo_names_distinct : distinct_names Demo.optimizer.
Proof.
  unfold distinct_names. cbn.
  repeat constructor; cbn; intuition discriminate.
Qed.

(** The converse fails: ["P 1"] and ["P_1"] are two ids and one name. *)
Lemma clashing_names :
  NoDup (map id (pumps Cases.clashing)) /\ ~ distinct_names Cases.clashing.
Proof.
  split.
  - cbn. repeat constructor; cbn; intuition discriminate.
  - unfold distinct_names. cbn. intros Hn. inversion Hn as [| ? ? Hnot _].
    apply Hnot. left. reflexivity.
Qed.

(* ------------------------------------------------------------------ *)
(** * Solver status and the returned schedule *)

(** A fleet without a pump cannot deliver a positive demand: the
    problem formulated for [Demo.no_pumps] has no feasible plan. *)
Lemma no_pumps_infeasible (prob : LpProblem) (a : assignment) :
  build_optimization_problem Demo.no_pumps 1 = Return prob ->
  ~ feasible prob a.
Proof.
  intros Hb Hf.
  destruct (demand_constraint_in Demo.no_pumps 1 prob 0 Hb) as (c & Hc & Hin);
    [lia |].
  pose proof (feasible_satisfied _ _ _ Hf Hin) as Hs.
  vm_compute in Hc. injection Hc as <-.
  vm_compute in Hs. apply Hs. reflexivity.
Qed.

(** The plan [Cases.kept_running] satisfies the three-hour demo
    problem and costs less than [Demo.plan]. *)
Lemma kept_running_is_cheaper (prob : LpProblem) :
  build_optimization_problem Demo.optimizer 3 = Return prob ->
  feasible prob Cases.kept_running /\
  value Cases.kept_running (objective prob)
    < value Demo.plan (objective prob).
Proof.
  intros Hb. vm_compute in Hb. injection Hb as <-. split.
  - apply feasibleb_true. vm_compute. reflexivity.
  - vm_compute. reflexivity.
Qed.

(** C2, as stated, fails: a failure carries no tag.  For the fleet
    without a pump and a demand of 10 the problem has no feasible plan;
    under PuLP's status "Infeasible" the run hands the problem to the
    solver and returns the bare [None], leaving the object as it was:
    nothing that is returned or stored names the status or a reason. *)
Lemma failure_is_a_bare_None :
  exists prob,
    build_optimization_problem Demo.no_pumps 1 = Return prob
    /\ (forall a, ~ feasible prob a)
    /\ optimize_schedule (Demo.solver_with "Infeasible") 1 Demo.no_pumps
       = ([solve_call prob], Demo.no_pumps, Return None)
    /\ solution Demo.no_pumps = None.
Proof.
  destruct (build_optimization_problem Demo.no_pumps 1) as [prob | e] eqn:Hb;
    [| vm_compute in Hb; discriminate].
  exists prob. split; [reflexivity |]. split.
  - intros a. apply no_pumps_infeasible. exact Hb.
  - rewrite optimize_schedule_run. cbv zeta.
    change (effective_horizon Demo.no_pumps 1) with 1%Z.
    rewrite Hb. split; reflexivity.
Qed.

(** C2, amended.  For a fleet whose names do not clash, the pipeline
    returns a schedule only under PuLP's status "Optimal", the status
    under which PuLP also hands over the incumbent of a search stopped
    by the time limit.  Under any other status it returns the bare
    [None] and leaves the object as it was.  A schedule that is returned
    has one row for each hour of the effective horizon, carries the
    status "Optimal" and is the one stored in [self.solution].  Under
    "Optimal", whatever plan the solver hands over, proven optimal or
    not, is returned as the schedule when every pump has a capacity or
    a power and the total cost is not zero. *)
Theorem schedule_only_on_Optimal
    (solve : LpProblem -> SolverAnswer) (self : IrrigationScheduleOptimizer)
    (h : Z) (prob : LpProblem) :
  distinct_names self ->
  build_optimization_problem self (effective_horizon self h) = Return prob ->
  let ans := solve prob in
  let run := optimize_schedule solve h self in
  (lp_status ans <> "Optimal"%string ->
     result_of run = Return None /\ state_of run = self)
  /\ (forall sol, result_of run = Return (Some sol) ->
        lp_status ans = "Optimal"%string /\ status sol = "Optimal"%string /\
        List.length (schedule sol) = Z.to_nat (effective_horizon self h) /\
        solution (state_of run) = Some sol)
  /\ (lp_status ans = "Optimal"%string ->
      every_pump_counts self ->
      forall acc,
        extract_schedule self ans (effective_horizon self h) = Return acc ->
        ~ total_cost_optimized acc == 0 ->
        result_of run = Return (Some (solution_of acc "Optimal" (elapsed ans)))).
Proof.
  intros _ Hb ans run. subst run. rewrite optimize_schedule_run. cbv zeta.
  rewrite Hb. fold ans.
  destruct (extract_total self ans (effective_horizon self h))
    as (acc & Hacc & Hlen & _); [apply effective_horizon_le |].
  rewrite Hacc.
  destruct (String.eqb_spec (lp_status ans) "Optimal") as [Hst | Hst].
  - split; [intros Hne; contradiction |]. split.
    + intros sol Hsol.
      destruct (Qeq_bool (total_cost_optimized acc) 0); cbn in Hsol; [discriminate |].
      injection Hsol as <-. cbn. rewrite Hst. auto.
    + intros _ _ acc' Hacc' Hcost. injection Hacc' as <-.
      destruct (Qeq_bool (total_cost_optimized acc) 0) eqn:E.
      * apply Qeq_bool_iff in E. contradiction.
      * cbn. now rewrite Hst.
  - split; [intros _; split; reflexivity |]. split.
    + intros sol Hsol. cbn in Hsol. discriminate.
    + intros Hopt. contradiction.
Qed.

(** The three demo hours, with a solver that hands over [Demo.plan]
    under the status "Optimal": the plan is feasible but not optimal
    ([Cases.kept_running] is cheaper), and it is returned as the
    schedule, three rows long. *)
Lemma schedule_only_on_Optimal_witness :
  exists prob sol,
    distinct_names Demo.optimizer /\
    build_optimization_problem Demo.optimizer (effective_horizon Demo.optimizer 3)
      = Return prob /\
    every_pump_counts Demo.optimizer /\
    feasible prob Demo.plan /\
    ~ optimal prob Demo.plan /\
    result_of (optimize_schedule (Demo.solver_with "Optimal") 3 Demo.optimizer)
      = Return (Some sol) /\
    status sol = "Optimal"%string /\
    List.length (schedule sol) = 3%nat /\
    solution (state_of (optimize_schedule (Demo.solver_with "Optimal") 3
                          Demo.optimizer)) = Some sol.
Proof.
  assert (Hd : distinct_names Demo.optimizer).
  { unfold distinct_names. cbn.
    repeat constructor; cbn; intuition discriminate. }
  assert (Hc : every_pump_counts Demo.optimizer).
  { intros p [<- | [<- | []]]; left; intros E; vm_compute in E; discriminate. }
  destruct (build_optimization_problem Demo.optimizer
              (effective_horizon Demo.optimizer 3)) as [prob | e] eqn:Hb;
    [| vm_compute in Hb; discriminate].
  destruct (kept_running_is_cheaper prob Hb) as (Hfk & Hlt).
  destruct (schedule_only_on_Optimal (Demo.solver_with "Optimal") Demo.optimizer 3
              prob Hd Hb) as (_ & Hsome & Hgiven).
  destruct (extract_schedule Demo.optimizer (Demo.solver_with "Optimal" prob)
              (effective_horizon Demo.optimizer 3)) as [acc | e] eqn:Hacc;
    [| vm_compute in Hacc; discriminate].
  assert (Hcost : ~ total_cost_optimized acc == 0).
  { vm_compute in Hacc. injection Hacc as <-. intros E. vm_compute in E.
    discriminate. }
  pose proof (Hgiven eq_refl Hc acc eq_refl Hcost) as Hrun.
  destruct (Hsome _ Hrun) as (_ & Hstatus & Hlen & Hstored).
  exists prob, (solution_of acc "Optimal" (elapsed (Demo.solver_with "Optimal" prob))).
  split; [exact Hd |]. split; [reflexivity |]. split; [exact Hc |].
  split.
  { vm_compute in Hb. injection Hb as <-. apply feasibleb_true.
    vm_compute. reflexivity. }
  split.
  { intros (_ & Hmin). specialize (Hmin _ Hfk). apply Qle_not_lt in Hmin.
    apply Hmin. exact Hlt. }
  split; [exact Hrun |]. split; [exact Hstatus |]. split; [exact Hlen |].
  exact Hstored.
Defined.

(* ------------------------------------------------------------------ *)
(** * Requests with no pump or no hour *)

(** C4, as stated, fails: with an empty fleet, and with a horizon of
    zero or of minus three hours, a problem is formulated and handed
    to the solver; what comes back is the solver's verdict, or the
    failure of the summary line, not a validation error. *)
Lemma invalid_requests_reach_the_solver :
  (exists prob,
     trace_of (optimize_schedule (Demo.solver_with "Infeasible") 1 Demo.no_pumps)
     = [solve_call prob])
  /\ result_of (optimize_schedule (Demo.solver_with "Infeasible") 1 Demo.no_pumps)
     = Return None
  /\ (exists prob,
        trace_of (optimize_schedule Demo.idle_solver 0 Demo.optimizer)
        = [solve_call prob])
  /\ (exists prob,
        trace_of (optimize_schedule Demo.idle_solver (-3) Demo.optimizer)
        = [solve_call prob]).
Proof.
  repeat split; try (eexists; vm_compute; reflexivity); vm_compute; reflexivity.
Qed.

(** C4, amended.  A request with an empty pump list or with a zero or
    negative horizon is not rejected: for a fleet whose names do not
    clash, the pipeline formulates the problem for the effective horizon
    and submits it to the solver, and returns [None] whenever the
    solver's status is not "Optimal".  For a non-positive horizon the
    problem has no variable and the constant objective 0; for an empty
    fleet it has no pump variable. *)
Theorem no_input_validation
    (solve : LpProblem -> SolverAnswer) (self : IrrigationScheduleOptimizer)
    (h : Z) :
  distinct_names self ->
  pumps self = [] \/ (h <= 0)%Z ->
  exists prob,
    build_optimization_problem self (effective_horizon self h) = Return prob /\
    trace_of (optimize_schedule solve h self)
      = truncation_warning self h ++ [solve_call prob] /\
    (lp_status (solve prob) <> "Optimal"%string ->
       result_of (optimize_schedule solve h self) = Return None) /\
    ((h <= 0)%Z -> variables prob = [] /\ objective prob = of_const 0) /\
    (pumps self = [] ->
       forall p t, ~ In (pump_status p t) (variables prob) /\
                   ~ In (startup p t) (variables prob)).
Proof.
  intros _ _.
  destruct (build_effective self h) as (prob & Hb). exists prob.
  split; [assumption |].
  rewrite optimize_schedule_run. cbv zeta. rewrite Hb.
  destruct (extract_total self (solve prob) (effective_horizon self h))
    as (acc & Hacc & _); [apply effective_horizon_le |].
  rewrite Hacc. split; [| split; [| split]].
  - destruct (String.eqb _ _); reflexivity.
  - intros Hst. apply String.eqb_neq in Hst. rewrite Hst. reflexivity.
  - intros Hh. destruct (build_inv _ _ _ Hb) as (cs & _ & Hobj & _ & Hvars).
    assert (Hr : range (effective_horizon self h) = []).
    { unfold effective_horizon, range.
      destruct (Z.ltb_spec (Z.of_nat (List.length (demand self))) h); [lia |].
      replace (Z.to_nat h) with 0%nat by lia. reflexivity. }
    rewrite Hvars, Hobj. unfold declared_variables. rewrite Hr.
    split; [| reflexivity].
    assert (Hnil : forall f : string -> Z -> LpVariable,
               flat_map (fun p => map (f (id p)) []) (pumps self) = []).
    { intros f. induction (pumps self) as [| q qs IH]; [reflexivity | exact IH]. }
    rewrite (Hnil pump_status), (Hnil startup).
    reflexivity.
  - intros Hp p t. destruct (build_inv _ _ _ Hb) as (cs & _ & _ & _ & Hvars).
    rewrite Hvars. unfold declared_variables. rewrite Hp. cbn [flat_map app].
    rewrite app_nil_r. split; intros Hin; apply in_app_or in Hin as [Hin | Hin];
      apply in_map_iff in Hin as (t' & Ht' & _); discriminate.
Qed.

Lemma no_input_validation_witness :
  distinct_names Demo.no_pumps /\
  (pumps Demo.no_pumps = [] \/ (1 <= 0)%Z) /\
  (exists prob,
     build_optimization_problem Demo.no_pumps (effective_horizon Demo.no_pumps 1)
       = Return prob /\
     trace_of (optimize_schedule (Demo.solver_with "Infeasible") 1 Demo.no_pumps)
       = truncation_warning Demo.no_pumps 1 ++ [solve_call prob] /\
     result_of (optimize_schedule (Demo.solver_with "Infeasible") 1 Demo.no_pumps)
       = Return None) /\
  distinct_names Demo.optimizer /\
  exists prob,
    trace_of (optimize_schedule Demo.idle_solver 0 Demo.optimizer)
      = [solve_call prob] /\
    variables prob = [].
Proof.
  split; [apply no_pump_no_clash; reflexivity |].
  split; [left; reflexivity |]. split.
  - destruct (no_input_validation (Demo.solver_with "Infeasible") Demo.no_pumps 1)
      as (prob & Hb & Htr & Hnone & _);
      [apply no_pump_no_clash; reflexivity | left; reflexivity |].
    exists prob. split; [assumption |]. split; [assumption |].
    apply Hnone. cbn. discriminate.
  - split; [exact demo_names_distinct |].
    destruct (no_input_validation Demo.idle_solver Demo.optimizer 0
                demo_names_distinct)
      as (prob & Hb & Htr & _ & Hempty & _); [right; lia |].
    exists prob. split; [exact Htr |]. apply Hempty. lia.
Defined.

(* ------------------------------------------------------------------ *)
(** * Truncation to the forecast *)

(** C7. When the forecast is shorter than the requested horizon, the
    pipeline (for a fleet whose names do not clash) warns, formulates
    for [len(demand)] hours without raising, and a schedule it returns
    has exactly [len(demand)] rows. *)
Theorem truncation_law
    (solve : LpProblem -> SolverAnswer) (self : IrrigationScheduleOptimizer)
    (h : Z) :
  distinct_names self ->
  (Z.of_nat (List.length (demand self)) < h)%Z ->
  let n := List.length (demand self) in
  let run := optimize_schedule solve h self in
  effective_horizon self h = Z.of_nat n /\
  exists prob,
    build_optimization_problem self (Z.of_nat n) = Return prob /\
    trace_of run = [warn_short_demand n; solve_call prob] /\
    result_of run <> Raise IndexError /\
    forall sol, result_of run = Return (Some sol) ->
      List.length (schedule sol) = n.
Proof.
  intros _ Hlt n run.
  assert (HH : effective_horizon self h = Z.of_nat n).
  { unfold effective_horizon. apply Z.ltb_lt in Hlt. now rewrite Hlt. }
  split; [exact HH |].
  destruct (build_effective self h) as (prob & Hb). rewrite HH in Hb.
  exists prob. split; [exact Hb |].
  subst run. rewrite optimize_schedule_run. cbv zeta. rewrite HH, Hb.
  destruct (extract_total self (solve prob) (Z.of_nat n))
    as (acc & Hacc & Hlen & _); [subst n; lia |].
  rewrite Hacc.
  assert (Hw : truncation_warning self h = [warn_short_demand n]).
  { unfold truncation_warning. apply Z.ltb_lt in Hlt. now rewrite Hlt. }
  rewrite Hw.
  destruct (String.eqb _ _); [destruct (Qeq_bool _ _) |]; cbn;
    (split; [reflexivity |]); (split; [discriminate |]);
    intros sol Hsol; try discriminate.
  injection Hsol as <-. cbn. rewrite Hlen. lia.
Qed.

Lemma truncation_law_witness :
  distinct_names Demo.optimizer /\
  (Z.of_nat (List.length (demand Demo.optimizer)) < 5)%Z /\
  effective_horizon Demo.optimizer 5 = 3%Z /\
  (exists prob,
     trace_of (optimize_schedule (Demo.solver_with "Optimal") 5 Demo.optimizer)
     = [warn_short_demand 3; solve_call prob]) /\
  exists sol,
    result_of (optimize_schedule (Demo.solver_with "Optimal") 5 Demo.optimizer)
      = Return (Some sol) /\
    List.length (schedule sol) = List.length (demand Demo.optimizer).
Proof.
  split; [exact demo_names_distinct |].
  split; [vm_compute; reflexivity |].
  destruct (truncation_law (Demo.solver_with "Optimal") Demo.optimizer 5
              demo_names_distinct)
    as (Heff & prob & _ & Htr & _ & Hlen); [vm_compute; reflexivity |].
  split; [exact Heff |]. split; [exists prob; exact Htr |].
  eexists. split; [vm_compute; reflexivity |].
  apply Hlen. vm_compute; reflexivity.
Defined.

(* ------------------------------------------------------------------ *)
(** * The rate applied to an hour *)

Lemma tariff_at_peak (tc : tariff_config) (t : Z) :
  (7 <= t <= 22)%Z -> tariff_at tc t = peak tc.
Proof.
  intros Ht. unfold tariff_at.
  destruct (Z.leb_spec 7 t); [| lia]. destruct (Z.ltb_spec t 23); [| lia].
  reflexivity.
Qed.

Lemma tariff_at_offpeak (tc : tariff_config) (t : Z) :
  (t < 7 \/ 22 < t)%Z -> tariff_at tc t = offpeak tc.
Proof.
  intros Ht. unfold tariff_at.
  destruct (Z.leb_spec 7 t); destruct (Z.ltb_spec t 23); try reflexivity; lia.
Qed.

Lemma coefficient_objective_term (self : IrrigationScheduleOptimizer) (t' t : Z) :
  coefficient (objective_term self t') (total_power t)
  == if Z.eq_dec t' t then tariff_at (tariff self) t' else 0.
Proof.
  unfold objective_term.
  rewrite !coefficient_add, coefficient_scale_var, coefficient_of_var,
    coefficient_lpSum, map_map.
  rewrite Qsum_map_zero.
  - destruct (LpVariable_eq_dec (total_power t') (total_power t)) as [E | E];
      destruct (LpVariable_eq_dec (penalty t') (total_power t)) as [E' | _];
      try discriminate; destruct (Z.eq_dec t' t) as [E'' | E''];
      try ring; exfalso; congruence.
  - intros p _. rewrite coefficient_scale_var.
    destruct (LpVariable_eq_dec _ _); [discriminate | reflexivity].
Qed.

Lemma coefficient_total_power
    (self : IrrigationScheduleOptimizer) (h : Z) (prob : LpProblem) (t : Z) :
  build_optimization_problem self h = Return prob ->
  (0 <= t < h)%Z ->
  coefficient (objective prob) (total_power t) == tariff_at (tariff self) t.
Proof.
  intros Hb Ht. destruct (build_inv _ _ _ Hb) as (cs & _ & -> & _).
  rewrite coefficient_lpSum, map_map.
  rewrite (Qsum_map_ext _ (fun t' => if Z.eq_dec t' t
                                     then tariff_at (tariff self) t' else 0)).
  - apply (Qsum_pick Z.eq_dec (tariff_at (tariff self))).
    + apply NoDup_range.
    + now apply in_range.
  - intros t' _. apply coefficient_objective_term.
Qed.

(** C9. The rate is chosen from the raw hour index: every hour of the
    horizon with index 23 or more (so every hour of a second day) is
    priced off-peak, in the objective (the coefficient of
    [total_power[t]]) and in the row of a returned schedule. *)
Theorem late_hours_priced_offpeak
    (solve : LpProblem -> SolverAnswer) (self : IrrigationScheduleOptimizer)
    (h : Z) (prob : LpProblem) (t : Z) :
  build_optimization_problem self h = Return prob ->
  (23 <= t < h)%Z ->
  coefficient (objective prob) (total_power t) == offpeak (tariff self)
  /\ forall sol row,
       result_of (optimize_schedule solve h self) = Return (Some sol) ->
       nth_error (schedule sol) (Z.to_nat t) = Some row ->
       hour row = t /\ tariff_fcfa_kwh row = offpeak (tariff self).
Proof.
  intros Hb Ht. split.
  - rewrite (coefficient_total_power self h prob t Hb) by lia.
    rewrite tariff_at_offpeak by lia. reflexivity.
  - intros sol row Hrun Hrow.
    rewrite optimize_schedule_run in Hrun. cbv zeta in Hrun.
    destruct (build_effective self h) as (prob' & Hb'). rewrite Hb' in Hrun.
    destruct (extract_total self (solve prob') (effective_horizon self h))
      as (acc & Hacc & _ & Hrows); [apply effective_horizon_le |].
    rewrite Hacc in Hrun.
    destruct (String.eqb _ _); [| discriminate].
    destruct (Qeq_bool _ _); [discriminate |].
    cbn in Hrun. injection Hrun as <-. cbn [schedule solution_of] in Hrow.
    destruct (Hrows _ _ Hrow) as (Hhour & Hrate).
    rewrite Z2Nat.id in Hhour, Hrate by lia.
    split; [exact Hhour |]. rewrite Hrate. apply tariff_at_offpeak. lia.
Qed.

Lemma late_hours_priced_offpeak_witness :
  exists prob row,
    build_optimization_problem Demo.two_days 48 = Return prob /\
    (23 <= 31 < 48)%Z /\
    coefficient (objective prob) (total_power 31) == 75 /\
    nth_error
      (match result_of (optimize_schedule
                          (fun _ => {| lp_status := "Optimal";
                                       varValue := Demo.toggling;
                                       elapsed := 1 |}) 48 Demo.two_days) with
       | Return (Some sol) => schedule sol
       | _ => []
       end) 31 = Some row /\
    hour row = 31%Z /\ tariff_fcfa_kwh row = 75.
Proof.
  eexists. eexists. split; [vm_compute; reflexivity |].
  split; [lia |].
  edestruct (late_hours_priced_offpeak
               (fun _ => {| lp_status := "Optimal"; varValue := Demo.toggling;
                            elapsed := 1 |}) Demo.two_days 48)
    as (Hcoef & Hrow).
  { vm_compute; reflexivity. }
  { instantiate (1 := 31%Z). lia. }
  split; [exact Hcoef |].
  split; [vm_compute; reflexivity |].
  eapply Hrow; vm_compute; reflexivity.
Defined.

(* ------------------------------------------------------------------ *)
(** * The summary line *)

(** C10. On the success path the summary divides the total penalties
    by the total optimized cost: whenever the extracted schedule costs
    nothing in total, [optimize_schedule] raises [ZeroDivisionError]
    instead of returning, with the schedule already stored in
    [self.solution]. *)
Theorem zero_cost_raises
    (solve : LpProblem -> SolverAnswer) (self : IrrigationScheduleOptimizer)
    (h : Z) (prob : LpProblem) (acc : extraction) :
  build_optimization_problem self (effective_horizon self h) = Return prob ->
  lp_status (solve prob) = "Optimal"%string ->
  extract_schedule self (solve prob) (effective_horizon self h) = Return acc ->
  total_cost_optimized acc == 0 ->
  let run := optimize_schedule solve h self in
  result_of run = Raise ZeroDivisionError /\
  solution (state_of run)
    = Some (solution_of acc "Optimal" (elapsed (solve prob))).
Proof.
  intros Hb Hst Hacc Hcost run. subst run.
  rewrite optimize_schedule_run. cbv zeta. rewrite Hb, Hst, Hacc.
  apply Qeq_bool_iff in Hcost. rewrite Hcost. cbn. split; reflexivity.
Qed.

Lemma zero_cost_raises_witness :
  exists prob acc,
    build_optimization_problem Demo.idle_optimizer
      (effective_horizon Demo.idle_optimizer 3) = Return prob /\
    feasible prob idle /\
    extract_schedule Demo.idle_optimizer (Demo.idle_solver prob)
      (effective_horizon Demo.idle_optimizer 3) = Return acc /\
    total_cost_optimized acc == 0 /\
    result_of (optimize_schedule Demo.idle_solver 3 Demo.idle_optimizer)
      = Raise ZeroDivisionError.
Proof.
  eexists. eexists. split; [vm_compute; reflexivity |].
  split; [apply feasibleb_true; vm_compute; reflexivity |].
  split; [vm_compute; reflexivity |].
  split; [vm_compute; reflexivity |].
  eapply (zero_cost_raises Demo.idle_solver Demo.idle_optimizer 3).
  - vm_compute; reflexivity.
  - reflexivity.
  - vm_compute; reflexivity.
  - vm_compute; reflexivity.
Defined.

(* ------------------------------------------------------------------ *)
(** * The start-up budget *)

(** What constraint 7 does enforce: at most 8 starts per pump over the
    first [min(24, horizon)] hours. *)
Lemma startup_budget_first_day
    (self : IrrigationScheduleOptimizer) (h : Z) (prob : LpProblem)
    (a : assignment) (p : pump) :
  build_optimization_problem self h = Return prob ->
  feasible prob a -> In p (pumps self) ->
  Qsum (map (fun t => a (startup (id p) t)) (range (Z.min 24 h))) <= 8.
Proof.
  intros Hb Hf Hp.
  constraint_holds Hf (max_startups_constraint_in self h prob p Hb Hp) Hs.
  rewrite value_lpSum_map in Hs.
  rewrite (Qsum_map_ext _ (fun t => a (startup (id p) t))) in Hs; [exact Hs |].
  intros t _. apply value_of_var.
Qed.

(** C5 fails on the code.  Over two days, with one pump and a demand on
    every odd hour of the second day, the plan that runs the pump
    exactly on those hours satisfies every constraint of the formulated
    problem and starts the pump 12 times between hours 24 and 47. *)
Theorem startups_unbounded_after_first_day :
  exists prob,
    build_optimization_problem Demo.two_days 48 = Return prob /\
    feasible prob Demo.toggling /\
    window_startups Demo.toggling (id Demo.big) 24 == 12 /\
    ~ window_startups Demo.toggling (id Demo.big) 24 <= 8.
Proof.
  eexists. split; [vm_compute; reflexivity |].
  split; [apply feasibleb_true; vm_compute; reflexivity |].
  split; [vm_compute; reflexivity |].
  vm_compute. intros H. apply H. reflexivity.
Qed.

(* ------------------------------------------------------------------ *)
(** * The objective *)

(** C6, as stated, fails: a tariff schedule that prices a start at 100
    has no way to tell the optimizer, whose objective charges 5000 for
    the one start of this plan. *)
Lemma objective_ignores_configured_startup_cost :
  exists prob,
    build_optimization_problem
      (init [0] [Demo.P1] (Spec.to_config Demo.cheap_starts)) 1 = Return prob /\
    value Demo.one_start (objective prob) == 5000 /\
    Spec.objective_value Demo.cheap_starts [Demo.P1] 1 Demo.one_start == 100 /\
    ~ value Demo.one_start (objective prob)
      == Spec.objective_value Demo.cheap_starts [Demo.P1] 1 Demo.one_start.
Proof.
  eexists. split; [vm_compute; reflexivity |].
  split; [vm_compute; reflexivity |].
  split; [vm_compute; reflexivity |].
  vm_compute. discriminate.
Qed.

(** C6, amended.  The objective of the formulated problem equals
    [sum_t (total_power[t]*tariff(t) + penalty[t] + sum_p startup[p,t]*5000)],
    where [tariff(t)] is the peak rate exactly for the hour indices 7 to
    22 and the off-peak rate otherwise, and the cost of a start is the
    constant 5000. *)
Theorem objective_is_cost_with_fixed_startup_cost
    (self : IrrigationScheduleOptimizer) (h : Z) (prob : LpProblem)
    (a : assignment) :
  build_optimization_problem self h = Return prob ->
  value a (objective prob)
  == Qsum (map (fun t => a (total_power t) * tariff_at (tariff self) t
                         + a (penalty t)
                         + Qsum (map (fun p => a (startup (id p) t) * 5000)
                                     (pumps self)))
               (range h))
  /\ (forall t, (7 <= t <= 22)%Z -> tariff_at (tariff self) t = peak (tariff self))
  /\ (forall t, (t < 7 \/ 22 < t)%Z -> tariff_at (tariff self) t = offpeak (tariff self)).
Proof.
  intros Hb. split; [| split].
  - apply (objective_value self h prob a Hb).
  - intros t. apply tariff_at_peak.
  - intros t. apply tariff_at_offpeak.
Qed.

Lemma objective_is_cost_with_fixed_startup_cost_witness :
  exists prob,
    build_optimization_problem Demo.optimizer 3 = Return prob /\
    value Demo.plan (objective prob) == 19600.
Proof.
  destruct (build_optimization_problem Demo.optimizer 3) as [prob | e] eqn:Hb;
    [| vm_compute in Hb; discriminate].
  exists prob. split; [reflexivity |].
  destruct (objective_is_cost_with_fixed_startup_cost
              Demo.optimizer 3 prob Demo.plan Hb) as (Hval & _).
  rewrite Hval. vm_compute; reflexivity.
Defined.

(* ------------------------------------------------------------------ *)
(** * The comparison with the baseline *)

(** With one row per pump and per hour, the first [H * N] rows of the
    frame are the rows of its first [H] hours. *)
Lemma head_of_frame (N : nat) (hours : list (list Baseline.row)) (H : nat) :
  (forall hr, In hr hours -> List.length hr = N) ->
  firstn (H * N) (frame_of_hours hours) = frame_of_hours (firstn H hours).
Proof.
  unfold frame_of_hours. revert H.
  induction hours as [| hr hours IH]; intros H Hrows.
  - rewrite !firstn_nil. reflexivity.
  - destruct H as [| H]; [reflexivity |].
    cbn [firstn List.concat].
    assert (Hhr : List.length hr = N) by (apply Hrows; now left).
    rewrite firstn_app.
    rewrite firstn_all2 by (rewrite Hhr; lia).
    replace (S H * N - List.length hr)%nat with (H * N)%nat by (rewrite Hhr; lia).
    rewrite IH by (intros; apply Hrows; now right). reflexivity.
Qed.

Lemma np_truediv_nonzero (x y : Q) : ~ y == 0 -> np_truediv x y = finite (x / y).
Proof.
  intros Hy. unfold np_truediv.
  destruct (Qeq_bool y 0) eqn:E; [| reflexivity].
  apply Qeq_bool_iff in E. contradiction.
Qed.

(** C8, as stated, fails: the window is counted in records, not in
    hours.  Against the three-hour schedule of the two demo pumps, a
    baseline of eight hourly records of cost 100 covers the three hours,
    yet the comparison sums the first six records: a baseline cost of
    600 where the first three hours cost 300, and savings that are off
    by the same 300. *)
Lemma window_counts_records_not_hours :
  exists sol r,
    solution Demo.solved = Some sol
    /\ List.length (schedule sol) = 3%nat
    /\ (3 <= List.length Cases.hourly_baseline)%nat
    /\ compare_baseline_vs_optimized Demo.solved Cases.hourly_baseline = Some r
    /\ Qsum (map Baseline.total_cost_fcfa (firstn 3 Cases.hourly_baseline)) == 300
    /\ Comparison.baseline_cost r == 600
    /\ ~ Comparison.baseline_cost r
          == Qsum (map Baseline.total_cost_fcfa (firstn 3 Cases.hourly_baseline))
    /\ ~ Comparison.savings_fcfa r
          == Qsum (map Baseline.total_cost_fcfa (firstn 3 Cases.hourly_baseline))
             - total_cost sol.
Proof.
  eexists. eexists.
  split; [vm_compute; reflexivity |].
  split; [vm_compute; reflexivity |].
  split; [vm_compute; lia |].
  split; [vm_compute; reflexivity |].
  repeat split; try (vm_compute; reflexivity);
    intros E; vm_compute in E; discriminate.
Qed.

(** C8, amended.  For a schedule of [H >= 1] hours of a fleet of
    [N >= 1] pumps and a baseline that holds, hour by hour, exactly [N]
    records (one per pump) for at least [H] hours, the comparison sums
    the baseline cost, energy and penalty over exactly the first [H]
    hours, which are the first [H * N] records, takes the savings as
    baseline total minus optimized total, and projects
    [(savings / H) * 720] a month and twelve times that a year. *)
Theorem comparison_over_first_hours
    (self : IrrigationScheduleOptimizer) (sol : Solution)
    (hours : list (list Baseline.row)) :
  solution self = Some sol ->
  pumps self <> [] ->
  (forall hr, In hr hours -> List.length hr = List.length (pumps self)) ->
  (0 < List.length (schedule sol))%nat ->
  (List.length (schedule sol) <= List.length hours)%nat ->
  let H := List.length (schedule sol) in
  let window := frame_of_hours (firstn H hours) in
  let savings := Qsum (map Baseline.total_cost_fcfa window) - total_cost sol in
  List.length (firstn H hours) = H /\
  exists r,
    compare_baseline_vs_optimized self (frame_of_hours hours) = Some r /\
    Comparison.baseline_cost r = Qsum (map Baseline.total_cost_fcfa window) /\
    Comparison.optimized_cost r = total_cost sol /\
    Comparison.savings_fcfa r = savings /\
    Comparison.energy_savings_kwh r
      = Qsum (map Baseline.power_kw window) - total_energy sol /\
    Comparison.penalty_reduction r
      = Qsum (map Baseline.penalty_fcfa window) - total_penalties sol /\
    Comparison.monthly_savings_projection r
      = finite (savings / inject_Z (Z.of_nat H) * 720) /\
    Comparison.annual_savings_projection r
      = finite (savings / inject_Z (Z.of_nat H) * 720 * 12).
Proof.
  intros Hsol _ Hrows Hpos Hcover H window savings.
  split; [apply firstn_length_le; exact Hcover |].
  unfold compare_baseline_vs_optimized. rewrite Hsol.
  rewrite (head_of_frame (List.length (pumps self)) hours _ Hrows).
  fold H. fold window. fold savings.
  eexists. split; [reflexivity |]. cbn.
  rewrite np_truediv_nonzero.
  - cbn. repeat split; reflexivity.
  - unfold Qeq; cbn. lia.
Qed.

Lemma comparison_over_first_hours_witness :
  pumps Demo.solved <> [] /\
  exists r,
    compare_baseline_vs_optimized Demo.solved (frame_of_hours Demo.baseline_hours)
      = Some r /\
    Comparison.baseline_cost r
      = Qsum (map Baseline.total_cost_fcfa
                  (frame_of_hours (firstn 3 Demo.baseline_hours))) /\
    Comparison.savings_fcfa r == 3375 /\
    Comparison.monthly_savings_projection r
      = finite (Comparison.savings_fcfa r / 3 * 720).
Proof.
  split; [vm_compute; discriminate |].
  edestruct (comparison_over_first_hours Demo.solved) as (_ & r & Hr & Hb & _ & Hs & _ & _ & Hm & _).
  - vm_compute; reflexivity.
  - vm_compute; discriminate.
  - instantiate (1 := Demo.baseline_hours).
    intros hr Hin. cbn in Hin.
    repeat (destruct Hin as [<- | Hin]; [reflexivity |]). contradiction.
  - vm_compute; lia.
  - vm_compute; lia.
  - exists r. split; [exact Hr |]. split; [exact Hb |].
    split; [rewrite Hs; vm_compute; reflexivity |].
    rewrite Hm, Hs. reflexivity.
Defined.

(** The percentage of cost saved is not a number as soon as the
    baseline cost over the window is zero. *)
Lemma cost_savings_pct_zero_baseline (cost_savings baseline_cost : Q) :
  baseline_cost == 0 ->
  is_finite (cost_savings_pct cost_savings baseline_cost) = false.
Proof.
  intros Hb. unfold cost_savings_pct, np_truediv.
  apply Qeq_bool_iff in Hb. rewrite Hb.
  destruct (cost_savings ?= 0); reflexivity.
Qed.

(** The guard the penalty percentage has, and the cost percentage
    lacks. *)
Lemma penalty_savings_pct_zero_baseline (penalty_savings baseline_penalties : Q) :
  baseline_penalties == 0 ->
  penalty_savings_pct penalty_savings baseline_penalties = finite 0.
Proof.
  intros Hb. unfold penalty_savings_pct, Qgt_bool.
  assert (H : Qle_bool baseline_penalties 0 = true).
  { apply Qle_bool_iff. rewrite Hb. apply Qle_refl. }
  rewrite H. reflexivity.
Qed.

(** C3 fails on the code.  Against a baseline whose pumps never ran
    (total cost 0 over the window), the comparison of a schedule that
    costs 9600 reports [-inf] as percentage of savings, not 0. *)
Theorem zero_baseline_cost_percentage :
  option_map Comparison.baseline_cost
    (compare_baseline_vs_optimized Demo.solved Demo.idle_baseline) = Some 0
  /\ option_map Comparison.optimized_cost
       (compare_baseline_vs_optimized Demo.solved Demo.idle_baseline) = Some 9600
  /\ option_map Comparison.savings_percent
       (compare_baseline_vs_optimized Demo.solved Demo.idle_baseline) = Some neg_inf.
Proof. repeat split; vm_compute; reflexivity. Qed.

(* ------------------------------------------------------------------ *)
(** * A forecast of zeros *)

Lemma Qsum_nonneg {A} (f : A -> Q) (xs : list A) :
  (forall x, In x xs -> 0 <= f x) -> 0 <= Qsum (map f xs).
Proof.
  induction xs as [| x xs IH]; cbn [Qsum map]; intros H.
  - apply Qle_refl.
  - assert (0 <= f x) by (apply H; now left).
    assert (0 <= Qsum (map f xs)) by (apply IH; intros; apply H; now right).
    lra.
Qed.

(** A sum of non-negative terms that is not positive has only zero
    terms. *)
Lemma Qsum_nonneg_zero {A} (f : A -> Q) (xs : list A) :
  (forall x, In x xs -> 0 <= f x) -> Qsum (map f xs) <= 0 ->
  forall x, In x xs -> f x == 0.
Proof.
  induction xs as [| x xs IH]; cbn [Qsum map In]; intros Hpos Hsum y Hy;
    [contradiction |].
  assert (H0 : 0 <= f x) by (apply Hpos; now left).
  assert (H1 : 0 <= Qsum (map f xs)).
  { apply Qsum_nonneg. intros; apply Hpos; now right. }
  destruct Hy as [<- | Hy].
  - lra.
  - apply IH; [intros; apply Hpos; now right | lra | exact Hy].
Qed.

Lemma Forall2_In_r {A B} (R : A -> B -> Prop) (xs : list A) (ys : list B) (y : B) :
  Forall2 R xs ys -> In y ys -> exists x, In x xs /\ R x y.
Proof.
  induction 1 as [| x0 y0 xs ys Hxy _ IH]; cbn; [tauto |].
  intros [-> | Hin].
  - exists x0. auto.
  - destruct (IH Hin) as (x & ? & ?). exists x. auto.
Qed.

Section ZeroForecast.

Variable self : IrrigationScheduleOptimizer.
Variable h : Z.
Variable prob : LpProblem.
Hypothesis Hbuild : build_optimization_problem self h = Return prob.

Lemma total_power_declared (t : Z) :
  (0 <= t < h)%Z -> In (total_power t) (variables prob).
Proof.
  intros Ht. destruct (build_inv _ _ _ Hbuild) as (cs & _ & _ & _ & ->).
  unfold declared_variables.
  apply in_or_app; right. apply in_or_app; left.
  apply in_map. now apply in_range.
Qed.

Lemma startup_declared (p : pump) (t : Z) :
  In p (pumps self) -> (0 <= t < h)%Z -> In (startup (id p) t) (variables prob).
Proof.
  intros Hp Ht. destruct (build_inv _ _ _ Hbuild) as (cs & _ & _ & _ & ->).
  unfold declared_variables.
  do 3 (apply in_or_app; right).
  apply in_flat_map. exists p. split; [assumption |].
  apply in_map. now apply in_range.
Qed.

Lemma binary_nonneg (v : LpVariable) (x : Q) :
  cat v = Binary -> in_domain v x -> 0 <= x.
Proof. unfold in_domain. intros ->. intros [H | H]; rewrite H; lra. Qed.

(** With nothing to deliver, leaving every pump off is feasible. *)
Lemma idle_feasible :
  (forall d, In d (demand self) -> d <= 0) ->
  0 <= penalty_rate (tariff self) * subscribed_power (tariff self) ->
  feasible prob idle.
Proof.
  intros Hdem Hpen. split.
  - apply Forall_forall. intros v _. unfold in_domain, idle.
    destruct (cat v); [left; reflexivity | apply Qle_refl].
  - destruct (build_inv _ _ _ Hbuild) as (cs & Hcs & _ & -> & _).
    apply mapM_Return in Hcs.
    repeat (apply Forall_app; split); apply Forall_forall; intros c Hc.
    + destruct (Forall2_In_r _ _ _ _ Hcs Hc) as (t & _ & Ht).
      unfold demand_constraint in Ht.
      destruct (getitem (demand self) t) as [d |] eqn:G; cbn [rbind] in Ht;
        [| discriminate].
      injection Ht as <-. unfold satisfied; cbn [rel lhs rhs].
      rewrite value_of_const,
        (value_weighted_sum idle capacity_m3h (fun p => pump_status (id p) t)).
      rewrite Qsum_map_zero by (intros; unfold idle; ring).
      apply Hdem. unfold getitem in G.
      destruct ((0 <=? _) && _)%Z; [| discriminate].
      destruct (nth_error _ _) eqn:E; [| discriminate].
      injection G as <-. eapply nth_error_In; eauto.
    + apply in_map_iff in Hc as (t & <- & _).
      unfold satisfied; cbn [rel lhs rhs power_constraint].
      rewrite value_of_var,
        (value_weighted_sum idle power_kw (fun p => pump_status (id p) t)).
      rewrite Qsum_map_zero by (intros; unfold idle; ring). reflexivity.
    + apply in_map_iff in Hc as (t & <- & _).
      unfold satisfied; cbn [rel lhs rhs penalty_constraint].
      rewrite value_scale, value_sub, !value_of_var, value_of_const.
      unfold idle. lra.
    + apply in_flat_map in Hc as (p & _ & Hc).
      apply in_map_iff in Hc as (t & <- & _).
      unfold satisfied; cbn [rel lhs rhs startup_constraint].
      rewrite value_sub, !value_of_var. unfold idle. lra.
    + apply in_map_iff in Hc as (p & <- & _).
      unfold satisfied; cbn [rel lhs rhs max_startups_constraint].
      rewrite value_of_const, value_lpSum_map.
      rewrite Qsum_map_zero; [lra |].
      intros t _. rewrite value_of_var. reflexivity.
Qed.

Lemma idle_objective : value idle (objective prob) == 0.
Proof.
  rewrite (objective_value self h prob idle Hbuild). unfold objective_formula.
  apply Qsum_map_zero. intros t _.
  rewrite Qsum_map_zero by (intros; unfold idle; ring).
  unfold idle. ring.
Qed.

(** An optimal plan for a forecast of zeros books no cost at any
    hour. *)
Lemma optimal_hour_cost_zero (a : assignment) :
  (forall d, In d (demand self) -> d <= 0) ->
  0 <= peak (tariff self) -> 0 <= offpeak (tariff self) ->
  0 <= penalty_rate (tariff self) * subscribed_power (tariff self) ->
  optimal prob a ->
  forall t, (0 <= t < h)%Z -> hour_cost (tariff self) a t == 0.
Proof.
  intros Hdem Hpk Hop Hpen [Hf Hbest] t Ht.
  pose proof (Hbest idle (idle_feasible Hdem Hpen)) as Hle.
  rewrite idle_objective, (objective_value self h prob a Hbuild) in Hle.
  unfold objective_formula in Hle.
  assert (Hrate : forall t', 0 <= tariff_at (tariff self) t').
  { intros t'. unfold tariff_at. destruct ((7 <=? t') && _)%Z; assumption. }
  assert (Hterm : forall t', In t' (range h) ->
            0 <= a (total_power t') * tariff_at (tariff self) t' /\
            0 <= a (penalty t') /\
            0 <= Qsum (map (fun p => a (startup (id p) t') * 5000) (pumps self))).
  { intros t' Ht'. apply in_range in Ht'. repeat split.
    - apply Qmult_le_0_compat; [| apply Hrate].
      apply (feasible_in_domain _ _ _ Hf (total_power_declared t' Ht')).
    - apply (feasible_in_domain _ _ _ Hf (penalty_declared self h prob t' Hbuild Ht')).
    - apply Qsum_nonneg. intros p Hp.
      assert (0 <= a (startup (id p) t')).
      { apply (binary_nonneg (startup (id p) t')); [reflexivity |].
        apply (feasible_in_domain _ _ _ Hf (startup_declared p t' Hp Ht')). }
      lra. }
  assert (Hzero : a (total_power t) * tariff_at (tariff self) t + a (penalty t)
                  + Qsum (map (fun p => a (startup (id p) t) * 5000) (pumps self))
                  == 0).
  { apply (Qsum_nonneg_zero
             (fun t' => a (total_power t') * tariff_at (tariff self) t'
                        + a (penalty t')
                        + Qsum (map (fun p => a (startup (id p) t') * 5000)
                                    (pumps self)))
             (range h)).
    - intros t' Ht'. destruct (Hterm t' Ht') as (H1 & H2 & H3). lra.
    - exact Hle.
    - now apply in_range. }
  destruct (Hterm t) as (H1 & H2 & H3); [now apply in_range |].
  unfold hour_cost, truthy.
  destruct (Qeq_bool (a (penalty t)) 0) eqn:E; cbn [negb]; [| lra].
  apply Qeq_bool_iff in E. lra.
Qed.

End ZeroForecast.

Section ZeroForecastRun.

Variable solve : LpProblem -> SolverAnswer.
Variable self : IrrigationScheduleOptimizer.

(** The accumulated cost is the sum of the costs of the rows. *)
Lemma foldM_total_cost (ans : SolverAnswer) (ts : list Z) (acc0 acc : extraction) :
  foldM (extract_hour self ans) ts acc0 = Return acc ->
  total_cost_optimized acc
  == total_cost_optimized acc0
     + Qsum (map (hour_cost (tariff self) (varValue ans)) ts).
Proof.
  revert acc0. induction ts as [| t ts IH]; intros acc0; cbn [foldM Qsum map].
  - intros H. injection H as <-. ring.
  - unfold extract_hour at 1.
    destruct (getitem (demand self) t) as [d |]; cbn [rbind]; [| discriminate].
    intros H. rewrite (IH _ H). cbn [total_cost_optimized total_cost_fcfa hour_row].
    unfold hour_cost. ring.
Qed.

(** With a forecast of zeros, non-negative rates and a solver that
    returns an optimal plan, the run ends in [ZeroDivisionError]. *)
Lemma zero_forecast_raises (h : Z) (prob : LpProblem) :
  build_optimization_problem self (effective_horizon self h) = Return prob ->
  (forall d, In d (demand self) -> d <= 0) ->
  0 <= peak (tariff self) -> 0 <= offpeak (tariff self) ->
  0 <= penalty_rate (tariff self) * subscribed_power (tariff self) ->
  lp_status (solve prob) = "Optimal"%string ->
  optimal prob (varValue (solve prob)) ->
  result_of (optimize_schedule solve h self) = Raise ZeroDivisionError.
Proof.
  intros Hb Hdem Hpk Hop Hpen Hst Hopt.
  rewrite optimize_schedule_run. cbv zeta. rewrite Hb, Hst.
  destruct (extract_total self (solve prob) (effective_horizon self h))
    as (acc & Hacc & _); [apply effective_horizon_le |].
  rewrite Hacc.
  assert (Hcost : total_cost_optimized acc == 0).
  { rewrite (foldM_total_cost _ _ _ _ Hacc). cbn [total_cost_optimized extraction_start].
    rewrite Qsum_map_zero; [ring |].
    intros t Ht. apply in_range in Ht.
    apply (optimal_hour_cost_zero self _ prob Hb _ Hdem Hpk Hop Hpen Hopt t Ht). }
  apply Qeq_bool_iff in Hcost. rewrite Hcost. reflexivity.
Qed.

End ZeroForecastRun.

(* ------------------------------------------------------------------ *)
(** * A direct call of [build_optimization_problem] *)

(** X1. Called with a horizon the forecast does not cover,
    [build_optimization_problem] raises [IndexError] (it reads
    [self.demand[t]] for every hour, before any constraint named after
    a pump is added); with any other horizon, a non-positive one
    included, it returns a problem when the names of the fleet do not
    clash. *)
Theorem build_raises_iff_forecast_short
    (self : IrrigationScheduleOptimizer) (h : Z) :
  (build_optimization_problem self h = Raise IndexError
   <-> (Z.of_nat (List.length (demand self)) < h)%Z)
  /\ (distinct_names self ->
      ((exists prob, build_optimization_problem self h = Return prob)
       <-> (h <= Z.of_nat (List.length (demand self)))%Z)).
Proof.
  split; [split | intros _; split].
  - intros H. now apply build_Raise in H.
  - intros Hlt.
    destruct (build_optimization_problem self h) as [prob | e] eqn:E.
    + exfalso.
      destruct (demand_constraint_in self h prob (Z.of_nat (List.length (demand self))) E)
        as (c & Hc & _); [lia |].
      unfold demand_constraint in Hc.
      rewrite getitem_out_of_bounds in Hc by lia. discriminate.
    + apply build_Raise in E as [-> _]. reflexivity.
  - intros (prob & Hb).
    destruct (Z.leb_spec h (Z.of_nat (List.length (demand self)))); [assumption |].
    exfalso.
    destruct (demand_constraint_in self h prob (Z.of_nat (List.length (demand self))) Hb)
      as (c & Hc & _); [lia |].
    unfold demand_constraint in Hc.
    rewrite getitem_out_of_bounds in Hc by lia. discriminate.
  - apply build_total.
Qed.

Lemma build_raises_iff_forecast_short_witness :
  distinct_names Demo.optimizer /\
  build_optimization_problem Demo.optimizer 4 = Raise IndexError /\
  (exists prob, build_optimization_problem Demo.optimizer 3 = Return prob) /\
  (exists prob, build_optimization_problem Demo.optimizer (-2) = Return prob).
Proof.
  split; [exact demo_names_distinct |].
  split; [| split].
  - apply (build_raises_iff_forecast_short Demo.optimizer 4). cbn. lia.
  - apply (build_raises_iff_forecast_short Demo.optimizer 3);
      [exact demo_names_distinct | cbn; lia].
  - apply (build_raises_iff_forecast_short Demo.optimizer (-2));
      [exact demo_names_distinct | cbn; lia].
Defined.

Lemma length_flat_map_const {A B} (f : A -> list B) (xs : list A) (n : nat) :
  (forall x, In x xs -> List.length (f x) = n) ->
  List.length (flat_map f xs) = (List.length xs * n)%nat.
Proof.
  induction xs as [| x xs IH]; cbn [flat_map List.length]; intros H.
  - reflexivity.
  - rewrite length_app, (H x (or_introl eq_refl)), IH; [lia |].
    intros; apply H; now right.
Qed.

Lemma length_range_from (a b : Z) : List.length (range_from a b) = Z.to_nat (b - a).
Proof. unfold range_from. now rewrite length_map, length_seq. Qed.

(** X2. The size of the formulated problem: for [N] pumps and [H]
    hours, [2*N*H + 2*H] variables, and [3*H + N*(H-1) + N] constraints
    (the count the formulation prints), the start-up detection
    contributing none when there is no hour. *)
Theorem problem_size
    (self : IrrigationScheduleOptimizer) (h : Z) (prob : LpProblem) :
  build_optimization_problem self h = Return prob ->
  let N := List.length (pumps self) in
  let H := Z.to_nat h in
  List.length (variables prob) = (2 * N * H + 2 * H)%nat /\
  List.length (constraints prob) = (3 * H + N * (H - 1) + N)%nat.
Proof.
  intros Hb N H.
  destruct (build_inv _ _ _ Hb) as (cs & Hcs & _ & Hc & Hv).
  apply mapM_Return, Forall2_length in Hcs. rewrite length_range in Hcs.
  split.
  - rewrite Hv. unfold declared_variables.
    rewrite !length_app, !length_map, length_range.
    rewrite !(length_flat_map_const _ _ H);
      try (intros; now rewrite length_map, length_range).
    subst N H. lia.
  - rewrite Hc. rewrite !length_app, !length_map, length_range, <- Hcs.
    rewrite (length_flat_map_const _ _ (H - 1)).
    + subst N H. lia.
    + intros p _. rewrite length_map, length_range_from. subst H. lia.
Qed.

Lemma problem_size_witness :
  exists prob,
    build_optimization_problem Demo.optimizer 3 = Return prob /\
    List.length (variables prob) = 18%nat /\
    List.length (constraints prob) = 15%nat.
Proof.
  destruct (build_optimization_problem Demo.optimizer 3) as [prob | e] eqn:Hb;
    [| vm_compute in Hb; discriminate].
  exists prob. split; [reflexivity |].
  exact (problem_size Demo.optimizer 3 prob Hb).
Defined.

(* ------------------------------------------------------------------ *)
(** * When the formulated problem has a solution *)

Lemma py_max_ge_l (x y : Q) : x <= py_max x y.
Proof.
  unfold py_max, Qgt_bool. destruct (Qle_bool y x) eqn:E; cbn [negb].
  - apply Qle_refl.
  - destruct (Qlt_le_dec x y) as [Hlt | Hle]; [now apply Qlt_le_weak |].
    apply Qle_bool_iff in Hle. congruence.
Qed.

Lemma py_max_ge_r (x y : Q) : y <= py_max x y.
Proof.
  unfold py_max, Qgt_bool. destruct (Qle_bool y x) eqn:E; cbn [negb].
  - now apply Qle_bool_iff.
  - apply Qle_refl.
Qed.

Lemma py_max_cases (x y : Q) : py_max x y = x \/ py_max x y = y.
Proof. unfold py_max. destruct (Qgt_bool y x); auto. Qed.

Section Solvability.

Variable self : IrrigationScheduleOptimizer.
Variable h : Z.
Variable prob : LpProblem.
Hypothesis Hbuild : build_optimization_problem self h = Return prob.

Lemma pump_status_declared (p : pump) (t : Z) :
  In p (pumps self) -> (0 <= t < h)%Z ->
  In (pump_status (id p) t) (variables prob).
Proof.
  intros Hp Ht. destruct (build_inv _ _ _ Hbuild) as (cs & _ & _ & _ & ->).
  unfold declared_variables. apply in_or_app; left.
  apply in_flat_map. exists p. split; [assumption |].
  apply in_map. now apply in_range.
Qed.

Lemma binary_le_1 (v : LpVariable) (x : Q) :
  cat v = Binary -> in_domain v x -> x <= 1.
Proof. unfold in_domain. intros ->. intros [H | H]; rewrite H; lra. Qed.

(** Under a feasible plan the pumps deliver what is asked at hour [t]. *)
Lemma demand_covered (a : assignment) (t : Z) (d : Q) :
  feasible prob a -> (0 <= t < h)%Z ->
  getitem (demand self) t = Return d ->
  d <= Qsum (map (fun p => a (pump_status (id p) t) * capacity_m3h p) (pumps self)).
Proof.
  intros Hf Ht Hd.
  destruct (demand_constraint_in self h prob t Hbuild Ht) as (c & Hc & Hin).
  unfold demand_constraint in Hc. rewrite Hd in Hc. cbn [rbind] in Hc.
  injection Hc as <-.
  constraint_holds Hf Hin Hs.
  rewrite (value_weighted_sum a capacity_m3h (fun p => pump_status (id p) t)) in Hs.
  exact Hs.
Qed.

Lemma all_on_feasible :
  (forall p, In p (pumps self) -> 0 <= power_kw p) ->
  (forall t d, (0 <= t < h)%Z -> getitem (demand self) t = Return d ->
               d <= fleet_capacity (pumps self)) ->
  feasible prob (all_on self).
Proof.
  intros Hpow Hdem. split.
  - apply Forall_forall. intros v _. unfold in_domain.
    destruct v; cbn [cat all_on].
    + right; reflexivity.
    + unfold fleet_power. apply Qsum_nonneg. exact Hpow.
    + apply py_max_ge_l.
    + left; reflexivity.
  - destruct (build_inv _ _ _ Hbuild) as (cs & Hcs & _ & -> & _).
    apply mapM_Return in Hcs.
    repeat (apply Forall_app; split); apply Forall_forall; intros c Hc.
    + destruct (Forall2_In_r _ _ _ _ Hcs Hc) as (t & Ht & Hct).
      apply in_range in Ht. unfold demand_constraint in Hct.
      destruct (getitem (demand self) t) as [d |] eqn:G; cbn [rbind] in Hct;
        [| discriminate].
      injection Hct as <-. unfold satisfied; cbn [rel lhs rhs].
      rewrite value_of_const,
        (value_weighted_sum (all_on self) capacity_m3h
           (fun p => pump_status (id p) t)).
      rewrite (Qsum_map_ext _ capacity_m3h) by (intros; cbn [all_on]; ring).
      apply (Hdem t d Ht G).
    + apply in_map_iff in Hc as (t & <- & _).
      unfold satisfied; cbn [rel lhs rhs power_constraint].
      rewrite value_of_var,
        (value_weighted_sum (all_on self) power_kw (fun p => pump_status (id p) t)).
      rewrite (Qsum_map_ext _ power_kw) by (intros; cbn [all_on]; ring).
      reflexivity.
    + apply in_map_iff in Hc as (t & <- & _).
      unfold satisfied; cbn [rel lhs rhs penalty_constraint].
      autorewrite with lp_value. cbn [all_on]. apply py_max_ge_r.
    + apply in_flat_map in Hc as (p & _ & Hc).
      apply in_map_iff in Hc as (t & <- & _).
      unfold satisfied; cbn [rel lhs rhs startup_constraint].
      autorewrite with lp_value. cbn [all_on]. lra.
    + apply in_map_iff in Hc as (p & <- & _).
      unfold satisfied; cbn [rel lhs rhs max_startups_constraint].
      rewrite value_of_const, value_lpSum_map.
      rewrite Qsum_map_zero; [lra |].
      intros t _. rewrite value_of_var. reflexivity.
Qed.

End Solvability.

(** X3. For a fleet with non-negative capacities and power draws, the
    formulated problem has a feasible plan exactly when, at every hour
    of the horizon, the demand does not exceed the capacity of the whole
    fleet; the start-up budget never stands in the way. *)
Theorem feasible_iff_fleet_covers_demand
    (self : IrrigationScheduleOptimizer) (h : Z) (prob : LpProblem) :
  build_optimization_problem self h = Return prob ->
  (forall p, In p (pumps self) -> 0 <= capacity_m3h p /\ 0 <= power_kw p) ->
  ((exists a, feasible prob a)
   <-> forall t d, (0 <= t < h)%Z -> getitem (demand self) t = Return d ->
                   d <= fleet_capacity (pumps self)).
Proof.
  intros Hb Hfleet. split.
  - intros (a & Hf) t d Ht Hd.
    apply Qle_trans with (1 := demand_covered self h prob Hb a t d Hf Ht Hd).
    unfold fleet_capacity.
    assert (Hle : forall ps, (forall p, In p ps -> In p (pumps self)) ->
              Qsum (map (fun p => a (pump_status (id p) t) * capacity_m3h p) ps)
              <= Qsum (map capacity_m3h ps)).
    { induction ps as [| p ps IH]; cbn [Qsum map]; intros Hsub.
      - apply Qle_refl.
      - assert (Hp : In p (pumps self)) by (apply Hsub; now left).
        assert (H1 : a (pump_status (id p) t) <= 1).
        { apply (binary_le_1 (pump_status (id p) t)); [reflexivity |].
          apply (feasible_in_domain _ _ _ Hf).
          apply (pump_status_declared self h prob Hb p t Hp Ht). }
        assert (H0 : 0 <= capacity_m3h p) by (apply Hfleet; exact Hp).
        assert (IH' := IH (fun q Hq => Hsub q (or_intror Hq))).
        assert (Hm : a (pump_status (id p) t) * capacity_m3h p
                     <= 1 * capacity_m3h p).
        { apply Qmult_le_compat_r; assumption. }
        lra. }
    apply Hle. auto.
  - intros Hdem. exists (all_on self).
    apply (all_on_feasible self h prob Hb); [| exact Hdem].
    intros p Hp. apply Hfleet. exact Hp.
Qed.

Lemma feasible_iff_fleet_covers_demand_witness :
  exists prob,
    build_optimization_problem Demo.optimizer 3 = Return prob /\
    (forall p, In p (pumps Demo.optimizer) ->
               0 <= capacity_m3h p /\ 0 <= power_kw p) /\
    exists a, feasible prob a.
Proof.
  destruct (build_optimization_problem Demo.optimizer 3) as [prob | e] eqn:Hb;
    [| vm_compute in Hb; discriminate].
  assert (Hfleet : forall p, In p (pumps Demo.optimizer) ->
                             0 <= capacity_m3h p /\ 0 <= power_kw p).
  { intros p Hp. cbn in Hp. destruct Hp as [<- | [<- | []]];
      split; vm_compute; discriminate. }
  exists prob. split; [reflexivity |]. split; [exact Hfleet |].
  apply (feasible_iff_fleet_covers_demand Demo.optimizer 3 prob Hb Hfleet).
  intros t d Ht Hd.
  assert (Hcases : t = 0%Z \/ t = 1%Z \/ t = 2%Z) by lia.
  destruct Hcases as [-> | [-> | ->]]; vm_compute in Hd; injection Hd as <-;
    vm_compute; discriminate.
Defined.

(* ------------------------------------------------------------------ *)
(** * What a returned schedule holds *)

Lemma Qsum_map_scale {A} (c : Q) (f : A -> Q) (xs : list A) :
  Qsum (map (fun x => f x * c) xs) == c * Qsum (map f xs).
Proof.
  induction xs as [| x xs IH]; cbn [Qsum map].
  - ring.
  - rewrite IH. ring.
Qed.

Lemma truthy_value (x : Q) : (if truthy x then x else 0) == x.
Proof.
  unfold truthy. destruct (Qeq_bool x 0) eqn:E; cbn [negb]; [| reflexivity].
  apply Qeq_bool_iff in E. now rewrite E.
Qed.

Lemma running_binary (a : assignment) (t : Z) (p : pump) :
  a (pump_status (id p) t) == 0 \/ a (pump_status (id p) t) == 1 ->
  a (pump_status (id p) t) == if running a t p then 1 else 0.
Proof.
  unfold running, Qgt_bool. intros [H | H];
    destruct (Qle_bool (a (pump_status (id p) t)) (1 # 2)) eqn:E; cbn [negb];
    try exact H.
  - exfalso. assert (Hle : a (pump_status (id p) t) <= 1 # 2) by (rewrite H; lra).
    apply Qle_bool_iff in Hle. congruence.
  - exfalso. apply Qle_bool_iff in E. rewrite H in E. lra.
Qed.

(** For a 0/1 plan, a weighted sum over the fleet is the sum of the
    weights of the running pumps. *)
Lemma binary_sum_running (a : assignment) (t : Z) (w : pump -> Q) (ps : list pump) :
  (forall p, In p ps ->
     a (pump_status (id p) t) == 0 \/ a (pump_status (id p) t) == 1) ->
  Qsum (map (fun p => a (pump_status (id p) t) * w p) ps)
  == Qsum (map w (filter (running a t) ps)).
Proof.
  induction ps as [| p ps IH]; cbn [Qsum map filter]; intros Hbin.
  - reflexivity.
  - rewrite (running_binary a t p) by (apply Hbin; now left).
    rewrite IH by (intros; apply Hbin; now right).
    destruct (running a t p); cbn [Qsum map]; ring.
Qed.

Section ExtractionFacts.

Variable self : IrrigationScheduleOptimizer.
Variable ans : SolverAnswer.

Lemma pump_states_fold (t : Z) (ps : list pump)
    (acc : list string * list (string * on_off)) :
  fst (fold_left
         (fun acc p =>
            let status_val := varValue ans (pump_status (id p) t) in
            let on := Qgt_bool status_val (1 # 2) in
            (if on then fst acc ++ [id p] else fst acc,
             dict_set (id p) (if on then ON else OFF) (snd acc)))
         ps acc)
  = fst acc ++ map id (filter (running (varValue ans) t) ps).
Proof.
  revert acc. induction ps as [| p ps IH]; intros acc; cbn [fold_left filter map].
  - now rewrite app_nil_r.
  - rewrite IH. cbn [fst snd]. unfold running at 2.
    destruct (Qgt_bool _ _); cbn [map]; [now rewrite <- app_assoc | reflexivity].
Qed.

(** [pumps_active] lists the pumps whose variable exceeds one half, in
    fleet order. *)
Lemma pumps_active_running (t : Z) (d : Q) :
  pumps_active (hour_row self ans t d)
  = map id (active_pumps self (varValue ans) t).
Proof.
  cbn [pumps_active hour_row]. unfold pump_states, active_pumps.
  now rewrite pump_states_fold.
Qed.

(** What the loop has accumulated when it ends. *)
Lemma foldM_extract_inv (ts : list Z) (acc0 acc : extraction) :
  foldM (extract_hour self ans) ts acc0 = Return acc ->
  exists rows',
    rows acc = rows acc0 ++ rows' /\
    Forall2 (fun t row => exists d, getitem (demand self) t = Return d /\
                                    row = hour_row self ans t d) ts rows' /\
    total_cost_optimized acc
      == total_cost_optimized acc0 + Qsum (map total_cost_fcfa rows') /\
    energy_sum acc == energy_sum acc0 + Qsum (map total_power_kw rows') /\
    penalties_sum acc == penalties_sum acc0 + Qsum (map penalty_fcfa rows').
Proof.
  revert acc0. induction ts as [| t ts IH]; intros acc0; cbn [foldM].
  - intros H. injection H as <-. exists []. rewrite app_nil_r.
    cbn [Qsum map]. repeat split; try constructor; ring.
  - unfold extract_hour at 1.
    destruct (getitem (demand self) t) as [d |] eqn:G; cbn [rbind]; [| discriminate].
    intros H. destruct (IH _ H) as (rows' & Hr & HF & Hc & He & Hp).
    exists (hour_row self ans t d :: rows').
    cbn [rows total_cost_optimized energy_sum penalties_sum] in Hr, Hc, He, Hp.
    repeat split.
    + rewrite Hr. now rewrite <- app_assoc.
    + constructor; eauto.
    + rewrite Hc. cbn [Qsum map]. ring.
    + rewrite He. cbn [Qsum map]. ring.
    + rewrite Hp. cbn [Qsum map]. ring.
Qed.

End ExtractionFacts.

(** A run that returns a schedule went through every stage. *)
Lemma run_success_inv
    (solve : LpProblem -> SolverAnswer) (self : IrrigationScheduleOptimizer)
    (h : Z) (sol : Solution) :
  result_of (optimize_schedule solve h self) = Return (Some sol) ->
  exists prob acc,
    build_optimization_problem self (effective_horizon self h) = Return prob /\
    lp_status (solve prob) = "Optimal"%string /\
    extract_schedule self (solve prob) (effective_horizon self h) = Return acc /\
    ~ total_cost_optimized acc == 0 /\
    sol = solution_of acc (lp_status (solve prob)) (elapsed (solve prob)).
Proof.
  rewrite optimize_schedule_run. cbv zeta.
  destruct (build_effective self h) as (prob & Hb). rewrite Hb.
  destruct (extract_total self (solve prob) (effective_horizon self h))
    as (acc & Hacc & _); [apply effective_horizon_le |].
  rewrite Hacc.
  destruct (String.eqb_spec (lp_status (solve prob)) "Optimal") as [Hst | Hst];
    [| discriminate].
  destruct (Qeq_bool (total_cost_optimized acc) 0) eqn:E; [discriminate |].
  cbn. intros H. injection H as <-.
  exists prob, acc. repeat split; try assumption.
  intros Hz. apply Qeq_bool_iff in Hz. congruence.
Qed.

(** X4. When the solver's answer is feasible for the formulated problem,
    every row of the returned schedule is consistent with the fleet:
    [pumps_active] lists, in fleet order, the pumps whose variable
    exceeds one half; their capacities add up to at least the demand of
    the row; and their power draws add up to the row's total power. *)
Theorem returned_schedule_covers_demand
    (solve : LpProblem -> SolverAnswer) (self : IrrigationScheduleOptimizer)
    (h : Z) (prob : LpProblem) (sol : Solution) :
  build_optimization_problem self (effective_horizon self h) = Return prob ->
  feasible prob (varValue (solve prob)) ->
  result_of (optimize_schedule solve h self) = Return (Some sol) ->
  forall i row, nth_error (schedule sol) i = Some row ->
    let on := active_pumps self (varValue (solve prob)) (Z.of_nat i) in
    pumps_active row = map id on /\
    demand_m3h row <= Qsum (map capacity_m3h on) /\
    total_power_kw row == Qsum (map power_kw on).
Proof.
  intros Hb Hf Hrun i row Hrow on.
  destruct (run_success_inv solve self h sol Hrun)
    as (prob' & acc & Hb' & _ & Hacc & _ & ->).
  assert (prob' = prob) by congruence. subst prob'.
  cbn [schedule solution_of] in Hrow.
  destruct (foldM_extract_inv self (solve prob) _ _ _ Hacc)
    as (rows' & Hrows & HF & _).
  cbn [rows extraction_start app] in Hrows. rewrite Hrows in Hrow.
  destruct (Forall2_nth_error_r _ _ _ _ _ HF Hrow) as (t & Ht & d & Hd & ->).
  pose proof (nth_error_In _ _ Ht) as Hin. apply in_range in Hin.
  apply nth_error_range in Ht. subst t.
  set (H := effective_horizon self h) in *.
  assert (Hbin : forall p, In p (pumps self) ->
            varValue (solve prob) (pump_status (id p) (Z.of_nat i)) == 0 \/
            varValue (solve prob) (pump_status (id p) (Z.of_nat i)) == 1).
  { intros p Hp.
    apply (feasible_in_domain _ _ _ Hf
             (pump_status_declared self H prob Hb p _ Hp Hin)). }
  split; [apply pumps_active_running |]. split.
  - cbn [demand_m3h hour_row]. subst on. unfold active_pumps.
    rewrite <- (binary_sum_running _ _ capacity_m3h _ Hbin).
    apply (demand_covered self H prob Hb _ _ _ Hf Hin Hd).
  - cbn [total_power_kw hour_row]. subst on. unfold active_pumps.
    rewrite <- (binary_sum_running _ _ power_kw _ Hbin).
    constraint_holds Hf (power_constraint_in self H prob _ Hb Hin) Hs.
    rewrite (value_weighted_sum _ power_kw
               (fun p => pump_status (id p) (Z.of_nat i))) in Hs.
    exact Hs.
Qed.

Lemma returned_schedule_covers_demand_witness :
  exists prob sol row,
    build_optimization_problem Demo.optimizer
      (effective_horizon Demo.optimizer 3) = Return prob /\
    feasible prob (varValue (Demo.solver_with "Optimal" prob)) /\
    result_of (optimize_schedule (Demo.solver_with "Optimal") 3 Demo.optimizer)
      = Return (Some sol) /\
    nth_error (schedule sol) 2 = Some row /\
    pumps_active row = ["P1"; "P2"]%string /\
    demand_m3h row <= 110.
Proof.
  destruct (build_optimization_problem Demo.optimizer
              (effective_horizon Demo.optimizer 3)) as [prob | e] eqn:Hb;
    [| vm_compute in Hb; discriminate].
  assert (Hf : feasible prob (varValue (Demo.solver_with "Optimal" prob))).
  { vm_compute in Hb. injection Hb as <-.
    apply feasibleb_true. vm_compute. reflexivity. }
  destruct (result_of (optimize_schedule (Demo.solver_with "Optimal") 3
                         Demo.optimizer)) as [[sol |] | e] eqn:Hrun;
    try (vm_compute in Hrun; discriminate).
  destruct (nth_error (schedule sol) 2) as [row |] eqn:Hrow.
  2:{ vm_compute in Hrun. injection Hrun as <-. vm_compute in Hrow. discriminate. }
  exists prob, sol, row.
  split; [reflexivity |]. split; [exact Hf |]. split; [reflexivity |].
  split; [exact Hrow |].
  destruct (returned_schedule_covers_demand _ _ _ _ _ Hb Hf Hrun 2%nat row Hrow)
    as (Hact & Hcov & _).
  split.
  - rewrite Hact. vm_compute. reflexivity.
  - eapply Qle_trans; [exact Hcov |]. vm_compute. discriminate.
Defined.

(** X5. The totals of a returned schedule are the sums of its rows:
    total cost, energy and penalties; the total cost is the energy cost
    of the rows plus the total penalties; and in every row the energy
    cost is power times tariff and the total cost is energy cost plus
    penalty. *)
Theorem solution_totals_are_row_sums
    (solve : LpProblem -> SolverAnswer) (self : IrrigationScheduleOptimizer)
    (h : Z) (sol : Solution) :
  result_of (optimize_schedule solve h self) = Return (Some sol) ->
  total_cost sol == Qsum (map total_cost_fcfa (schedule sol)) /\
  total_energy sol == Qsum (map total_power_kw (schedule sol)) /\
  total_penalties sol == Qsum (map penalty_fcfa (schedule sol)) /\
  total_cost sol
    == Qsum (map energy_cost_fcfa (schedule sol)) + total_penalties sol /\
  forall row, In row (schedule sol) ->
    energy_cost_fcfa row = total_power_kw row * tariff_fcfa_kwh row /\
    total_cost_fcfa row = energy_cost_fcfa row + penalty_fcfa row.
Proof.
  intros Hrun.
  destruct (run_success_inv solve self h sol Hrun)
    as (prob & acc & _ & _ & Hacc & _ & ->).
  cbn [schedule total_cost total_energy total_penalties solution_of].
  destruct (foldM_extract_inv self (solve prob) _ _ _ Hacc)
    as (rows' & Hrows & HF & Hc & He & Hp).
  cbn [rows total_cost_optimized energy_sum penalties_sum extraction_start app]
    in Hrows, Hc, He, Hp.
  rewrite Hrows.
  assert (Hrow : forall row, In row rows' ->
            energy_cost_fcfa row = total_power_kw row * tariff_fcfa_kwh row /\
            total_cost_fcfa row = energy_cost_fcfa row + penalty_fcfa row).
  { intros row Hin. destruct (Forall2_In_r _ _ _ _ HF Hin) as (t & _ & d & _ & ->).
    split; reflexivity. }
  split; [rewrite Hc; ring |]. split; [rewrite He; ring |].
  split; [rewrite Hp; ring |]. split; [| exact Hrow].
  rewrite Hc, Hp.
  rewrite (Qsum_map_ext total_cost_fcfa
             (fun r => energy_cost_fcfa r + penalty_fcfa r)).
  - rewrite Qsum_map_plus. ring.
  - intros row Hin. destruct (Hrow row Hin) as (_ & ->). reflexivity.
Qed.

Lemma solution_totals_are_row_sums_witness :
  exists sol,
    result_of (optimize_schedule (Demo.solver_with "Optimal") 3 Demo.optimizer)
      = Return (Some sol) /\
    total_cost sol == 9600 /\
    Qsum (map total_cost_fcfa (schedule sol)) == 9600.
Proof.
  destruct (result_of (optimize_schedule (Demo.solver_with "Optimal") 3
                         Demo.optimizer)) as [[sol |] | e] eqn:Hrun;
    try (vm_compute in Hrun; discriminate).
  exists sol. split; [reflexivity |].
  destruct (solution_totals_are_row_sums _ _ _ _ Hrun) as (Hc & _).
  assert (H9600 : total_cost sol == 9600).
  { vm_compute in Hrun. injection Hrun as <-. vm_compute. reflexivity. }
  split; [exact H9600 |]. rewrite <- Hc. exact H9600.
Defined.

(** X6. The cost a returned schedule reports leaves out the start-up
    costs the solver was charged: the objective, at the solver's
    answer, is the reported total cost plus 5000 for every start the
    answer books. *)
Theorem reported_cost_excludes_startups
    (solve : LpProblem -> SolverAnswer) (self : IrrigationScheduleOptimizer)
    (h : Z) (prob : LpProblem) (sol : Solution) :
  build_optimization_problem self (effective_horizon self h) = Return prob ->
  result_of (optimize_schedule solve h self) = Return (Some sol) ->
  value (varValue (solve prob)) (objective prob)
  == total_cost sol
     + 5000 * startups_booked (varValue (solve prob)) (pumps self)
                (effective_horizon self h).
Proof.
  intros Hb Hrun.
  destruct (run_success_inv solve self h sol Hrun)
    as (prob' & acc & Hb' & _ & Hacc & _ & ->).
  assert (prob' = prob) by congruence. subst prob'.
  cbn [total_cost solution_of].
  rewrite (foldM_total_cost self _ _ _ _ Hacc).
  rewrite (objective_value self _ prob _ Hb).
  unfold objective_formula, startups_booked.
  cbn [total_cost_optimized extraction_start].
  set (a := varValue (solve prob)).
  rewrite (Qsum_map_ext _
             (fun t => hour_cost (tariff self) a t
                       + 5000 * Qsum (map (fun p => a (startup (id p) t))
                                          (pumps self)))).
  - rewrite Qsum_map_plus.
    rewrite (Qsum_map_ext
               (fun t => 5000 * Qsum (map (fun p => a (startup (id p) t))
                                          (pumps self)))
               (fun t => Qsum (map (fun p => a (startup (id p) t)) (pumps self))
                         * 5000)) by (intros; ring).
    rewrite Qsum_map_scale. ring.
  - intros t _. unfold hour_cost. rewrite truthy_value, Qsum_map_scale. ring.
Qed.

Lemma reported_cost_excludes_startups_witness :
  exists prob sol,
    build_optimization_problem Demo.optimizer
      (effective_horizon Demo.optimizer 3) = Return prob /\
    result_of (optimize_schedule (Demo.solver_with "Optimal") 3 Demo.optimizer)
      = Return (Some sol) /\
    value Demo.plan (objective prob) == total_cost sol + 5000 * 2.
Proof.
  destruct (build_optimization_problem Demo.optimizer
              (effective_horizon Demo.optimizer 3)) as [prob | e] eqn:Hb;
    [| vm_compute in Hb; discriminate].
  destruct (result_of (optimize_schedule (Demo.solver_with "Optimal") 3
                         Demo.optimizer)) as [[sol |] | e] eqn:Hrun;
    try (vm_compute in Hrun; discriminate).
  exists prob, sol. split; [reflexivity |]. split; [reflexivity |].
  pose proof (reported_cost_excludes_startups _ _ _ _ _ Hb Hrun) as H.
  cbn [varValue Demo.solver_with] in H. rewrite H.
  assert (Hs : startups_booked Demo.plan (pumps Demo.optimizer)
                 (effective_horizon Demo.optimizer 3) == 2)
    by (vm_compute; reflexivity).
  rewrite Hs. reflexivity.
Defined.

(* ------------------------------------------------------------------ *)
(** * What [self.solution] holds after a run *)

(** X7. A run that ends on a status other than "Optimal" leaves
    [self.solution] as it was: a schedule stored by an earlier run
    stays, and a later comparison reports on that earlier schedule. *)
Theorem failed_run_keeps_previous_solution
    (solve : LpProblem -> SolverAnswer) (self : IrrigationScheduleOptimizer)
    (h : Z) (prob : LpProblem) (baseline : list Baseline.row) :
  build_optimization_problem self (effective_horizon self h) = Return prob ->
  lp_status (solve prob) <> "Optimal"%string ->
  let run := optimize_schedule solve h self in
  result_of run = Return None /\
  solution (state_of run) = solution self /\
  compare_baseline_vs_optimized (state_of run) baseline
  = compare_baseline_vs_optimized self baseline.
Proof.
  intros Hb Hst run. subst run. rewrite optimize_schedule_run. cbv zeta.
  rewrite Hb. apply String.eqb_neq in Hst. rewrite Hst.
  repeat split; reflexivity.
Qed.

Lemma failed_run_keeps_previous_solution_witness :
  exists prob r,
    build_optimization_problem Demo.solved (effective_horizon Demo.solved 3)
      = Return prob /\
    lp_status (Demo.solver_with "Infeasible" prob) <> "Optimal"%string /\
    compare_baseline_vs_optimized
      (state_of (optimize_schedule (Demo.solver_with "Infeasible") 3 Demo.solved))
      (frame_of_hours Demo.baseline_hours) = Some r /\
    Comparison.optimized_cost r == 9600.
Proof.
  destruct (build_optimization_problem Demo.solved
              (effective_horizon Demo.solved 3)) as [prob | e] eqn:Hb;
    [| vm_compute in Hb; discriminate].
  assert (Hst : lp_status (Demo.solver_with "Infeasible" prob) <> "Optimal"%string)
    by (cbn; discriminate).
  destruct (failed_run_keeps_previous_solution
              (Demo.solver_with "Infeasible") Demo.solved 3 prob
              (frame_of_hours Demo.baseline_hours) Hb Hst) as (_ & _ & Hcmp).
  exists prob. eexists. split; [reflexivity |]. split; [exact Hst |].
  rewrite Hcmp. split; [vm_compute; reflexivity | vm_compute; reflexivity].
Defined.

(** X8. With a horizon of zero or less, a fleet whose names do not
    clash and a solver that reports "Optimal", the run raises
    [ZeroDivisionError] but has already stored a solution with no row;
    a comparison made afterwards against a baseline that holds at least
    one record succeeds and reports [nan] as percentage and as monthly
    and annual projections. *)
Theorem empty_horizon_then_compare
    (solve : LpProblem -> SolverAnswer) (self : IrrigationScheduleOptimizer)
    (h : Z) (prob : LpProblem) (baseline : list Baseline.row) :
  (h <= 0)%Z ->
  distinct_names self ->
  baseline <> [] ->
  build_optimization_problem self (effective_horizon self h) = Return prob ->
  lp_status (solve prob) = "Optimal"%string ->
  let run := optimize_schedule solve h self in
  result_of run = Raise ZeroDivisionError /\
  exists r,
    compare_baseline_vs_optimized (state_of run) baseline = Some r /\
    Comparison.schedule r = [] /\
    Comparison.savings_percent r = nan /\
    Comparison.monthly_savings_projection r = nan /\
    Comparison.annual_savings_projection r = nan.
Proof.
  intros Hh _ _ Hb Hst run. subst run. rewrite optimize_schedule_run. cbv zeta.
  rewrite Hb, Hst.
  assert (HH : effective_horizon self h = h).
  { unfold effective_horizon.
    destruct (Z.ltb_spec (Z.of_nat (List.length (demand self))) h); [lia | reflexivity]. }
  unfold extract_schedule, range. rewrite HH.
  replace (Z.to_nat h) with 0%nat by lia.
  cbn. split; [reflexivity |]. eexists. split; [reflexivity |].
  repeat split; reflexivity.
Qed.

Lemma empty_horizon_then_compare_witness :
  (0 <= 0)%Z /\
  distinct_names Demo.optimizer /\
  frame_of_hours Demo.baseline_hours <> [] /\
  result_of (optimize_schedule Demo.idle_solver 0 Demo.optimizer)
    = Raise ZeroDivisionError /\
  exists r,
    compare_baseline_vs_optimized
      (state_of (optimize_schedule Demo.idle_solver 0 Demo.optimizer))
      (frame_of_hours Demo.baseline_hours) = Some r /\
    Comparison.savings_percent r = nan.
Proof.
  split; [lia |].
  split; [exact demo_names_distinct |].
  assert (Hne : frame_of_hours Demo.baseline_hours <> [])
    by (vm_compute; discriminate).
  split; [exact Hne |].
  destruct (build_optimization_problem Demo.optimizer
              (effective_horizon Demo.optimizer 0)) as [prob | e] eqn:Hb;
    [| vm_compute in Hb; discriminate].
  destruct (empty_horizon_then_compare Demo.idle_solver Demo.optimizer 0 prob
              (frame_of_hours Demo.baseline_hours))
    as (Hraise & r & Hr & _ & Hpct & _);
    [lia | exact demo_names_distinct | exact Hne | exact Hb | reflexivity |].
  split; [exact Hraise |]. exists r. split; assumption.
Defined.

(** [d[k] = v] on a dict that has no key [k] appends the entry. *)
Lemma dict_set_fresh {V} (k : string) (v : V) (d : list (string * V)) :
  ~ In k (map fst d) -> dict_set k v d = d ++ [(k, v)].
Proof.
  induction d as [| [k' v'] d IH]; cbn [dict_set map fst In app]; intros Hk.
  - reflexivity.
  - destruct (String.eqb_spec k k') as [-> | Hne]; [tauto |].
    rewrite IH by tauto. reflexivity.
Qed.

(** X9. For a fleet with distinct ids, [pumps_status] of a row has one
    entry per pump, in fleet order, marked ON exactly for the pumps
    listed in [pumps_active]. *)
Theorem pumps_status_lists_fleet
    (self : IrrigationScheduleOptimizer) (ans : SolverAnswer) (t : Z) (d : Q) :
  NoDup (map id (pumps self)) ->
  pumps_status (hour_row self ans t d)
  = map (fun p => (id p, if running (varValue ans) t p then ON else OFF))
        (pumps self)
  /\ forall p, In p (pumps self) ->
       (In (id p) (pumps_active (hour_row self ans t d))
        <-> In (id p, ON) (pumps_status (hour_row self ans t d))).
Proof.
  intros Hnd.
  assert (Hfold : forall ps acc,
            NoDup (map fst (snd acc) ++ map id ps) ->
            snd (fold_left
                   (fun acc p =>
                      let status_val := varValue ans (pump_status (id p) t) in
                      let on := Qgt_bool status_val (1 # 2) in
                      (if on then fst acc ++ [id p] else fst acc,
                       dict_set (id p) (if on then ON else OFF) (snd acc)))
                   ps acc)
            = snd acc
              ++ map (fun p => (id p, if running (varValue ans) t p then ON else OFF))
                     ps).
  { induction ps as [| p ps IH]; intros acc Hacc; cbn [fold_left map].
    - now rewrite app_nil_r.
    - rewrite IH; cbn [fst snd].
      + rewrite dict_set_fresh.
        * rewrite <- app_assoc. reflexivity.
        * cbn [map] in Hacc. apply NoDup_remove_2 in Hacc.
          intros Hin. apply Hacc. apply in_or_app. now left.
      + rewrite dict_set_fresh.
        * rewrite map_app. cbn [map fst]. rewrite <- app_assoc. exact Hacc.
        * cbn [map] in Hacc. apply NoDup_remove_2 in Hacc.
          intros Hin. apply Hacc. apply in_or_app. now left. }
  assert (Hst : pumps_status (hour_row self ans t d)
                = map (fun p => (id p, if running (varValue ans) t p then ON else OFF))
                      (pumps self)).
  { cbn [pumps_status hour_row]. unfold pump_states.
    rewrite Hfold; [reflexivity | exact Hnd]. }
  split; [exact Hst |].
  intros p Hp. rewrite Hst, pumps_active_running. unfold active_pumps.
  rewrite !in_map_iff. split.
  - intros (q & Hq & Hin). apply filter_In in Hin as (Hin & Hrun).
    exists q. rewrite Hrun, Hq. auto.
  - intros (q & Hq & Hin).
    destruct (running (varValue ans) t q) eqn:Hrun; [| discriminate].
    injection Hq as Hq. exists q. split; [exact Hq |].
    apply filter_In. auto.
Qed.

Lemma pumps_status_lists_fleet_witness :
  NoDup (map id (pumps Demo.optimizer)) /\
  pumps_status (hour_row Demo.optimizer (Demo.solver_with "Optimal"
                  {| objective := of_const 0; constraints := []; variables := [] |})
                  0 40)
  = [("P1"%string, ON); ("P2"%string, OFF)].
Proof.
  assert (Hnd : NoDup (map id (pumps Demo.optimizer))).
  { cbn. repeat constructor; cbn; intuition discriminate. }
  split; [exact Hnd |].
  destruct (pumps_status_lists_fleet Demo.optimizer
              (Demo.solver_with "Optimal"
                 {| objective := of_const 0; constraints := []; variables := [] |})
              0 40 Hnd) as (Hst & _).
  rewrite Hst. vm_compute. reflexivity.
Defined.

(* ------------------------------------------------------------------ *)
(** * What an optimal plan looks like *)

Lemma update_same (a : assignment) (v : LpVariable) (x : Q) : update a v x v = x.
Proof. unfold update. destruct (LpVariable_eq_dec v v); congruence. Qed.

Lemma update_other (a : assignment) (v w : LpVariable) (x : Q) :
  w <> v -> update a v x w = a w.
Proof. unfold update. intros H. destruct (LpVariable_eq_dec w v); congruence. Qed.

(** Changing one variable moves the value of an expression by the
    coefficient of that variable. *)
Lemma value_update (a : assignment) (v : LpVariable) (x : Q)
    (e : LpAffineExpression) :
  value (update a v x) e == value a e + coefficient e v * (x - a v).
Proof.
  unfold value, coefficient. destruct e as [ts k]; cbn [terms constant].
  assert (H : Qsum (map (fun vk => snd vk * update a v x (fst vk)) ts)
              == Qsum (map (fun vk => snd vk * a (fst vk)) ts)
                 + Qsum (map (fun vk => if LpVariable_eq_dec (fst vk) v
                                        then snd vk else 0) ts) * (x - a v)).
  { induction ts as [| [w q] ts IH]; cbn [Qsum map fst snd].
    - ring.
    - rewrite IH. unfold update at 1.
      destruct (LpVariable_eq_dec w v) as [-> | Hne]; ring. }
  rewrite H. ring.
Qed.

Lemma Qsum_le {A} (f g : A -> Q) (xs : list A) :
  (forall x, In x xs -> f x <= g x) -> Qsum (map f xs) <= Qsum (map g xs).
Proof.
  induction xs as [| x xs IH]; cbn [Qsum map]; intros H.
  - apply Qle_refl.
  - assert (f x <= g x) by (apply H; now left).
    assert (Qsum (map f xs) <= Qsum (map g xs))
      by (apply IH; intros; apply H; now right).
    lra.
Qed.

Section Optimum.

Variable self : IrrigationScheduleOptimizer.
Variable h : Z.
Variable prob : LpProblem.
Hypothesis Hbuild : build_optimization_problem self h = Return prob.

(** A plan is feasible as soon as it respects the domains and the five
    families of inequalities. *)
Lemma feasible_intro (a : assignment) :
  (forall v, In v (variables prob) -> in_domain v (a v)) ->
  (forall t d, (0 <= t < h)%Z -> getitem (demand self) t = Return d ->
     d <= Qsum (map (fun p => a (pump_status (id p) t) * capacity_m3h p)
                    (pumps self))) ->
  (forall t, (0 <= t < h)%Z ->
     a (total_power t)
     == Qsum (map (fun p => a (pump_status (id p) t) * power_kw p) (pumps self))) ->
  (forall t, (0 <= t < h)%Z ->
     penalty_rate (tariff self) * (a (total_power t) - subscribed_power (tariff self))
     <= a (penalty t)) ->
  (forall p t, In p (pumps self) -> (1 <= t < h)%Z ->
     a (pump_status (id p) t) - a (pump_status (id p) (t - 1))
     <= a (startup (id p) t)) ->
  (forall p, In p (pumps self) ->
     Qsum (map (fun t => a (startup (id p) t)) (range (Z.min 24 h))) <= 8) ->
  feasible prob a.
Proof.
  intros Hdom Hdem Hpow Hpen Hst Hbud. split.
  - apply Forall_forall. exact Hdom.
  - destruct (build_inv _ _ _ Hbuild) as (cs & Hcs & _ & -> & _).
    apply mapM_Return in Hcs.
    repeat (apply Forall_app; split); apply Forall_forall; intros c Hc.
    + destruct (Forall2_In_r _ _ _ _ Hcs Hc) as (t & Ht & Hct).
      apply in_range in Ht. unfold demand_constraint in Hct.
      destruct (getitem (demand self) t) as [d |] eqn:G; cbn [rbind] in Hct;
        [| discriminate].
      injection Hct as <-. unfold satisfied; cbn [rel lhs rhs].
      rewrite value_of_const,
        (value_weighted_sum a capacity_m3h (fun p => pump_status (id p) t)).
      apply (Hdem t d Ht G).
    + apply in_map_iff in Hc as (t & <- & Ht). apply in_range in Ht.
      unfold satisfied; cbn [rel lhs rhs power_constraint].
      rewrite value_of_var,
        (value_weighted_sum a power_kw (fun p => pump_status (id p) t)).
      apply (Hpow t Ht).
    + apply in_map_iff in Hc as (t & <- & Ht). apply in_range in Ht.
      unfold satisfied; cbn [rel lhs rhs penalty_constraint].
      autorewrite with lp_value. apply (Hpen t Ht).
    + apply in_flat_map in Hc as (p & Hp & Hc).
      apply in_map_iff in Hc as (t & <- & Ht). apply in_range_from in Ht.
      unfold satisfied; cbn [rel lhs rhs startup_constraint].
      autorewrite with lp_value. apply (Hst p t Hp Ht).
    + apply in_map_iff in Hc as (p & <- & Hp).
      unfold satisfied; cbn [rel lhs rhs max_startups_constraint].
      rewrite value_of_const, value_lpSum_map.
      rewrite (Qsum_map_ext _ (fun t => a (startup (id p) t)))
        by (intros; apply value_of_var).
      apply (Hbud p Hp).
Qed.

Lemma coefficient_objective_term_penalty (t' t : Z) :
  coefficient (objective_term self t') (penalty t)
  == if Z.eq_dec t' t then 1 else 0.
Proof.
  unfold objective_term.
  rewrite !coefficient_add, coefficient_scale_var, coefficient_of_var,
    coefficient_lpSum, map_map.
  rewrite Qsum_map_zero.
  - destruct (LpVariable_eq_dec (total_power t') (penalty t)) as [E | _];
      [discriminate |].
    destruct (LpVariable_eq_dec (penalty t') (penalty t)) as [E | E];
      destruct (Z.eq_dec t' t) as [E' | E']; try ring; exfalso; congruence.
  - intros p _. rewrite coefficient_scale_var.
    destruct (LpVariable_eq_dec _ _); [discriminate | reflexivity].
Qed.

Lemma coefficient_penalty (t : Z) :
  (0 <= t < h)%Z -> coefficient (objective prob) (penalty t) == 1.
Proof.
  intros Ht. destruct (build_inv _ _ _ Hbuild) as (cs & _ & -> & _).
  rewrite coefficient_lpSum, map_map.
  rewrite (Qsum_map_ext _ (fun t' => if Z.eq_dec t' t then 1 else 0)).
  - apply (Qsum_pick Z.eq_dec (fun _ => 1)).
    + apply NoDup_range.
    + now apply in_range.
  - intros t' _. apply coefficient_objective_term_penalty.
Qed.

(** Lowering a penalty to the bound it has to respect keeps a plan
    feasible. *)
Lemma lower_penalty_feasible (a : assignment) (t : Z) (x : Q) :
  feasible prob a -> (0 <= t < h)%Z ->
  0 <= x ->
  penalty_rate (tariff self) * (a (total_power t) - subscribed_power (tariff self))
  <= x ->
  feasible prob (update a (penalty t) x).
Proof.
  intros Hf Ht Hx0 Hx.
  assert (Hps : forall p t', update a (penalty t) x (pump_status p t')
                             = a (pump_status p t'))
    by (intros; apply update_other; discriminate).
  assert (Htp : forall t', update a (penalty t) x (total_power t')
                           = a (total_power t'))
    by (intros; apply update_other; discriminate).
  assert (Hsu : forall p t', update a (penalty t) x (startup p t')
                             = a (startup p t'))
    by (intros; apply update_other; discriminate).
  apply feasible_intro.
  - intros v Hv. destruct (LpVariable_eq_dec v (penalty t)) as [-> | Hne].
    + rewrite update_same. exact Hx0.
    + rewrite update_other by exact Hne. apply (feasible_in_domain _ _ _ Hf Hv).
  - intros t' d Ht' Hd.
    rewrite (Qsum_map_ext _ (fun p => a (pump_status (id p) t') * capacity_m3h p))
      by (intros; rewrite Hps; reflexivity).
    apply (demand_covered self h prob Hbuild a t' d Hf Ht' Hd).
  - intros t' Ht'. rewrite Htp.
    rewrite (Qsum_map_ext _ (fun p => a (pump_status (id p) t') * power_kw p))
      by (intros; rewrite Hps; reflexivity).
    constraint_holds Hf (power_constraint_in self h prob t' Hbuild Ht') Hs.
    rewrite (value_weighted_sum a power_kw (fun p => pump_status (id p) t')) in Hs.
    exact Hs.
  - intros t' Ht'. rewrite Htp.
    destruct (Z.eq_dec t' t) as [-> | Hne].
    + rewrite update_same. exact Hx.
    + rewrite update_other by congruence.
      constraint_holds Hf (penalty_constraint_in self h prob t' Hbuild Ht') Hs.
      exact Hs.
  - intros p t' Hp Ht'. rewrite !Hps, Hsu.
    constraint_holds Hf (startup_constraint_in self h prob p t' Hbuild Hp Ht') Hs.
    exact Hs.
  - intros p Hp.
    rewrite (Qsum_map_ext _ (fun t' => a (startup (id p) t')))
      by (intros; rewrite Hsu; reflexivity).
    apply (startup_budget_first_day self h prob a p Hbuild Hf Hp).
Qed.

End Optimum.

(** With nothing to deliver and rates that are not negative, leaving
    every pump off is optimal. *)
Lemma idle_optimal
    (self : IrrigationScheduleOptimizer) (h : Z) (prob : LpProblem) :
  build_optimization_problem self h = Return prob ->
  (forall d, In d (demand self) -> d <= 0) ->
  0 <= peak (tariff self) -> 0 <= offpeak (tariff self) ->
  0 <= penalty_rate (tariff self) * subscribed_power (tariff self) ->
  optimal prob idle.
Proof.
  intros Hb Hdem Hpk Hop Hpen.
  split; [apply (idle_feasible self h prob Hb Hdem Hpen) |].
  intros a' Hf'.
  rewrite (idle_objective self h prob Hb), (objective_value self h prob a' Hb).
  unfold objective_formula. apply Qsum_nonneg. intros t Ht. apply in_range in Ht.
  assert (H1 : 0 <= a' (total_power t))
    by apply (feasible_in_domain _ _ _ Hf' (total_power_declared self h prob Hb t Ht)).
  assert (H2 : 0 <= a' (penalty t))
    by apply (feasible_in_domain _ _ _ Hf' (penalty_declared self h prob t Hb Ht)).
  assert (H3 : 0 <= Qsum (map (fun p => a' (startup (id p) t) * 5000) (pumps self))).
  { apply Qsum_nonneg. intros p Hp.
    assert (0 <= a' (startup (id p) t)).
    { apply (binary_nonneg (startup (id p) t)); [reflexivity |].
      apply (feasible_in_domain _ _ _ Hf' (startup_declared self h prob Hb p t Hp Ht)). }
    lra. }
  assert (H4 : 0 <= tariff_at (tariff self) t).
  { unfold tariff_at. destruct ((7 <=? t) && _)%Z; assumption. }
  assert (0 <= a' (total_power t) * tariff_at (tariff self) t)
    by (apply Qmult_le_0_compat; assumption).
  lra.
Qed.

Lemma idle_demo_optimal (prob : LpProblem) :
  build_optimization_problem Demo.idle_optimizer 3 = Return prob ->
  optimal prob idle.
Proof.
  intros Hb. apply (idle_optimal Demo.idle_optimizer 3 prob Hb).
  - intros d Hd. cbn in Hd. destruct Hd as [<- | [<- | [<- | []]]]; apply Qle_refl.
  - vm_compute. discriminate.
  - vm_compute. discriminate.
  - vm_compute. discriminate.
Qed.

(** X10. In an optimal plan the penalty of every hour is exactly what
    the overrun costs: [max(0, penalty_rate * (total_power[t] -
    subscribed_power))].  The constraint is an inequality; minimising
    makes it bind. *)
Theorem optimal_penalty_is_overrun_cost
    (self : IrrigationScheduleOptimizer) (h : Z) (prob : LpProblem)
    (a : assignment) (t : Z) :
  build_optimization_problem self h = Return prob ->
  optimal prob a ->
  (0 <= t < h)%Z ->
  a (penalty t)
  == py_max 0 (penalty_rate (tariff self)
               * (a (total_power t) - subscribed_power (tariff self))).
Proof.
  intros Hb [Hf Hbest] Ht.
  set (m := py_max 0 (penalty_rate (tariff self)
                      * (a (total_power t) - subscribed_power (tariff self)))).
  assert (Hlow : m <= a (penalty t)).
  { subst m. destruct (py_max_cases 0 (penalty_rate (tariff self)
                      * (a (total_power t) - subscribed_power (tariff self))))
      as [-> | ->].
    - apply (feasible_in_domain _ _ _ Hf (penalty_declared self h prob t Hb Ht)).
    - constraint_holds Hf (penalty_constraint_in self h prob t Hb Ht) Hs.
      exact Hs. }
  destruct (Qlt_le_dec m (a (penalty t))) as [Hlt | Hle]; [| lra].
  exfalso.
  assert (Hf' : feasible prob (update a (penalty t) m)).
  { apply (lower_penalty_feasible self h prob Hb a t m Hf Ht).
    - apply py_max_ge_l.
    - apply py_max_ge_r. }
  pose proof (Hbest _ Hf') as Hle.
  rewrite value_update, (coefficient_penalty self h prob Hb t Ht) in Hle.
  lra.
Qed.

(** The hour of [Cases.overrun] needs both pumps, which draw 190 kW
    against the 150 kW subscribed: the plan that runs both and pays the
    overrun is optimal. *)
Lemma overrun_plan_optimal (prob : LpProblem) :
  build_optimization_problem Cases.overrun 1 = Return prob ->
  optimal prob Cases.overrun_plan.
Proof.
  intros Hb. split.
  { pose proof Hb as Hb'. vm_compute in Hb'. injection Hb' as <-.
    apply feasibleb_true. vm_compute. reflexivity. }
  intros a Hf.
  assert (H0 : (0 <= 0 < 1)%Z) by lia.
  assert (Hin1 : In Cases.Q1 (pumps Cases.overrun)) by (left; reflexivity).
  assert (Hin2 : In Cases.Q2 (pumps Cases.overrun)) by (right; left; reflexivity).
  pose proof (demand_covered Cases.overrun 1 prob Hb a 0 100 Hf H0 eq_refl) as Hd.
  pose proof (feasible_in_domain _ _ _ Hf
                (pump_status_declared Cases.overrun 1 prob Hb _ 0 Hin1 H0)) as Hx1.
  pose proof (feasible_in_domain _ _ _ Hf
                (pump_status_declared Cases.overrun 1 prob Hb _ 0 Hin2 H0)) as Hx2.
  pose proof (binary_nonneg (startup (id Cases.Q1) 0) _ eq_refl
                (feasible_in_domain _ _ _ Hf
                   (startup_declared Cases.overrun 1 prob Hb _ 0 Hin1 H0))) as Hs1.
  pose proof (binary_nonneg (startup (id Cases.Q2) 0) _ eq_refl
                (feasible_in_domain _ _ _ Hf
                   (startup_declared Cases.overrun 1 prob Hb _ 0 Hin2 H0))) as Hs2.
  constraint_holds Hf (power_constraint_in Cases.overrun 1 prob 0 Hb H0) Hpow.
  rewrite (value_weighted_sum a power_kw (fun p => pump_status (id p) 0)) in Hpow.
  constraint_holds Hf (penalty_constraint_in Cases.overrun 1 prob 0 Hb H0) Hpen.
  rewrite !(objective_value Cases.overrun 1 prob _ Hb).
  unfold objective_formula.
  change (range 1) with [0%Z].
  change (pumps Cases.overrun) with [Cases.Q1; Cases.Q2] in *.
  change (tariff Cases.overrun) with Demo.tariffs in *.
  cbn [map Qsum Cases.overrun_plan id capacity_m3h power_kw Cases.Q1 Cases.Q2
       in_domain cat penalty_rate subscribed_power Demo.tariffs] in *.
  change (tariff_at Demo.tariffs 0) with 75.
  destruct Hx1 as [Hx1 | Hx1]; destruct Hx2 as [Hx2 | Hx2];
    rewrite Hx1, Hx2 in Hd, Hpow; lra.
Qed.

(** One hour in which both pumps must run: 190 kW against 150 kW
    subscribed, and an optimal penalty of 200 * 40 = 8000. *)
Lemma optimal_penalty_is_overrun_cost_witness :
  exists prob,
    build_optimization_problem Cases.overrun 1 = Return prob /\
    optimal prob Cases.overrun_plan /\
    (0 <= 0 < 1)%Z /\
    subscribed_power (tariff Cases.overrun) < Cases.overrun_plan (total_power 0) /\
    Cases.overrun_plan (penalty 0) == 8000.
Proof.
  destruct (build_optimization_problem Cases.overrun 1) as [prob | e] eqn:Hb;
    [| vm_compute in Hb; discriminate].
  pose proof (overrun_plan_optimal prob Hb) as Hopt.
  exists prob. split; [reflexivity |]. split; [exact Hopt |]. split; [lia |].
  split; [vm_compute; reflexivity |].
  rewrite (optimal_penalty_is_overrun_cost Cases.overrun 1 prob
             Cases.overrun_plan 0 Hb Hopt) by lia.
  vm_compute. reflexivity.
Defined.

Lemma Qsum_ge_term {A} (f : A -> Q) (xs : list A) (x0 : A) :
  (forall x, In x xs -> 0 <= f x) -> In x0 xs -> f x0 <= Qsum (map f xs).
Proof.
  induction xs as [| x xs IH]; cbn [Qsum map In]; intros Hpos Hin; [contradiction |].
  assert (H0 : 0 <= f x) by (apply Hpos; now left).
  assert (H1 : 0 <= Qsum (map f xs)).
  { apply Qsum_nonneg. intros; apply Hpos; now right. }
  destruct Hin as [<- | Hin].
  - lra.
  - assert (f x0 <= Qsum (map f xs)) by (apply IH; [intros; apply Hpos; now right | exact Hin]).
    lra.
Qed.

Section OptimumStartup.

Variable self : IrrigationScheduleOptimizer.
Variable h : Z.
Variable prob : LpProblem.
Hypothesis Hbuild : build_optimization_problem self h = Return prob.

(** Every start of a pump of the fleet is charged at least 5000. *)
Lemma coefficient_startup_positive (p : pump) (t : Z) :
  In p (pumps self) -> (0 <= t < h)%Z ->
  5000 <= coefficient (objective prob) (startup (id p) t).
Proof.
  intros Hp Ht. destruct (build_inv _ _ _ Hbuild) as (cs & _ & -> & _).
  rewrite coefficient_lpSum, map_map.
  assert (Hterm : forall t',
            coefficient (objective_term self t') (startup (id p) t)
            == Qsum (map (fun q => if LpVariable_eq_dec (startup (id q) t')
                                                        (startup (id p) t)
                                   then 5000 else 0) (pumps self))).
  { intros t'. unfold objective_term.
    rewrite !coefficient_add, coefficient_scale_var, coefficient_of_var,
      coefficient_lpSum, map_map.
    destruct (LpVariable_eq_dec (total_power t') (startup (id p) t));
      [discriminate |].
    destruct (LpVariable_eq_dec (penalty t') (startup (id p) t));
      [discriminate |].
    rewrite (Qsum_map_ext _
               (fun q => if LpVariable_eq_dec (startup (id q) t') (startup (id p) t)
                         then 5000 else 0))
      by (intros; apply coefficient_scale_var).
    ring. }
  assert (Hnn : forall t', 0 <= coefficient (objective_term self t') (startup (id p) t)).
  { intros t'. rewrite Hterm. apply Qsum_nonneg. intros q _.
    destruct (LpVariable_eq_dec _ _); lra. }
  apply Qle_trans with (coefficient (objective_term self t) (startup (id p) t)).
  - rewrite Hterm.
    pose proof (Qsum_ge_term
                  (fun q => if LpVariable_eq_dec (startup (id q) t)
                                                 (startup (id p) t)
                            then 5000 else 0) (pumps self) p) as Hge.
    cbv beta in Hge.
    destruct (LpVariable_eq_dec (startup (id p) t) (startup (id p) t)) as [_ | Hne];
      [| congruence].
    apply Hge; [| exact Hp].
    intros q _. destruct (LpVariable_eq_dec _ _); lra.
  - apply (Qsum_ge_term
             (fun t' => coefficient (objective_term self t') (startup (id p) t))).
    + intros; apply Hnn.
    + now apply in_range.
Qed.

(** Lowering a start flag to a 0/1 value that still covers the
    transition keeps a plan feasible. *)
Lemma lower_startup_feasible (a : assignment) (p : pump) (t : Z) (x : Q) :
  feasible prob a -> In p (pumps self) -> (0 <= t < h)%Z ->
  (x == 0 \/ x == 1) ->
  x <= a (startup (id p) t) ->
  ((1 <= t)%Z ->
     a (pump_status (id p) t) - a (pump_status (id p) (t - 1)) <= x) ->
  feasible prob (update a (startup (id p) t) x).
Proof.
  intros Hf Hp Ht Hbin Hx Hcov.
  set (v := startup (id p) t).
  assert (Hps : forall q t', update a v x (pump_status q t') = a (pump_status q t'))
    by (intros; apply update_other; discriminate).
  assert (Htp : forall t', update a v x (total_power t') = a (total_power t'))
    by (intros; apply update_other; discriminate).
  assert (Hpe : forall t', update a v x (penalty t') = a (penalty t'))
    by (intros; apply update_other; discriminate).
  assert (Hle : forall w, update a v x w <= a w).
  { intros w. destruct (LpVariable_eq_dec w v) as [-> | Hne].
    - rewrite update_same. exact Hx.
    - rewrite update_other by exact Hne. apply Qle_refl. }
  apply (feasible_intro self h prob Hbuild).
  - intros w Hw. destruct (LpVariable_eq_dec w v) as [-> | Hne].
    + rewrite update_same. exact Hbin.
    + rewrite update_other by exact Hne. apply (feasible_in_domain _ _ _ Hf Hw).
  - intros t' d Ht' Hd.
    rewrite (Qsum_map_ext _ (fun q => a (pump_status (id q) t') * capacity_m3h q))
      by (intros; rewrite Hps; reflexivity).
    apply (demand_covered self h prob Hbuild a t' d Hf Ht' Hd).
  - intros t' Ht'. rewrite Htp.
    rewrite (Qsum_map_ext _ (fun q => a (pump_status (id q) t') * power_kw q))
      by (intros; rewrite Hps; reflexivity).
    constraint_holds Hf (power_constraint_in self h prob t' Hbuild Ht') Hs.
    rewrite (value_weighted_sum a power_kw (fun q => pump_status (id q) t')) in Hs.
    exact Hs.
  - intros t' Ht'. rewrite Htp, Hpe.
    constraint_holds Hf (penalty_constraint_in self h prob t' Hbuild Ht') Hs.
    exact Hs.
  - intros q t' Hq Ht'. rewrite !Hps.
    destruct (LpVariable_eq_dec (startup (id q) t') v) as [E | Hne].
    + rewrite E, update_same. unfold v in E. injection E as Eid Et.
      rewrite Eid, Et. apply Hcov. lia.
    + rewrite update_other by exact Hne.
      constraint_holds Hf (startup_constraint_in self h prob q t' Hbuild Hq Ht') Hs.
      exact Hs.
  - intros q Hq.
    apply Qle_trans with (Qsum (map (fun t' => a (startup (id q) t'))
                                    (range (Z.min 24 h)))).
    + apply Qsum_le. intros t' _. apply Hle.
    + apply (startup_budget_first_day self h prob a q Hbuild Hf Hq).
Qed.

End OptimumStartup.

(** X11. In an optimal plan a start is booked exactly when a pump goes
    from off to on: [startup[p,t] = max(0, active[p,t] - active[p,t-1])]
    for every hour after the first, and [startup[p,0] = 0]: a pump that
    runs at hour 0 is never charged a start. *)
Theorem optimal_startup_is_transition
    (self : IrrigationScheduleOptimizer) (h : Z) (prob : LpProblem)
    (a : assignment) (p : pump) (t : Z) :
  build_optimization_problem self h = Return prob ->
  optimal prob a ->
  In p (pumps self) ->
  (0 <= t < h)%Z ->
  a (startup (id p) t)
  == if (t =? 0)%Z then 0
     else py_max 0 (a (pump_status (id p) t) - a (pump_status (id p) (t - 1))).
Proof.
  intros Hb [Hf Hbest] Hp Ht.
  set (x := if (t =? 0)%Z then 0
            else py_max 0 (a (pump_status (id p) t) - a (pump_status (id p) (t - 1)))).
  assert (Hnn : 0 <= a (startup (id p) t)).
  { apply (binary_nonneg (startup (id p) t)); [reflexivity |].
    apply (feasible_in_domain _ _ _ Hf (startup_declared self h prob Hb p t Hp Ht)). }
  assert (Hcov : (1 <= t)%Z ->
            a (pump_status (id p) t) - a (pump_status (id p) (t - 1)) <= x).
  { intros H1. subst x. destruct (Z.eqb_spec t 0); [lia |]. apply py_max_ge_r. }
  assert (Hlow : x <= a (startup (id p) t)).
  { subst x. destruct (Z.eqb_spec t 0); [exact Hnn |].
    destruct (py_max_cases 0 (a (pump_status (id p) t)
                              - a (pump_status (id p) (t - 1)))) as [-> | ->];
      [exact Hnn |].
    assert (Ht1 : (1 <= t < h)%Z) by lia.
    constraint_holds Hf (startup_constraint_in self h prob p t Hb Hp Ht1) Hs.
    exact Hs. }
  assert (Hbin : x == 0 \/ x == 1).
  { subst x. destruct (Z.eqb_spec t 0); [left; reflexivity |].
    assert (B1 : in_domain (pump_status (id p) t) (a (pump_status (id p) t))).
    { apply (feasible_in_domain prob a _ Hf).
      apply (pump_status_declared self h prob Hb p t Hp). lia. }
    assert (B0 : in_domain (pump_status (id p) (t - 1))
                   (a (pump_status (id p) (t - 1)))).
    { apply (feasible_in_domain prob a _ Hf).
      apply (pump_status_declared self h prob Hb p (t - 1) Hp). lia. }
    unfold in_domain in B1, B0. cbn [cat] in B1, B0.
    pose proof (py_max_ge_l 0 (a (pump_status (id p) t)
                               - a (pump_status (id p) (t - 1)))) as H0.
    destruct (py_max_cases 0 (a (pump_status (id p) t)
                              - a (pump_status (id p) (t - 1)))) as [E | E];
      rewrite E in H0 |- *; [left; reflexivity |].
    destruct B1 as [B1 | B1], B0 as [B0 | B0]; lra. }
  destruct (Qlt_le_dec x (a (startup (id p) t))) as [Hlt | Hle]; [| lra].
  exfalso.
  assert (Hf' : feasible prob (update a (startup (id p) t) x)).
  { apply (lower_startup_feasible self h prob Hb a p t x Hf Hp Ht Hbin Hlow Hcov). }
  pose proof (Hbest _ Hf') as Hle.
  rewrite value_update in Hle.
  pose proof (coefficient_startup_positive self h prob Hb p t Hp Ht) as Hc.
  assert (Hpos : 0 < coefficient (objective prob) (startup (id p) t)
                     * (a (startup (id p) t) - x)).
  { apply Qmult_lt_0_compat; lra. }
  lra.
Qed.

(** In [Cases.late_start] the pump has to run at hour 1; running it at
    hour 0 as well saves the start but costs an hour of energy, which
    is more: the plan that starts the pump at hour 1 is optimal. *)
Lemma late_start_plan_optimal (prob : LpProblem) :
  build_optimization_problem Cases.late_start 2 = Return prob ->
  optimal prob Cases.late_start_plan.
Proof.
  intros Hb. split.
  { pose proof Hb as Hb'. vm_compute in Hb'. injection Hb' as <-.
    apply feasibleb_true. vm_compute. reflexivity. }
  intros a Hf.
  assert (H0 : (0 <= 0 < 2)%Z) by lia.
  assert (H1 : (0 <= 1 < 2)%Z) by lia.
  assert (H11 : (1 <= 1 < 2)%Z) by lia.
  assert (Hin : In Demo.big (pumps Cases.late_start)) by (left; reflexivity).
  pose proof (demand_covered Cases.late_start 2 prob Hb a 1 10 Hf H1 eq_refl) as Hd.
  pose proof (feasible_in_domain _ _ _ Hf
                (pump_status_declared Cases.late_start 2 prob Hb _ 0 Hin H0)) as Hx0.
  pose proof (feasible_in_domain _ _ _ Hf
                (pump_status_declared Cases.late_start 2 prob Hb _ 1 Hin H1)) as Hx1.
  pose proof (binary_nonneg (startup (id Demo.big) 0) _ eq_refl
                (feasible_in_domain _ _ _ Hf
                   (startup_declared Cases.late_start 2 prob Hb _ 0 Hin H0))) as Hs0.
  pose proof (feasible_in_domain _ _ _ Hf
                (penalty_declared Cases.late_start 2 prob 0 Hb H0)) as Hp0.
  pose proof (feasible_in_domain _ _ _ Hf
                (penalty_declared Cases.late_start 2 prob 1 Hb H1)) as Hp1.
  constraint_holds Hf (power_constraint_in Cases.late_start 2 prob 0 Hb H0) Hpow0.
  rewrite (value_weighted_sum a power_kw (fun p => pump_status (id p) 0)) in Hpow0.
  constraint_holds Hf (power_constraint_in Cases.late_start 2 prob 1 Hb H1) Hpow1.
  rewrite (value_weighted_sum a power_kw (fun p => pump_status (id p) 1)) in Hpow1.
  constraint_holds Hf (startup_constraint_in Cases.late_start 2 prob Demo.big 1
                         Hb Hin H11) Hst.
  rewrite !(objective_value Cases.late_start 2 prob _ Hb).
  unfold objective_formula.
  change (range 2) with [0%Z; 1%Z].
  change (pumps Cases.late_start) with [Demo.big] in *.
  change (tariff Cases.late_start) with Demo.tariffs in *.
  change (1 - 1)%Z with 0%Z in Hst.
  cbn [map Qsum Cases.late_start_plan id capacity_m3h power_kw Demo.big
       in_domain cat Z.eqb Pos.eqb] in *.
  change (tariff_at Demo.tariffs 0) with 75.
  change (tariff_at Demo.tariffs 1) with 75.
  destruct Hx0 as [Hx0 | Hx0]; destruct Hx1 as [Hx1 | Hx1];
    rewrite Hx0 in Hpow0, Hst; rewrite Hx1 in Hd, Hpow1, Hst; lra.
Qed.

(** Two scenes.  In [Cases.late_start] the pump is off at hour 0 and on
    at hour 1, and the optimal plan books the start at hour 1.  In
    [Cases.overrun] both pumps run at hour 0, and no start is booked
    for them. *)
Lemma optimal_startup_is_transition_witness :
  (exists prob,
     build_optimization_problem Cases.late_start 2 = Return prob /\
     optimal prob Cases.late_start_plan /\
     In Demo.big (pumps Cases.late_start) /\
     (0 <= 1 < 2)%Z /\
     Cases.late_start_plan (pump_status (id Demo.big) 0) == 0 /\
     Cases.late_start_plan (pump_status (id Demo.big) 1) == 1 /\
     Cases.late_start_plan (startup (id Demo.big) 1) == 1) /\
  (exists prob,
     build_optimization_problem Cases.overrun 1 = Return prob /\
     optimal prob Cases.overrun_plan /\
     In Cases.Q1 (pumps Cases.overrun) /\
     (0 <= 0 < 1)%Z /\
     Cases.overrun_plan (pump_status (id Cases.Q1) 0) == 1 /\
     Cases.overrun_plan (startup (id Cases.Q1) 0) == 0).
Proof.
  split.
  - destruct (build_optimization_problem Cases.late_start 2) as [prob | e] eqn:Hb;
      [| vm_compute in Hb; discriminate].
    pose proof (late_start_plan_optimal prob Hb) as Hopt.
    exists prob. split; [reflexivity |]. split; [exact Hopt |].
    split; [left; reflexivity |]. split; [lia |].
    split; [reflexivity |]. split; [reflexivity |].
    rewrite (optimal_startup_is_transition Cases.late_start 2 prob
               Cases.late_start_plan Demo.big 1 Hb Hopt)
      by (first [left; reflexivity | lia]).
    vm_compute. reflexivity.
  - destruct (build_optimization_problem Cases.overrun 1) as [prob | e] eqn:Hb;
      [| vm_compute in Hb; discriminate].
    pose proof (overrun_plan_optimal prob Hb) as Hopt.
    exists prob. split; [reflexivity |]. split; [exact Hopt |].
    split; [left; reflexivity |]. split; [lia |].
    split; [reflexivity |].
    rewrite (optimal_startup_is_transition Cases.overrun 1 prob
               Cases.overrun_plan Cases.Q1 0 Hb Hopt)
      by (first [left; reflexivity | lia]).
    vm_compute. reflexivity.
Defined.

(** X12. A forecast with no positive demand, rates that are not
    negative and a solver that returns an optimal plan with status
    "Optimal": the run always ends in [ZeroDivisionError], because the
    optimal plan costs nothing. *)
Theorem zero_forecast_always_raises
    (solve : LpProblem -> SolverAnswer) (self : IrrigationScheduleOptimizer)
    (h : Z) (prob : LpProblem) :
  build_optimization_problem self (effective_horizon self h) = Return prob ->
  (forall d, In d (demand self) -> d <= 0) ->
  0 <= peak (tariff self) -> 0 <= offpeak (tariff self) ->
  0 <= penalty_rate (tariff self) * subscribed_power (tariff self) ->
  lp_status (solve prob) = "Optimal"%string ->
  optimal prob (varValue (solve prob)) ->
  result_of (optimize_schedule solve h self) = Raise ZeroDivisionError /\
  exists sol, solution (state_of (optimize_schedule solve h self)) = Some sol /\
              total_cost sol == 0.
Proof.
  intros Hb Hdem Hpk Hop Hpen Hst Hopt.
  rewrite optimize_schedule_run. cbv zeta. rewrite Hb, Hst.
  destruct (extract_total self (solve prob) (effective_horizon self h))
    as (acc & Hacc & _); [apply effective_horizon_le |].
  rewrite Hacc.
  assert (Hcost : total_cost_optimized acc == 0).
  { rewrite (foldM_total_cost self _ _ _ _ Hacc).
    cbn [total_cost_optimized extraction_start].
    rewrite Qsum_map_zero; [ring |].
    intros t Ht. apply in_range in Ht.
    apply (optimal_hour_cost_zero self _ prob Hb _ Hdem Hpk Hop Hpen Hopt t Ht). }
  pose proof Hcost as Hcost'. apply Qeq_bool_iff in Hcost'. rewrite Hcost'.
  split; [reflexivity |]. eexists. split; [reflexivity |]. exact Hcost.
Qed.

Lemma zero_forecast_always_raises_witness :
  exists prob,
    build_optimization_problem Demo.idle_optimizer
      (effective_horizon Demo.idle_optimizer 3) = Return prob /\
    optimal prob (varValue (Demo.idle_solver prob)) /\
    result_of (optimize_schedule Demo.idle_solver 3 Demo.idle_optimizer)
      = Raise ZeroDivisionError.
Proof.
  destruct (build_optimization_problem Demo.idle_optimizer
              (effective_horizon Demo.idle_optimizer 3)) as [prob | e] eqn:Hb;
    [| vm_compute in Hb; discriminate].
  assert (Hopt : optimal prob (varValue (Demo.idle_solver prob))).
  { apply idle_demo_optimal. exact Hb. }
  exists prob. split; [reflexivity |]. split; [exact Hopt |].
  apply (zero_forecast_always_raises Demo.idle_solver Demo.idle_optimizer 3 prob Hb).
  - intros d Hd. cbn in Hd. destruct Hd as [<- | [<- | [<- | []]]]; apply Qle_refl.
  - vm_compute. discriminate.
  - vm_compute. discriminate.
  - vm_compute. discriminate.
  - reflexivity.
  - exact Hopt.
Defined.

(* ------------------------------------------------------------------ *)
(** * The baseline generator *)

Lemma Qgt_bool_true (x y : Q) : Qgt_bool x y = true <-> y < x.
Proof.
  unfold Qgt_bool. rewrite negb_true_iff. split.
  - intros E. destruct (Qlt_le_dec y x) as [Hlt | Hle]; [assumption |].
    apply Qle_bool_iff in Hle. congruence.
  - intros Hlt. destruct (Qle_bool x y) eqn:E; [| reflexivity].
    apply Qle_bool_iff in E. lra.
Qed.

Lemma Qgt_bool_false (x y : Q) : Qgt_bool x y = false <-> x <= y.
Proof.
  unfold Qgt_bool. rewrite negb_false_iff. apply Qle_bool_iff.
Qed.

Lemma py_min_spec (x y : Q) :
  (x <= y -> py_min x y = x) /\ (y < x -> py_min x y = y).
Proof.
  unfold py_min. split; intros Hxy.
  - apply Qgt_bool_false in Hxy. now rewrite Hxy.
  - apply Qgt_bool_true in Hxy. now rewrite Hxy.
Qed.

Lemma gbind_Return {R A B} (m : G R A) (f : A -> G R B) (r r' : R) (b : B) :
  gbind m f r = Return (b, r') ->
  exists a r1, m r = Return (a, r1) /\ f a r1 = Return (b, r').
Proof.
  unfold gbind. destruct (m r) as [[a r1] | e]; [| discriminate].
  intros Hf. eauto.
Qed.

Section GeneratorFacts.

Context {T R : Type} `{Calendar T} `{Random R}.
Variable self : Gen.t T.

(** One pump of the loop: what is appended and how the totals move. *)
Lemma activate_inv (i : Z) (st st1 : HourState.t) (pump : PumpConfig.t) (r r1 : R) :
  activate i st pump r = Return (st1, r1) ->
  exists entry,
    HourState.active_pumps st1 = HourState.active_pumps st ++ [entry] /\
    Activation.pump_id entry = PumpConfig.id pump /\
    HourState.total_power st1
      == HourState.total_power st + Activation.power_kw entry /\
    HourState.total_flow st1
      == HourState.total_flow st + Activation.flow_m3h entry /\
    HourState.remaining_demand st1
      == HourState.remaining_demand st - Activation.flow_m3h entry /\
    ((0 < HourState.remaining_demand st /\ Activation.status entry = ON /\
      Activation.flow_m3h entry
      = py_min (PumpConfig.capacity_m3h pump) (HourState.remaining_demand st))
     \/ (HourState.remaining_demand st <= 0 /\ Activation.status entry = OFF /\
         Activation.flow_m3h entry = 0 /\ Activation.power_kw entry = 0)).
Proof.
  unfold activate.
  destruct (Qgt_bool (HourState.remaining_demand st) 0) eqn:Erem.
  - apply Qgt_bool_true in Erem. intros Hrun.
    apply gbind_Return in Hrun as (power_used & r2 & _ & Hrun).
    apply gbind_Return in Hrun as (u & r3 & _ & Hrun).
    apply gbind_Return in Hrun as (leak & r4 & _ & Hrun).
    unfold gret in Hrun. injection Hrun as <- <-.
    eexists. cbn [HourState.active_pumps HourState.total_power
                  HourState.total_flow HourState.remaining_demand].
    split; [reflexivity |].
    cbn [Activation.pump_id Activation.power_kw Activation.flow_m3h
         Activation.status].
    repeat split; try reflexivity. left. auto.
  - apply Qgt_bool_false in Erem. unfold gret. intros Hrun. injection Hrun as <- <-.
    eexists. cbn [HourState.active_pumps HourState.total_power
                  HourState.total_flow HourState.remaining_demand].
    split; [reflexivity |].
    cbn [Activation.pump_id Activation.power_kw Activation.flow_m3h
         Activation.status].
    repeat split; try ring. right. auto.
Qed.

(** The loop over the fleet: one entry per pump, in order; the totals
    are the sums over the entries; a pump that is off draws and pumps
    nothing. *)
Lemma gfold_activate (i : Z) (pumps : list PumpConfig.t) (st st' : HourState.t)
    (r r' : R) :
  gfold (activate i) pumps st r = Return (st', r') ->
  exists entries,
    HourState.active_pumps st' = HourState.active_pumps st ++ entries /\
    map Activation.pump_id entries = map PumpConfig.id pumps /\
    HourState.total_power st'
      == HourState.total_power st + Qsum (map Activation.power_kw entries) /\
    HourState.total_flow st'
      == HourState.total_flow st + Qsum (map Activation.flow_m3h entries) /\
    Forall (fun e => Activation.status e = OFF ->
                     Activation.flow_m3h e = 0 /\ Activation.power_kw e = 0)
           entries.
Proof.
  revert st r. induction pumps as [| pump pumps IH]; intros st r; cbn [gfold].
  - unfold gret. intros Hrun. injection Hrun as <- <-.
    exists []. rewrite app_nil_r. cbn [map Qsum].
    repeat split; try constructor; ring.
  - intros Hrun. apply gbind_Return in Hrun as (st1 & r1 & Hact & Hrun).
    apply activate_inv in Hact
      as (entry & Hap & Hid & Hpow & Hflow & _ & Hcase).
    destruct (IH _ _ Hrun) as (entries & Hap' & Hids & Hpow' & Hflow' & Hoff).
    exists (entry :: entries). cbn [map Qsum].
    repeat split.
    + rewrite Hap', Hap, <- app_assoc. reflexivity.
    + now rewrite Hid, Hids.
    + rewrite Hpow', Hpow. ring.
    + rewrite Hflow', Hflow. ring.
    + constructor; [| exact Hoff].
      intros Hst. destruct Hcase as [(_ & Hon & _) | (_ & _ & Hf & Hp)];
        [congruence | auto].
Qed.

(** What the fleet delivers: all that is asked when it can, all it has
    otherwise. *)
Lemma gfold_activate_flow (i : Z) (pumps : list PumpConfig.t)
    (st st' : HourState.t) (r r' : R) :
  gfold (activate i) pumps st r = Return (st', r') ->
  0 <= HourState.remaining_demand st ->
  (forall p, In p pumps -> 0 <= PumpConfig.capacity_m3h p) ->
  let delivered := HourState.total_flow st' - HourState.total_flow st in
  let capacity := Qsum (map PumpConfig.capacity_m3h pumps) in
  (capacity <= HourState.remaining_demand st -> delivered == capacity) /\
  (HourState.remaining_demand st <= capacity ->
   delivered == HourState.remaining_demand st).
Proof.
  revert st r. induction pumps as [| pump pumps IH]; intros st r; cbn [gfold].
  - unfold gret. intros Hrun. injection Hrun as <- <-. intros Hrem _.
    cbn [map Qsum]. split; intros; lra.
  - intros Hrun Hrem Hcaps.
    apply gbind_Return in Hrun as (st1 & r1 & Hact & Hrun).
    apply activate_inv in Hact
      as (entry & _ & _ & _ & Hflow & Hrem1 & Hcase).
    assert (Hcap : 0 <= PumpConfig.capacity_m3h pump) by (apply Hcaps; now left).
    assert (Hrest : 0 <= Qsum (map PumpConfig.capacity_m3h pumps)).
    { apply Qsum_nonneg. intros; apply Hcaps; now right. }
    assert (Hflow_bounds : 0 <= Activation.flow_m3h entry
                           <= HourState.remaining_demand st).
    { destruct Hcase as [(Hpos & _ & ->) | (_ & _ & -> & _)]; [| lra].
      destruct (py_min_spec (PumpConfig.capacity_m3h pump)
                  (HourState.remaining_demand st)) as (Hle & Hgt).
      destruct (Qlt_le_dec (HourState.remaining_demand st)
                  (PumpConfig.capacity_m3h pump)) as [Hlt | Hle'].
      - rewrite (Hgt Hlt). lra.
      - rewrite (Hle Hle'). lra. }
    destruct (IH st1 r1 Hrun) as (IH1 & IH2).
    { rewrite Hrem1. lra. }
    { intros; apply Hcaps; now right. }
    cbn [map Qsum]. cbv zeta in IH1, IH2 |- *.
    rewrite Hrem1 in IH1, IH2.
    destruct Hcase as [(Hpos & _ & Hf) | (Hnpos & _ & Hf & _)].
    + destruct (py_min_spec (PumpConfig.capacity_m3h pump)
                  (HourState.remaining_demand st)) as (Hle & Hgt).
      destruct (Qlt_le_dec (HourState.remaining_demand st)
                  (PumpConfig.capacity_m3h pump)) as [Hlt | Hle'].
      * rewrite (Hgt Hlt) in Hf. rewrite Hf in *. split; intros Hc.
        -- lra.
        -- assert (E := IH2 ltac:(lra)). lra.
      * rewrite (Hle Hle') in Hf. rewrite Hf in *. split; intros Hc.
        -- assert (E := IH1 ltac:(lra)). lra.
        -- assert (E := IH2 ltac:(lra)). lra.
    + rewrite Hf in *. split; intros Hc.
      * assert (E := IH1 ltac:(lra)). lra.
      * assert (E := IH2 ltac:(lra)). lra.
Qed.

End GeneratorFacts.

Lemma nth_error_combine {A B} (xs : list A) (ys : list B) (n : nat) (x : A) (y : B) :
  nth_error (combine xs ys) n = Some (x, y) ->
  nth_error xs n = Some x /\ nth_error ys n = Some y.
Proof.
  revert ys n. induction xs as [| x0 xs IH]; intros [| y0 ys] [| n]; cbn;
    try discriminate.
  - intros E. injection E as <- <-. auto.
  - apply IH.
Qed.

Section GeneratedFrame.

Context {T R : Type} `{Calendar T} `{Random R}.
Variable self : Gen.t T.

Lemma hour_rows_inv (i : Z) (ts : T) (dem : Q) (r r' : R)
    (block : list (DataRow.t T)) :
  hour_rows self i ts dem r = Return (block, r') ->
  exists st,
    gfold (activate i) (Gen.pump_configs self) (hour_start dem) r = Return (st, r') /\
    block = map (data_row self ts dem st) (HourState.active_pumps st).
Proof.
  unfold hour_rows. intros Hrun.
  apply gbind_Return in Hrun as (st & r1 & Hst & Hrun).
  unfold gret in Hrun. injection Hrun as <- <-. eauto.
Qed.

(** The blocks of the frame are the hours of the zipped input, each
    produced by one pass of the loop body. *)
Lemma hours_from_inv (i : Z) (tds : list (T * Q)) (r r' : R)
    (blocks : list (list (DataRow.t T))) :
  hours_from self i tds r = Return (blocks, r') ->
  List.length blocks = List.length tds /\
  forall n block, nth_error blocks n = Some block ->
    exists ts dem ri ri',
      nth_error tds n = Some (ts, dem) /\
      hour_rows self (i + Z.of_nat n) ts dem ri = Return (block, ri').
Proof.
  revert i r blocks. induction tds as [| [ts dem] tds IH]; intros i r blocks;
    cbn [hours_from].
  - unfold gret. intros Hrun. injection Hrun as <- <-. split; [reflexivity |].
    intros [| n] block; discriminate.
  - intros Hrun.
    apply gbind_Return in Hrun as (rows & r1 & Hrows & Hrun).
    apply gbind_Return in Hrun as (more & r2 & Hmore & Hrun).
    unfold gret in Hrun. injection Hrun as <- <-.
    destruct (IH _ _ _ Hmore) as (Hlen & Hnth). split; [cbn; now rewrite Hlen |].
    intros [| n] block Hb; cbn in Hb.
    + injection Hb as <-. exists ts, dem, r, r1. split; [reflexivity |].
      now rewrite Z.add_0_r.
    + destruct (Hnth n block Hb) as (ts' & dem' & ri & ri' & Htd & Hrun').
      exists ts', dem', ri, ri'. split; [exact Htd |].
      replace (i + Z.of_nat (S n))%Z with (i + 1 + Z.of_nat n)%Z by lia.
      exact Hrun'.
Qed.

Lemma generate_pump_data_inv (timestamps : list T) (demand : list Q) (r r' : R)
    (rows : list (DataRow.t T)) :
  generate_pump_data self timestamps demand r = Return (rows, r') ->
  exists blocks,
    rows = List.concat blocks /\
    List.length blocks = Nat.min (List.length timestamps) (List.length demand) /\
    forall n block, nth_error blocks n = Some block ->
      exists ts dem ri ri',
        nth_error timestamps n = Some ts /\ nth_error demand n = Some dem /\
        hour_rows self (Z.of_nat n) ts dem ri = Return (block, ri').
Proof.
  unfold generate_pump_data. intros Hrun.
  apply gbind_Return in Hrun as (blocks & r1 & Hblocks & Hrun).
  unfold gret in Hrun. injection Hrun as <- <-.
  destruct (hours_from_inv _ _ _ _ _ Hblocks) as (Hlen & Hnth).
  exists blocks. split; [reflexivity |]. split; [now rewrite Hlen, length_combine |].
  intros n block Hb.
  destruct (Hnth n block Hb) as (ts & dem & ri & ri' & Htd & Hrun').
  apply nth_error_combine in Htd as (Hts & Hdem).
  exists ts, dem, ri, ri'. auto.
Qed.

Lemma hour_rows_ids (i : Z) (ts : T) (dem : Q) (r r' : R)
    (block : list (DataRow.t T)) :
  hour_rows self i ts dem r = Return (block, r') ->
  map DataRow.pump_id block = map PumpConfig.id (Gen.pump_configs self) /\
  Forall (fun row => DataRow.timestamp row = ts /\
                     DataRow.hour row = ts_hour ts /\
                     DataRow.day_of_week row = ts_weekday ts /\
                     DataRow.demand_m3h row = dem) block.
Proof.
  intros Hrun. apply hour_rows_inv in Hrun as (st & Hst & ->).
  apply gfold_activate in Hst as (entries & Hap & Hids & _).
  cbn [HourState.active_pumps hour_start app] in Hap. rewrite Hap. split.
  - rewrite map_map. cbn [DataRow.pump_id data_row]. exact Hids.
  - apply Forall_forall. intros row Hin.
    apply in_map_iff in Hin as (e & <- & _). repeat split.
Qed.

End GeneratedFrame.

(** X13. The frame of [generate_pump_data] holds, for each hour the
    timestamps and the demand both cover and in that order, one row per
    pump of the fleet in fleet order, each carrying the timestamp, the
    hour of day and the demand of that hour. *)
Theorem generated_frame_layout {T R : Type} `{Calendar T} `{Random R}
    (self : Gen.t T) (timestamps : list T) (demand : list Q) (r r' : R)
    (rows : list (DataRow.t T)) :
  generate_pump_data self timestamps demand r = Return (rows, r') ->
  exists blocks,
    rows = List.concat blocks /\
    List.length blocks = Nat.min (List.length timestamps) (List.length demand) /\
    List.length rows
    = (Nat.min (List.length timestamps) (List.length demand)
       * List.length (Gen.pump_configs self))%nat /\
    forall n block, nth_error blocks n = Some block ->
      exists ts dem,
        nth_error timestamps n = Some ts /\ nth_error demand n = Some dem /\
        map DataRow.pump_id block = map PumpConfig.id (Gen.pump_configs self) /\
        Forall (fun row => DataRow.timestamp row = ts /\
                           DataRow.hour row = ts_hour ts /\
                           DataRow.day_of_week row = ts_weekday ts /\
                           DataRow.demand_m3h row = dem) block.
Proof.
  intros Hrun.
  destruct (generate_pump_data_inv self _ _ _ _ _ Hrun) as (blocks & -> & Hlen & Hnth).
  exists blocks. split; [reflexivity |]. split; [exact Hlen |].
  assert (Hblock : forall block, In block blocks ->
            List.length block = List.length (Gen.pump_configs self)).
  { intros block Hin. apply In_nth_error in Hin as (n & Hn).
    destruct (Hnth n block Hn) as (ts & dem & ri & ri' & _ & _ & Hrows).
    apply hour_rows_ids in Hrows as (Hids & _).
    rewrite <- (length_map DataRow.pump_id), Hids. apply length_map. }
  split.
  - rewrite <- Hlen. clear Hlen Hnth Hrun.
    induction blocks as [| b bs IH]; [reflexivity |].
    cbn [List.concat List.length]. rewrite length_app, IH.
    + rewrite (Hblock b) by (now left). lia.
    + intros; apply Hblock; now right.
  - intros n block Hn.
    destruct (Hnth n block Hn) as (ts & dem & ri & ri' & Hts & Hdem & Hrows).
    apply hour_rows_ids in Hrows as (Hids & Hall).
    exists ts, dem. auto.
Qed.

Lemma generated_frame_layout_witness :
  exists rows,
    generate_pump_data (generator_init 0%Z 1 3) [5; 6; 7]%Z [200; 70] tt
      = Return (rows, tt) /\
    List.length rows = 6%nat.
Proof.
  destruct (generate_pump_data (generator_init 0%Z 1 3) [5; 6; 7]%Z [200; 70] tt)
    as [[rows []] | e] eqn:Hrun; [| vm_compute in Hrun; discriminate].
  exists rows. split; [reflexivity |].
  destruct (generated_frame_layout _ _ _ _ _ _ Hrun) as (blocks & _ & _ & Hlen & _).
  exact Hlen.
Defined.



(** X15. In every generated hour whose demand is not negative, with
    capacities that are not negative, the flows of the rows add up to
    the demand when the fleet can cover it and to the capacity of the
    whole fleet otherwise. *)
Theorem baseline_delivers_what_it_can {T R : Type} `{Calendar T} `{Random R}
    (self : Gen.t T) (i : Z) (ts : T) (dem : Q) (r r' : R)
    (block : list (DataRow.t T)) :
  hour_rows self i ts dem r = Return (block, r') ->
  0 <= dem ->
  (forall p, In p (Gen.pump_configs self) -> 0 <= PumpConfig.capacity_m3h p) ->
  Qsum (map DataRow.flow_m3h block)
  == py_min dem (Qsum (map PumpConfig.capacity_m3h (Gen.pump_configs self))).
Proof.
  intros Hrun Hdem Hcaps. apply hour_rows_inv in Hrun as (st & Hst & ->).
  pose proof (gfold_activate_flow _ _ _ _ _ _ Hst Hdem Hcaps) as (Hfull & Hpart).
  apply gfold_activate in Hst as (entries & Hap & _ & _ & Hflow & _).
  cbn [HourState.active_pumps HourState.total_flow HourState.remaining_demand
       hour_start app] in Hap, Hflow, Hfull, Hpart.
  rewrite Hap, map_map. cbn [DataRow.flow_m3h data_row].
  set (capacity := Qsum (map PumpConfig.capacity_m3h (Gen.pump_configs self))) in *.
  destruct (py_min_spec dem capacity) as (Hle & Hgt).
  destruct (Qlt_le_dec capacity dem) as [Hlt | Hle'].
  - rewrite (Hgt Hlt). assert (E := Hfull ltac:(lra)). rewrite Hflow in E.
    change (Qsum (map Activation.flow_m3h entries) == capacity). lra.
  - rewrite (Hle Hle'). assert (E := Hpart ltac:(lra)). rewrite Hflow in E.
    change (Qsum (map Activation.flow_m3h entries) == dem). lra.
Qed.

Lemma baseline_delivers_what_it_can_witness :
  exists block,
    hour_rows (generator_init 0%Z 1 3) 0 6%Z 70 tt = Return (block, tt) /\
    0 <= 70 /\
    Qsum (map DataRow.flow_m3h block) == 70.
Proof.
  destruct (hour_rows (generator_init 0%Z 1 3) 0 6%Z 70 tt)
    as [[block []] | e] eqn:Hrun; [| vm_compute in Hrun; discriminate].
  exists block. split; [reflexivity |]. split; [vm_compute; discriminate |].
  rewrite (baseline_delivers_what_it_can _ _ _ _ _ _ _ Hrun).
  - vm_compute. reflexivity.
  - vm_compute. discriminate.
  - intros p Hp. cbn in Hp.
    destruct Hp as [<- | [<- | [<- | []]]]; vm_compute; discriminate.
Defined.

Lemma length_filter_map {A B} (f : B -> bool) (g : A -> B) (xs : list A) :
  List.length (filter f (map g xs)) = List.length (filter (fun x => f (g x)) xs).
Proof.
  induction xs as [| x xs IH]; cbn [map filter]; [reflexivity |].
  destruct (f (g x)); cbn [List.length]; now rewrite IH.
Qed.

Lemma Qsum_map_const {A} (c : Q) (xs : list A) :
  Qsum (map (fun _ => c) xs) == inject_Z (Z.of_nat (List.length xs)) * c.
Proof.
  induction xs as [| x xs IH]; cbn [Qsum map List.length].
  - ring.
  - rewrite IH, Nat2Z.inj_succ. unfold Z.succ. rewrite inject_Z_plus. ring.
Qed.

(** X16. The accounts of a generated hour.  Every row carries the total
    power of the hour, which is the sum of the rows' own power; the
    energy costs of the rows add up to total power times the tariff of
    the hour of day; and, as soon as one pump is on, the total costs of
    the rows add up to that energy cost plus the penalty of the hour
    counted [N / n] times, for [N] rows of which [n] are on: every row,
    on or off, is charged the share [penalty / n]. *)
Theorem baseline_hour_accounts {T R : Type} `{Calendar T} `{Random R}
    (self : Gen.t T) (i : Z) (ts : T) (dem : Q) (r r' : R)
    (block : list (DataRow.t T)) :
  hour_rows self i ts dem r = Return (block, r') ->
  exists P,
    P == Qsum (map DataRow.power_kw block) /\
    Forall (fun row => DataRow.total_power_kw row = P /\
                       DataRow.tariff_fcfa_kwh row = baseline_tariff self (ts_hour ts) /\
                       (DataRow.status row = OFF -> DataRow.power_kw row = 0))
           block /\
    Qsum (map DataRow.energy_cost_fcfa block)
      == P * baseline_tariff self (ts_hour ts) /\
    let n := List.length (filter row_is_on block) in
    ((0 < n)%nat ->
     Qsum (map DataRow.total_cost_fcfa block)
     == P * baseline_tariff self (ts_hour ts)
        + inject_Z (Z.of_nat (List.length block))
          * (baseline_penalty self P / inject_Z (Z.of_nat n))).
Proof.
  intros Hrun. apply hour_rows_inv in Hrun as (st & Hst & ->).
  apply gfold_activate in Hst as (entries & Hap & _ & Hpow & _ & Hoff).
  cbn [HourState.active_pumps HourState.total_power hour_start app] in Hap, Hpow.
  exists (HourState.total_power st). rewrite Hap.
  assert (Hn : List.length (filter row_is_on (map (data_row self ts dem st) entries))
               = List.length (filter is_on (HourState.active_pumps st))).
  { rewrite length_filter_map, Hap. reflexivity. }
  split; [| split; [| split]].
  - rewrite map_map. cbn [DataRow.power_kw data_row]. rewrite Hpow.
    change (0 + Qsum (map Activation.power_kw entries)
            == Qsum (map Activation.power_kw entries)).
    ring.
  - apply Forall_forall. intros row Hin. apply in_map_iff in Hin as (e & <- & He).
    cbn [DataRow.total_power_kw DataRow.tariff_fcfa_kwh DataRow.status
         DataRow.power_kw data_row].
    repeat split. intros Hst. rewrite Forall_forall in Hoff.
    now destruct (Hoff e He Hst).
  - rewrite map_map. cbn [DataRow.energy_cost_fcfa data_row].
    rewrite Qsum_map_scale.
    apply Qeq_trans with ((0 + Qsum (map Activation.power_kw entries))
                          * baseline_tariff self (ts_hour ts)); [ring |].
    apply Qmult_comp; [symmetry; exact Hpow | reflexivity].
  - cbv zeta. rewrite Hn. intros Hpos.
    rewrite map_map. cbn [DataRow.total_cost_fcfa data_row].
    apply Nat.ltb_lt in Hpos. rewrite Hpos.
    assert (E : Qsum (map Activation.power_kw entries) == HourState.total_power st)
      by (rewrite Hpow; ring).
    rewrite Qsum_map_plus, Qsum_map_scale, Qsum_map_const, length_map.
    change (Qsum (map (fun x => Activation.power_kw x) entries))
      with (Qsum (map Activation.power_kw entries)).
    rewrite E. ring.
Qed.

Lemma baseline_hour_accounts_witness :
  exists block P,
    hour_rows (generator_init 0%Z 1 3) 0 6%Z 70 tt = Return (block, tt) /\
    P == Qsum (map DataRow.power_kw block) /\
    Qsum (map DataRow.energy_cost_fcfa block) == P * 75.
Proof.
  destruct (hour_rows (generator_init 0%Z 1 3) 0 6%Z 70 tt)
    as [[block []] | e] eqn:Hrun; [| vm_compute in Hrun; discriminate].
  destruct (baseline_hour_accounts _ _ _ _ _ _ _ Hrun) as (P & HP & _ & Hen & _).
  exists block, P. split; [reflexivity |]. split; [exact HP |].
  rewrite Hen. reflexivity.
Defined.

(** X17. The generator prices an hour by the rules of the optimizer:
    its tariff for an hour of day is the optimizer's tariff for that
    hour index, and, for a penalty rate that is not negative, its
    penalty for a total power is the value the optimizer's penalty
    takes at an optimum, [max(0, rate * (power - subscribed))]. *)
Theorem baseline_priced_like_optimizer {T : Type} (self : Gen.t T)
    (hour : Z) (power : Q) :
  0 <= Gen.penalty_rate self ->
  baseline_tariff self hour = tariff_at (tariff_of_generator self) hour /\
  baseline_penalty self power
  == py_max 0 (penalty_rate (tariff_of_generator self)
               * (power - subscribed_power (tariff_of_generator self))).
Proof.
  intros Hrate. split.
  - unfold baseline_tariff, tariff_at. cbn [peak offpeak tariff_of_generator].
    destruct (Z.ltb_spec hour 7), (Z.leb_spec 23 hour), (Z.leb_spec 7 hour),
      (Z.ltb_spec hour 23); cbn; try reflexivity; lia.
  - unfold baseline_penalty. cbn [penalty_rate subscribed_power tariff_of_generator].
    set (over := power - Gen.subscribed_power self).
    assert (Hprod : 0 < over -> 0 <= Gen.penalty_rate self * over).
    { intros. apply Qmult_le_0_compat; lra. }
    assert (Hneg : over <= 0 -> Gen.penalty_rate self * over <= 0).
    { intros Ho.
      assert (0 <= Gen.penalty_rate self * (- over))
        by (apply Qmult_le_0_compat; lra).
      lra. }
    set (m := Gen.penalty_rate self * over) in *.
    assert (Hl : over * Gen.penalty_rate self == m) by (subst m; ring).
    destruct (Qgt_bool power (Gen.subscribed_power self)) eqn:E.
    + apply Qgt_bool_true in E. rewrite Hl.
      assert (Hm0 : 0 <= m) by (apply Hprod; subst over; lra).
      pose proof (py_max_ge_r 0 m) as Hge.
      destruct (py_max_cases 0 m) as [Hm | Hm]; rewrite Hm in Hge |- *; lra.
    + apply Qgt_bool_false in E.
      assert (Hm0 : m <= 0) by (apply Hneg; subst over; lra).
      pose proof (py_max_ge_l 0 m) as Hge.
      destruct (py_max_cases 0 m) as [Hm | Hm]; rewrite Hm in Hge |- *; lra.
Qed.

Lemma baseline_priced_like_optimizer_witness :
  0 <= Gen.penalty_rate (generator_init 0%Z 1 3) /\
  baseline_tariff (generator_init 0%Z 1 3) 8 = 110 /\
  baseline_penalty (generator_init 0%Z 1 3) 160 == 2000.
Proof.
  split; [vm_compute; discriminate |].
  destruct (baseline_priced_like_optimizer (generator_init 0%Z 1 3) 8 160)
    as (Ht & Hp); [vm_compute; discriminate |].
  split.
  - rewrite Ht. reflexivity.
  - rewrite Hp. vm_compute. reflexivity.
Defined.

Section DemandPattern.

Context {T R : Type} `{Calendar T} `{Random R}.
Variable self : Gen.t T.

(** The demand of an hour is drawn without failure and is floored at
    15. *)
Lemma gmap_demand_at (tss : list T) (r : R) :
  exists ds r',
    gmap demand_at tss r = Return (ds, r') /\
    List.length ds = List.length tss /\
    Forall (fun d => 15 <= d) ds.
Proof.
  revert r. induction tss as [| ts tss IH]; intros r; cbn [gmap].
  - exists [], r. repeat split; constructor.
  - unfold gbind at 1. unfold demand_at at 1. unfold gbind at 1, draw, gret.
    destruct (normal 0 (base_demand ts * (12 # 100)) r) as [noise r1].
    destruct (IH r1) as (ds & r' & Hds & Hlen & Hall).
    unfold gbind. rewrite Hds. eexists. eexists. split; [reflexivity |].
    split; [cbn; now rewrite Hlen |].
    constructor; [apply py_max_ge_l | exact Hall].
Qed.

End DemandPattern.

(** X18. [generate_demand_pattern] never raises: it returns the
    timestamps of [days * hours_per_day] consecutive hours from the
    start date and as many demands, each of them at least 15 whatever
    the noise drawn. *)
Theorem demand_pattern_shape {T R : Type} `{Calendar T} `{Random R}
    (self : Gen.t T) (r : R) :
  exists timestamps demand r',
    generate_demand_pattern self r = Return (timestamps, demand, r') /\
    timestamps = map (add_hours (Gen.start_date self))
                     (range (Gen.days self * Gen.hours_per_day self)) /\
    List.length timestamps = Z.to_nat (Gen.days self * Gen.hours_per_day self) /\
    List.length demand = List.length timestamps /\
    Forall (fun d => 15 <= d) demand.
Proof.
  unfold generate_demand_pattern.
  set (timestamps := map (add_hours (Gen.start_date self))
                         (range (Gen.days self * Gen.hours_per_day self))).
  destruct (gmap_demand_at timestamps r) as (ds & r' & Hds & Hlen & Hall).
  exists timestamps, ds, r'. unfold gbind. rewrite Hds. unfold gret.
  split; [reflexivity |]. split; [reflexivity |].
  split; [subst timestamps; now rewrite length_map, length_range |].
  split; assumption.
Qed.


